(** * concealSATgen: a shallow embedding of the planted k-SAT generator

    The development follows the four Python modules of the repository:
    [cnfformula] (the formula builder), [hash_clauses] (the literal
    fingerprint table), [sample_clauses] (the rejection sampler) and
    [generator] (the orchestrating [main]).

    Python integers are [Z]; a [dict] is a [gmap], a [set] a [gset]; a float
    that is a probability is the rational number it denotes ([Q]; infinities
    and not-a-number appear in the parameter checks only, as [pyfloat]); the
    module level state of Python's [random] module and the module level
    dictionary [variable_mapping] are threaded explicitly.  The [while] loops carry a
    fuel argument: [OutOfFuel] stands for a run that is still looping.  Where
    the source formats a number into the text of an exception, the text here
    has the name of the variable in its place. *)

From Stdlib Require Import ZArith QArith Lia Ascii String DecimalString.
From stdpp Require Import gmap list list_numbers.

Close Scope Q_scope.
Local Open Scope Z_scope.

(** ** Exceptions and outcomes *)

Inductive exn : Type :=
| ValueError (msg : string)
| TypeError (msg : string)
| KeyError
| IndexError
| FileNotFoundError (msg : string)
| Exception (msg : string).

Inductive outcome (A : Type) : Type :=
| Ret (a : A)
| Raise (e : exn)
| OutOfFuel.

Arguments Ret {A} a.
Arguments Raise {A} e.
Arguments OutOfFuel {A}.

Definition bind {A B : Type} (x : outcome A) (f : A -> outcome B) : outcome B :=
  match x with
  | Ret a => f a
  | Raise e => Raise e
  | OutOfFuel => OutOfFuel
  end.

#[global] Instance outcome_ret : MRet outcome := @Ret.
#[global] Instance outcome_bind : MBind outcome := fun A B f x => bind x f.
#[global] Instance outcome_fmap : FMap outcome :=
  fun A B f x => bind x (fun a => Ret (f a)).

(** [d[k]] on a dictionary and [l[i]] on a list. *)
Definition getitem {K V : Type} `{Countable K} (d : gmap K V) (k : K) : outcome V :=
  match d !! k with
  | Some v => Ret v
  | None => Raise KeyError
  end.

Definition list_getitem {A : Type} (l : list A) (i : nat) : outcome A :=
  match l !! i with
  | Some v => Ret v
  | None => Raise IndexError
  end.

(** [max(l, key=key)]: the first element whose key is maximal; a
    [ValueError] on the empty sequence. *)
Fixpoint max_from {A : Type} (key : A -> Z) (best : A) (l : list A) : A :=
  match l with
  | [] => best
  | x :: l' => max_from key (if key best <? key x then x else best) l'
  end.

Definition py_max {A : Type} (key : A -> Z) (l : list A) : outcome A :=
  match l with
  | [] => Raise (ValueError "max() arg is an empty sequence")
  | x :: l' => Ret (max_from key x l')
  end.

(** [sum(l)] on a list of booleans: the number of [True] entries. *)
Fixpoint sum_bools (l : list bool) : nat :=
  match l with
  | [] => 0%nat
  | b :: l' => (Nat.b2n b + sum_bools l')%nat
  end.

(** The line feed, [str(z)] on an integer, and [s.split("\n")]. *)
Definition newline : string := String "010"%char EmptyString.

Definition str_int (z : Z) : string := NilZero.string_of_int (Z.to_int z).

Fixpoint split_newline (s : string) : list string :=
  match s with
  | EmptyString => [EmptyString]
  | String c s' =>
    if Ascii.eqb c "010"%char then EmptyString :: split_newline s'
    else
      match split_newline s' with
      | line :: lines => String c line :: lines
      | [] => [String c EmptyString]
      end
  end.

(** [r < p] on floats, read as rationals. *)
Definition Qltb (r p : Q) : bool := negb (Qle_bool p r).

(** A float that need not be a number: [float("nan")], [float("inf")] and
    [float("-inf")] are floats too.  [a < b] is false whenever one side is
    [nan]. *)
Inductive pyfloat : Type :=
| Number (q : Q)
| NaN
| PosInf
| NegInf.

Definition float_ltb (a b : pyfloat) : bool :=
  match a with
  | NaN => false
  | PosInf => false
  | NegInf =>
    match b with
    | Number _ | PosInf => true
    | NaN | NegInf => false
    end
  | Number x =>
    match b with
    | Number y => Qltb x y
    | PosInf => true
    | NaN | NegInf => false
    end
  end.

(** ** The pseudo-random stream

    Python's [random] module is not part of the repository.  Its generator is
    an interface here: a state, the four draws the program makes, and what the
    library documents about each of them. *)

Class PyRandom : Type := {
  rng : Type;
  (** [random.seed(s)]: the state after seeding with the integer [s]. *)
  rng_seed : Z -> rng;
  (** [random.random()]. *)
  rng_random : rng -> Q * rng;
  (** [random.choice([True, False])]. *)
  rng_choice : rng -> bool * rng;
  (** [random.randint(0, 1)]. *)
  rng_randint01 : rng -> Z * rng;
  (** [random.sample(range(lo, hi), k)]; [None] is the [ValueError] raised
      when [k] is negative or larger than the population. *)
  rng_sample : rng -> Z -> Z -> Z -> option (list Z * rng);

  rng_random_unit : forall g, (0 <= (rng_random g).1 /\ (rng_random g).1 < 1)%Q;
  rng_randint01_range : forall g, 0 <= (rng_randint01 g).1 <= 1;
  rng_sample_error : forall g lo hi k,
    rng_sample g lo hi k = None <-> (k < 0 \/ Z.max 0 (hi - lo) < k);
  rng_sample_length : forall g lo hi k l g',
    rng_sample g lo hi k = Some (l, g') -> Z.of_nat (length l) = k;
  rng_sample_NoDup : forall g lo hi k l g',
    rng_sample g lo hi k = Some (l, g') -> NoDup l;
  rng_sample_range : forall g lo hi k l g',
    rng_sample g lo hi k = Some (l, g') -> forall x, x ∈ l -> lo <= x < hi
}.

(** ** cnfformula.py *)

(** The objects a caller may put in a clause: only [int] and [bool] pass the
    type test of [add_clause]. *)
Inductive pyval : Type :=
| PyInt (z : Z)
| PyBool (b : bool)
| PyNone
| PyStr (s : string).

(** What a caller passes as [clause]; the items are pairs.  A list or a
    tuple has a length and yields its items on every pass; a generator, like
    any other iterator, yields them once and has no [len()]; an object
    without [__iter__] is not iterable. *)
Inductive clause_argument : Type :=
| Sequence (items : list (pyval * pyval))
| Generator (items : list (pyval * pyval))
| NotIterable.

(** [len(clause)]. *)
Definition py_len (clause : clause_argument) : outcome nat :=
  match clause with
  | Sequence items => Ret (length items)
  | Generator _ => Raise (TypeError "object of type 'generator' has no len()")
  | NotIterable => Raise (TypeError "object has no len()")
  end.

Module cnfformula.

Record CNF : Type := mkCNF {
  clauses : list (list Z);
  n : Z;
  header : string
}.

(** [CNF(n)]. *)
Definition init (n : Z) : CNF :=
  {| clauses := []; n := n; header := "Default header" |}.

(** [len(F)]. *)
Definition len (self : CNF) : nat := length (clauses self).

(** [(type(lit) is int) and (type(truth) is bool)], with the typed pair. *)
Definition typed_literal (x : pyval * pyval) : option (bool * Z) :=
  match x with
  | (PyBool truth, PyInt lit) => Some (truth, lit)
  | _ => None
  end.

Definition signed_literal (x : bool * Z) : Z :=
  let '(truth, lit) := x in if truth then lit else - lit.

(** [add_clause]: the outcome of the call and the object afterwards.  The
    body goes over [clause] once for each test, asks for [len(clause)] in the
    last test, and goes over it once more to write the literals.  The first
    pass, that of [all], reads every item when every item is typed: the later
    passes see the typed items again when [clause] is a sequence, and nothing
    when it is a generator. *)
Definition add_clause (clause : clause_argument) (self : CNF)
  : outcome unit * CNF :=
  match clause with
  | NotIterable =>
    (Raise (TypeError "Invalid clause. A clauses must be iterable."), self)
  | Sequence items | Generator items =>
    match mapM typed_literal items with
    | None => (Raise (TypeError "All literals have to be integers."), self)
    | Some cl =>
      let cl := match clause with Sequence _ => cl | _ => [] end in
      if existsb (fun '(_, lit) => (n self <? lit) || (lit =? 0)) cl then
        (Raise (ValueError "Invalid clause. The clause may only contain positive/negative integers up to n/-n."), self)
      else
        match py_len clause with
        | Ret len_clause =>
          if negb (size (list_to_set (C := gset Z) (cl.*2)) =? len_clause)%nat then
            (Raise (ValueError "This class does not accept tautological clauses or clauses with reappearing literals."), self)
          else
            let clause_list := map signed_literal cl in
            (Ret tt, {| clauses := clauses self ++ [clause_list];
                        n := n self; header := header self |})
        | Raise e => (Raise e, self)
        | OutOfFuel => (OutOfFuel, self)
        end
    end
  end.

(** [' '.join([str(lit) for lit in cls])] followed by [" 0\n"]. *)
Definition clause_string (cls : list Z) : string :=
  (String.concat " " (map str_int cls) ++ " 0" ++ newline)%string.

(** [dimacs()]: the text of the formula. *)
Definition dimacs (self : CNF) : string :=
  let output := EmptyString in
  let output :=
    foldl (fun output header_line =>
             (output ++ ("c " ++ header_line ++ newline))%string)
      output (split_newline (header self)) in
  let output :=
    (output ++ ("p cnf " ++ str_int (n self) ++ " "
                ++ str_int (Z.of_nat (length (clauses self))) ++ newline))%string in
  foldl (fun output cls => (output ++ clause_string cls)%string)
    output (clauses self).

End cnfformula.

(** Typed pairs as Python objects, and a tuple of them: a sampled clause is
    a tuple of [(bool, int)] pairs. *)
Definition py_pairs (c : list (bool * Z)) : list (pyval * pyval) :=
  map (fun '(truth, lit) => (PyBool truth, PyInt lit)) c.

Definition py_clause (c : list (bool * Z)) : clause_argument :=
  Sequence (py_pairs c).

Arguments cnfformula.add_clause : simpl never.

(** ** hash_clauses.py *)

Module hash_clauses.
Section hash_clauses.
Context `{PyRandom}.

(** The body of the [for l in range(1, n+1)] loop, with the index [i] into
    [sample] that the source advances by two. *)
Fixpoint fill_mapping (sample : list Z) (ls : list Z) (i : nat)
    (variable_mapping : gmap (bool * Z) Z) : outcome (gmap (bool * Z) Z) :=
  match ls with
  | [] => Ret variable_mapping
  | l :: ls' =>
    a ← list_getitem sample i;
    let variable_mapping := <[(true, l) := a]> variable_mapping in
    b ← list_getitem sample (i + 1);
    let variable_mapping := <[(false, l) := b]> variable_mapping in
    fill_mapping sample ls' (i + 2) variable_mapping
  end.

(** [init_variable_mapping(n, seed)].  [g] is the state of the [random]
    module and [variable_mapping] the module level dictionary; both are
    returned as the call leaves them.  The private generator [rng] is
    created and seeded, and the sample is drawn from the module's stream. *)
Definition init_variable_mapping (n : Z) (seed : Z) (g : rng)
    (variable_mapping : gmap (bool * Z) Z)
  : outcome (gmap (bool * Z) Z * rng) :=
  let rng := rng_seed seed in
  match rng_sample g 0 (2 ^ 32 - 1) (2 * n) with
  | None => Raise (ValueError "Sample larger than population or is negative")
  | Some (sample, g') =>
    variable_mapping ← fill_mapping sample (seqZ 1 n) 0 variable_mapping;
    Ret (variable_mapping, g')
  end.

(** [sum(map(f, clause))], from the left. *)
Fixpoint sum_map {A : Type} (f : A -> outcome Z) (l : list A) (acc : Z)
  : outcome Z :=
  match l with
  | [] => Ret acc
  | x :: l' => v ← f x; sum_map f l' (acc + v)
  end.

Definition hash_clause (variable_mapping : gmap (bool * Z) Z)
    (clause : list (bool * Z)) : outcome Z :=
  sum_map (getitem variable_mapping) clause 0.

End hash_clauses.
End hash_clauses.

(** ** sample_clauses.py *)

Module sample_clauses.
Section sample_clauses.
Context `{PyRandom}.

Definition unfair_coin_flip (p : Q) (g : rng) : bool * rng :=
  let '(r, g') := rng_random g in (Qltb r p, g').

(** [var in assignment and polarity == assignment[var]]. *)
Definition satisfied_literal (assignment : gmap Z bool) (x : bool * Z) : bool :=
  let '(polarity, var) := x in
  match assignment !! var with
  | Some b => bool_decide (polarity = b)
  | None => false
  end.

Definition number_of_satisfied_literals (clause : list (bool * Z))
    (assignment : gmap Z bool) : nat :=
  let satisfied_lits := map (satisfied_literal assignment) clause in
  sum_bools satisfied_lits.

(** The local variables of [sample_clauses] and the module's stream. *)
Record loop_state : Type := mkState {
  clauses : list (list (bool * Z));
  highestvariablecreated : Z;
  variableset : gset Z;
  clause_hash_set : gset Z;
  stream : rng
}.

Definition with_stream (st : loop_state) (g : rng) : loop_state :=
  {| clauses := clauses st;
     highestvariablecreated := highestvariablecreated st;
     variableset := variableset st;
     clause_hash_set := clause_hash_set st;
     stream := g |}.

(** [tuple((random.choice([True,False]), i) for i in vars)]. *)
Fixpoint draw_polarities (vars : list Z) (g : rng) : list (bool * Z) * rng :=
  match vars with
  | [] => ([], g)
  | i :: vars' =>
    let '(b, g1) := rng_choice g in
    let '(clause, g2) := draw_polarities vars' g1 in
    ((b, i) :: clause, g2)
  end.

Section loop.
Variables (k n m : Z) (hidden_solution : gmap Z bool) (p : list Q)
          (variable_mapping : gmap (bool * Z) Z).

(** One pass through the body of [while len(clauses) < m]. *)
Definition sample_iteration (st : loop_state) : outcome loop_state :=
  match rng_sample (stream st) 1 (n + 1) k with
  | None => Raise (ValueError "Sample larger than population or is negative")
  | Some (vars, g1) =>
    let '(clause, g2) := draw_polarities vars g1 in
    let i := number_of_satisfied_literals clause hidden_solution in
    if (0 <? i)%nat then
      p_i ← list_getitem p (i - 1)%nat;
      let '(flip, g3) := unfair_coin_flip p_i g2 in
      if flip then
        hash_value ← hash_clauses.hash_clause variable_mapping clause;
        if decide (hash_value ∈ clause_hash_set st) then
          Ret (with_stream st g3)
        else
          maxtupel ← py_max snd clause;
          Ret {| clauses := clauses st ++ [clause];
                 highestvariablecreated :=
                   if highestvariablecreated st <? maxtupel.2
                   then maxtupel.2 else highestvariablecreated st;
                 variableset := variableset st ∪ list_to_set (clause.*2);
                 clause_hash_set := clause_hash_set st ∪ {[hash_value]};
                 stream := g3 |}
      else Ret (with_stream st g3)
    else Ret (with_stream st g2)
  end.

Fixpoint sample_loop (fuel : nat) (st : loop_state) : outcome loop_state :=
  if Z.of_nat (length (clauses st)) <? m then
    match fuel with
    | O => OutOfFuel
    | S fuel' => st' ← sample_iteration st; sample_loop fuel' st'
    end
  else Ret st.

(** [sample_clauses(k, n, m, hidden_solution, s, p)]; [g] is the state of
    the [random] module at the call, replaced by [random.seed(s)]. *)
Definition sample_clauses (fuel : nat) (s : Z) (g : rng)
  : outcome (gset Z * list (list (bool * Z)) * rng) :=
  let g := rng_seed s in
  st ← sample_loop fuel
         {| clauses := []; highestvariablecreated := 0;
            variableset := ∅; clause_hash_set := ∅; stream := g |};
  Ret (variableset st, clauses st, stream st).
End loop.

End sample_clauses.
End sample_clauses.

(** ** generator.py *)

Module generator.
Section generator.
Context `{PyRandom}.

(** The state of the process that [main] reads and writes: the stream of the
    [random] module and [hash_clauses.variable_mapping]. *)
Record world : Type := mkWorld {
  random_state : rng;
  variable_mapping : gmap (bool * Z) Z
}.

(** The file behind the [-F] option, as the list of integers read from it. *)
Inductive hidden_file : Type :=
| Missing
| Contents (hiddensol_listint : list Z).

(** The checks under "Check for Errors". *)
Definition check_parameters (n m k : Z) (p : list Q) : outcome unit :=
  if (n <? 0) || (m <? 0) then
    Raise (ValueError "Parameters either not passed or negative.")
  else if k <=? 0 then
    Raise (ValueError "Parameters must be non-negatives.")
  else if n <? k then
    Raise (ValueError "Clauses cannot have more than n literals.")
  else if negb (Z.of_nat (length p) =? k) then
    Raise (ValueError "Length of list of p-values does not match k.")
  else if existsb (fun val => Qltb 1 val) p then
    Raise (ValueError "All p-values must be <= 1.0")
  else if existsb (fun val => Qltb val 0) p then
    Raise (ValueError "All p-values must be >= 0.0")
  else if negb (existsb (fun val => Qltb 0 val) p) then
    Raise (ValueError "Some p-values must be > 0.0")
  else Ret tt.

(** The same checks on a list [p] whose floats need not be numbers. *)
Definition check_parameters_float (n m k : Z) (p : list pyfloat)
  : outcome unit :=
  if (n <? 0) || (m <? 0) then
    Raise (ValueError "Parameters either not passed or negative.")
  else if k <=? 0 then
    Raise (ValueError "Parameters must be non-negatives.")
  else if n <? k then
    Raise (ValueError "Clauses cannot have more than n literals.")
  else if negb (Z.of_nat (length p) =? k) then
    Raise (ValueError "Length of list of p-values does not match k.")
  else if existsb (fun val => float_ltb (Number 1) val) p then
    Raise (ValueError "All p-values must be <= 1.0")
  else if existsb (fun val => float_ltb val (Number 0)) p then
    Raise (ValueError "All p-values must be >= 0.0")
  else if negb (existsb (fun val => float_ltb (Number 0) val) p) then
    Raise (ValueError "Some p-values must be > 0.0")
  else Ret tt.

(** The loop that draws a hidden solution, one [randint(0, 1)] per variable. *)
Fixpoint random_hidden_solution (vars : list Z) (g : rng) : list Z * rng :=
  match vars with
  | [] => ([], g)
  | variable :: vars' =>
    let '(flip, g1) := rng_randint01 g in
    let '(rest, g2) := random_hidden_solution vars' g1 in
    ((if flip =? 0 then variable else - variable) :: rest, g2)
  end.

(** The checks under "Check errors in hidden solution". *)
Definition check_hidden_solution (n : Z) (hiddensol_listint : list Z)
  : outcome unit :=
  top ← py_max Z.abs hiddensol_listint;
  let highest_var_in_hidden_sol := Z.abs top in
  if negb (highest_var_in_hidden_sol =? n) then
    Raise (Exception "Number of variables in hidden solution does not match requested n.")
  else if (size (list_to_set (C := gset Z) hiddensol_listint)
             <? length hiddensol_listint)%nat then
    Raise (Exception "Hidden solution contains duplicate entries")
  else if negb (size (list_to_set (C := gset Z) (map Z.abs hiddensol_listint))
                  =? length hiddensol_listint)%nat then
    Raise (Exception "Hidden solution contains inconsistent entries")
  else Ret tt.

Definition hidden_solution_list (n : Z) (F : option hidden_file) (g : rng)
  : outcome (list Z * rng) :=
  match F with
  | None => Ret (random_hidden_solution (seqZ 1 n) g)
  | Some Missing =>
    Raise (FileNotFoundError "Hidden Solution file does not exist")
  | Some (Contents hiddensol_listint) =>
    _ ← check_hidden_solution n hiddensol_listint;
    Ret (hiddensol_listint, g)
  end.

(** [{abs(var) : True if var > 0 else False for var in hiddensol_listint}]:
    a later entry for the same key replaces an earlier one. *)
Definition hidden_dict (hiddensol_listint : list Z) : gmap Z bool :=
  foldl (fun d var => <[Z.abs var := (0 <? var)]> d) ∅ hiddensol_listint.

(** [for clause in clauselist: F.add_clause(clause)]. *)
Fixpoint add_clauses (clauselist : list (list (bool * Z)))
    (F : cnfformula.CNF) : outcome cnfformula.CNF :=
  match clauselist with
  | [] => Ret F
  | clause :: rest =>
    match cnfformula.add_clause (py_clause clause) F with
    | (Ret _, F') => add_clauses rest F'
    | (Raise e, _) => Raise e
    | (OutOfFuel, _) => OutOfFuel
    end
  end.

Section orchestrator.
Variables (n m k : Z) (p : list Q) (s : Z) (hidden : gmap Z bool)
          (table : gmap (bool * Z) Z) (fuel : nat).

(** [while condition]: [attempts] bounds the number of passes, [fuel]
    the iterations of the sampler within each pass. *)
Fixpoint retry_loop (attempts : nat) (t : Z) (g : rng)
  : outcome (cnfformula.CNF * rng) :=
  match attempts with
  | O => OutOfFuel
  | S attempts' =>
    let t := t + 1 in
    '(variables, clauselist, g') ←
      sample_clauses.sample_clauses k n m hidden p table fuel (s + t) g;
    if negb (Z.of_nat (size variables) =? n) then
      retry_loop attempts' t g'
    else
      F ← add_clauses clauselist (cnfformula.init n);
      Ret (F, g')
  end.
End orchestrator.

(** [except ValueError: raise ValueError(...)]. *)
Definition except_ValueError {A : Type} (x : outcome A) : outcome A :=
  match x with
  | Raise (ValueError _) =>
    Raise (ValueError "There are fewer clauses available than the number requested")
  | _ => x
  end.

(** The [try] block of [main]: the table is initialised, then attempts are
    made with the seeds [s + 1], [s + 2], ... *)
Definition generate (fuel : nat) (n m k : Z) (p : list Q) (s : Z)
    (hidden : gmap Z bool) (w : world) : outcome (cnfformula.CNF * world) :=
  except_ValueError (
    '(table, g) ← hash_clauses.init_variable_mapping n 42
                    (random_state w) (variable_mapping w);
    '(F, g') ← retry_loop n m k p s hidden table fuel fuel 0 g;
    Ret (F, {| random_state := g'; variable_mapping := table |})).

(** [main(n, m, k, p, s, F)], up to the formula [F] that is written out; the
    header text and the file are not part of the model.  A run of [main]
    returns [r] when [main fuel ... = Ret r] for some [fuel]. *)
Definition main (fuel : nat) (n m : option Z) (k : option Z)
    (p : option (list Q)) (s : option Z) (F : option hidden_file)
    (w : world) : outcome (cnfformula.CNF * world) :=
  match n with
  | None => Raise (ValueError "Please pass parameter n.")
  | Some n =>
  match m with
  | None => Raise (ValueError "Please pass parameter m.")
  | Some m =>
    let k := default 3 k in
    let p := default (replicate (Z.to_nat k) 1%Q) p in
    let s := default 42 s in
    let g := rng_seed s in
    _ ← check_parameters n m k p;
    '(hiddensol_listint, g) ← hidden_solution_list n F g;
    let hidden := hidden_dict hiddensol_listint in
    generate fuel n m k p s hidden
      {| random_state := g; variable_mapping := variable_mapping w |}
  end end.

End generator.
End generator.

(** * The vocabulary of the properties *)

(** ** Candidates and passes of the sampler *)

(** The shape of a candidate: [k] pairs, variables distinct and in [1, n]. *)
Definition well_shaped (k n : Z) (clause : list (bool * Z)) : Prop :=
  Z.of_nat (length clause) = k /\ NoDup (clause.*2) /\
  forall v, v ∈ clause.*2 -> 1 <= v <= n.

(** A clause of class [i >= 1] whose probability [p[i-1]] is positive. *)
Definition admissible (k n : Z) (hidden : gmap Z bool) (p : list Q)
    (clause : list (bool * Z)) : Prop :=
  well_shaped k n clause /\
  (0 < sample_clauses.number_of_satisfied_literals clause hidden)%nat /\
  exists p_i,
    p !! (sample_clauses.number_of_satisfied_literals clause hidden - 1)%nat
      = Some p_i /\
    (0 < p_i)%Q.

(** What one pass through the loop body does to the accumulators: nothing,
    or one candidate is appended. *)
Inductive iteration_result `{PyRandom} (k n : Z) (hidden : gmap Z bool)
    (p : list Q) (table : gmap (bool * Z) Z)
    (st st' : sample_clauses.loop_state) : Prop :=
| rejected :
    sample_clauses.clauses st' = sample_clauses.clauses st ->
    sample_clauses.variableset st' = sample_clauses.variableset st ->
    sample_clauses.clause_hash_set st' = sample_clauses.clause_hash_set st ->
    iteration_result k n hidden p table st st'
| accepted (clause : list (bool * Z)) (i : nat) (p_i r : Q) (hash_value : Z) :
    well_shaped k n clause ->
    i = sample_clauses.number_of_satisfied_literals clause hidden ->
    (0 < i)%nat ->
    p !! (i - 1)%nat = Some p_i ->
    (0 <= r)%Q -> (r < p_i)%Q ->
    hash_clauses.hash_clause table clause = Ret hash_value ->
    hash_value ∉ sample_clauses.clause_hash_set st ->
    sample_clauses.clauses st' = sample_clauses.clauses st ++ [clause] ->
    sample_clauses.variableset st'
      = sample_clauses.variableset st ∪ list_to_set (clause.*2) ->
    sample_clauses.clause_hash_set st'
      = sample_clauses.clause_hash_set st ∪ {[hash_value]} ->
    iteration_result k n hidden p table st st'.

(** At most one clause, and the fingerprint of every clause that could be
    accepted for one variable and width one is recorded once there is one. *)
Definition one_clause_at_most `{PyRandom} (hidden : gmap Z bool)
    (table : gmap (bool * Z) Z) (st : sample_clauses.loop_state) : Prop :=
  (length (sample_clauses.clauses st) <= 1)%nat /\
  (sample_clauses.clauses st <> [] ->
   forall c h, well_shaped 1 1 c ->
     (0 < sample_clauses.number_of_satisfied_literals c hidden)%nat ->
     hash_clauses.hash_clause table c = Ret h ->
     h ∈ sample_clauses.clause_hash_set st).

(** ** Tables and outcomes *)

(** Two tables with the same entries for the literals of 1..n. *)
Definition agree (n : Z) (t1 t2 : gmap (bool * Z) Z) : Prop :=
  forall b v, 1 <= v <= n -> t1 !! (b, v) = t2 !! (b, v).

Definition same_up_to {A : Type} (R : A -> A -> Prop) (x y : outcome A) : Prop :=
  match x, y with
  | Ret a, Ret b => R a b
  | Raise e1, Raise e2 => e1 = e2
  | OutOfFuel, OutOfFuel => True
  | _, _ => False
  end.

(** The formula a run ends with, the process state it ends in, and the entry
    of [variable_mapping] for a literal at that point. *)
Definition formula_of `{PyRandom}
    (x : outcome (cnfformula.CNF * generator.world)) : cnfformula.CNF :=
  match x with
  | Ret r => r.1
  | _ => cnfformula.init 0
  end.

Definition final_world `{PyRandom}
    (x : outcome (cnfformula.CNF * generator.world)) (d : generator.world)
  : generator.world :=
  match x with
  | Ret r => r.2
  | _ => d
  end.

Definition table_after `{PyRandom}
    (x : outcome (cnfformula.CNF * generator.world)) (key : bool * Z)
  : option Z :=
  match x with
  | Ret r => generator.variable_mapping r.2 !! key
  | _ => None
  end.

(** Whether a call returned, and what it returned. *)
Definition returns {A : Type} (x : outcome A) : bool :=
  match x with
  | Ret _ => true
  | _ => false
  end.

Definition returned_or {A : Type} (d : A) (x : outcome A) : A :=
  match x with
  | Ret a => a
  | _ => d
  end.

(** ** Reading a formula

    The formula holds DIMACS literals: [v] for [(True, v)], [-v] for
    [(False, v)].  A literal holds under an assignment when its variable is
    assigned and the value is the literal's sign. *)

Definition literal_holds (hidden : gmap Z bool) (l : Z) : bool :=
  match hidden !! Z.abs l with
  | Some b => bool_decide ((0 <? l) = b)
  | None => false
  end.

Definition satisfied_count (hidden : gmap Z bool) (c : list Z) : nat :=
  sum_bools (map (literal_holds hidden) c).

Definition clause_satisfied (hidden : gmap Z bool) (c : list Z) : bool :=
  existsb (literal_holds hidden) c.

(** ** A reference stream

    A small linear congruential generator that implements the interface; the
    examples below run the program on it.  [random.sample] takes a window of
    the range at a pseudo-random offset. *)

Module lcg.

Definition next (g : Z) : Z := (g * 1103515245 + 12345) mod 2 ^ 31.

Definition seed (s : Z) : Z := s mod 2 ^ 31.

Definition random (g : Z) : Q * Z :=
  let g' := next g in (Qmake g' (2 ^ 31), g').

Definition choice (g : Z) : bool * Z :=
  let g' := next g in (Z.odd (g' / 2 ^ 16), g').

Definition randint01 (g : Z) : Z * Z :=
  let g' := next g in ((g' / 2 ^ 16) mod 2, g').

Definition sample (g lo hi k : Z) : option (list Z * Z) :=
  if (k <? 0) || (Z.max 0 (hi - lo) <? k) then None
  else
    let g' := next g in
    Some (map (fun j => lo + (g' / 2 ^ 16 + j) mod (hi - lo)) (seqZ 0 k), g').

Lemma next_range g : 0 <= next g < 2 ^ 31.
Proof. unfold next. apply Z.mod_pos_bound. lia. Qed.

Lemma random_unit g : (0 <= (random g).1 /\ (random g).1 < 1)%Q.
Proof.
  pose proof (next_range g) as Hg. unfold random; cbn [fst].
  split; [unfold Qle | unfold Qlt]; cbn [Qnum Qden]; lia.
Qed.

Lemma randint01_range g : 0 <= (randint01 g).1 <= 1.
Proof.
  unfold randint01; cbn [fst].
  pose proof (Z.mod_pos_bound (next g / 2 ^ 16) 2). lia.
Qed.

Lemma sample_error g lo hi k :
  sample g lo hi k = None <-> (k < 0 \/ Z.max 0 (hi - lo) < k).
Proof.
  unfold sample.
  destruct (k <? 0) eqn:E1; destruct (Z.max 0 (hi - lo) <? k) eqn:E2;
    cbn [orb]; split; intros Hx; try done; lia.
Qed.

Lemma sample_inv g lo hi k l g' :
  sample g lo hi k = Some (l, g') ->
  0 <= k <= Z.max 0 (hi - lo) /\
  l = map (fun j => lo + (next g / 2 ^ 16 + j) mod (hi - lo)) (seqZ 0 k).
Proof.
  unfold sample.
  destruct (k <? 0) eqn:E1; destruct (Z.max 0 (hi - lo) <? k) eqn:E2;
    cbn [orb]; intros Hx; try done.
  injection Hx as <- <-. split; [lia | done].
Qed.

Lemma sample_length g lo hi k l g' :
  sample g lo hi k = Some (l, g') -> Z.of_nat (length l) = k.
Proof.
  intros [Hk ->]%sample_inv. rewrite length_map, length_seqZ. lia.
Qed.

Lemma sample_range g lo hi k l g' :
  sample g lo hi k = Some (l, g') -> forall x, x ∈ l -> lo <= x < hi.
Proof.
  intros [Hk ->]%sample_inv x Hx.
  apply list_elem_of_fmap in Hx as (j & -> & Hj).
  apply elem_of_seqZ in Hj.
  pose proof (Z.mod_pos_bound (next g / 2 ^ 16 + j) (hi - lo)). lia.
Qed.

Lemma sample_NoDup g lo hi k l g' :
  sample g lo hi k = Some (l, g') -> NoDup l.
Proof.
  intros [Hk ->]%sample_inv.
  apply (NoDup_fmap_2_strong (fun j => lo + (next g / 2 ^ 16 + j) mod (hi - lo)));
    [| apply NoDup_seqZ].
  intros i j Hi%elem_of_seqZ Hj%elem_of_seqZ Heq.
  assert (Hlen : 0 < hi - lo) by lia.
  set (o := next g / 2 ^ 16) in *.
  pose proof (Z.div_mod (o + i) (hi - lo) ltac:(lia)) as Di.
  pose proof (Z.div_mod (o + j) (hi - lo) ltac:(lia)) as Dj.
  assert (Hr : (o + i) mod (hi - lo) = (o + j) mod (hi - lo)) by lia.
  rewrite Hr in Di.
  assert ((o + i) / (hi - lo) = (o + j) / (hi - lo)) by nia.
  lia.
Qed.

End lcg.

#[local] Instance lcg_random : PyRandom := {|
  rng := Z;
  rng_seed := lcg.seed;
  rng_random := lcg.random;
  rng_choice := lcg.choice;
  rng_randint01 := lcg.randint01;
  rng_sample := lcg.sample;
  rng_random_unit := lcg.random_unit;
  rng_randint01_range := lcg.randint01_range;
  rng_sample_error := lcg.sample_error;
  rng_sample_length := lcg.sample_length;
  rng_sample_NoDup := lcg.sample_NoDup;
  rng_sample_range := lcg.sample_range
|}.


(** ** Runs on the reference stream *)

(** A fresh process. *)
Definition demo_world : generator.world (H := lcg_random) :=
  {| generator.random_state := 0; generator.variable_mapping := ∅ |}.

(** [main(3, 3, k=2, s=5)]. *)
Definition demo_run : outcome (cnfformula.CNF * generator.world) :=
  generator.main 20 (Some 3) (Some 3) (Some 2) None (Some 5) None demo_world.

Definition demo_formula : cnfformula.CNF :=
  {| cnfformula.clauses := [[3; -1]; [2; 3]; [-2; 3]];
     cnfformula.n := 3; cnfformula.header := "Default header" |}.

(** [main(4, 6, k=3, p=[0, 1, 0.5], s=7, F=...)] with the hidden solution
    [1 -2 3 -4] read from a file. *)
Definition demo_run_F : outcome (cnfformula.CNF * generator.world) :=
  generator.main 50 (Some 4) (Some 6) (Some 3) (Some [0%Q; 1%Q; (1 # 2)%Q])
    (Some 7) (Some (generator.Contents [1; -2; 3; -4])) demo_world.

Definition demo_formula_F : cnfformula.CNF :=
  {| cnfformula.clauses :=
       [[-3; -4; 1]; [2; 3; -4]; [-4; 1; 2]; [1; -2; 3]; [-4; -1; -2]; [-1; -2; 3]];
     cnfformula.n := 4; cnfformula.header := "Default header" |}.

(** A process that has drawn from the stream and holds entries of an earlier
    table. *)
Definition used_world : generator.world (H := lcg_random) :=
  {| generator.random_state := 12345;
     generator.variable_mapping := {[(true, 1) := 7; (false, 9) := 3]} |}.

(** [main(3, 2, k=2, s=2)]: the attempts with the seeds 3 and 4 return
    clauses on the variables 1 and 3 only, the attempt with seed 5 is
    committed. *)
Definition retry_run : outcome (cnfformula.CNF * generator.world) :=
  generator.main 20 (Some 3) (Some 2) (Some 2) None (Some 2) None demo_world.

Definition retry_formula : cnfformula.CNF :=
  {| cnfformula.clauses := [[2; -3]; [-3; -1]];
     cnfformula.n := 3; cnfformula.header := "Default header" |}.

Definition retry_run_again : outcome (cnfformula.CNF * generator.world) :=
  generator.main 40 (Some 3) (Some 2) (Some 2) None (Some 2) None used_world.

(** The hidden solution of that run, its table, and what the sampler
    returns for the seed of attempt [t]. *)
Definition retry_hidden : gmap Z bool := generator.hidden_dict [1; -2; -3].

Definition retry_init : outcome (gmap (bool * Z) Z * Z) :=
  hash_clauses.init_variable_mapping (H := lcg_random) 3 42 671064393 ∅.

Definition retry_table : gmap (bool * Z) Z := (returned_or (∅, 0) retry_init).1.

Definition retry_sample (t : Z) : outcome (gset Z * list (list (bool * Z)) * Z) :=
  sample_clauses.sample_clauses (H := lcg_random) 2 3 2 retry_hidden
    [1%Q; 1%Q] retry_table 20 (2 + t) 0.

Definition retry_attempt (t : Z) : gset Z * list (list (bool * Z)) * Z :=
  returned_or (∅, [], 0) (retry_sample t).

(** * Properties *)

(** ** Outcomes *)

Lemma bind_Ret {A B : Type} (x : outcome A) (f : A -> outcome B) (b : B) :
  x ≫= f = Ret b -> exists a, x = Ret a /\ f a = Ret b.
Proof. destruct x as [a| |]; [eauto | done | done]. Qed.

Lemma bind_Ret_l {A B : Type} (a : A) (f : A -> outcome B) :
  Ret a ≫= f = f a.
Proof. reflexivity. Qed.

Lemma returns_pair {A B : Type} (x : outcome (A * B)) (d : A * B) :
  returns x = true -> x = Ret ((returned_or d x).1, (returned_or d x).2).
Proof. by destruct x as [[a b]| |]. Qed.

Lemma returns_Ret {A : Type} (x : outcome A) (d : A) :
  returns x = true -> x = Ret (returned_or d x).
Proof. by destruct x. Qed.

Lemma list_getitem_Ret {A : Type} (l : list A) (i : nat) (x : A) :
  list_getitem l i = Ret x <-> l !! i = Some x.
Proof. unfold list_getitem. destruct (l !! i); split; congruence. Qed.

Lemma getitem_Ret {K V : Type} `{Countable K} (d : gmap K V) (k : K) (v : V) :
  getitem d k = Ret v <-> d !! k = Some v.
Proof. unfold getitem. destruct (d !! k); split; congruence. Qed.

Lemma Qltb_lt (r p : Q) : Qltb r p = true <-> (r < p)%Q.
Proof.
  unfold Qltb. rewrite negb_true_iff, <- not_true_iff_false, Qle_bool_iff.
  split; [apply Qnot_le_lt | apply Qlt_not_le].
Qed.

(** ** The formula builder *)

Section cnfformula_facts.
Import cnfformula.

Lemma typed_py_clause (c : list (bool * Z)) :
  mapM typed_literal (py_pairs c) = Some c.
Proof.
  apply mapM_Some. unfold py_pairs.
  induction c as [|[truth lit] c IH]; constructor; [done | exact IH].
Qed.

(** What [add_clause] does to a list or a tuple. *)
Lemma add_clause_Sequence (items : list (pyval * pyval)) (F : CNF) :
  add_clause (Sequence items) F =
    match mapM typed_literal items with
    | None => (Raise (TypeError "All literals have to be integers."), F)
    | Some cl =>
      if existsb (fun '(_, lit) => (n F <? lit) || (lit =? 0)) cl then
        (Raise (ValueError "Invalid clause. The clause may only contain positive/negative integers up to n/-n."), F)
      else if negb (size (list_to_set (C := gset Z) (cl.*2)) =? length cl)%nat then
        (Raise (ValueError "This class does not accept tautological clauses or clauses with reappearing literals."), F)
      else (Ret tt, {| clauses := clauses F ++ [map signed_literal cl];
                       n := n F; header := header F |})
    end.
Proof.
  unfold add_clause, py_len.
  destruct (mapM typed_literal items) as [cl|] eqn:Hcl; [|done].
  apply mapM_Some, Forall2_length in Hcl. by rewrite Hcl.
Qed.

(** A generator is at its end after the type test, and has no length. *)
Lemma add_clause_Generator (items : list (pyval * pyval)) (F : CNF) :
  add_clause (Generator items) F =
    match mapM typed_literal items with
    | None => (Raise (TypeError "All literals have to be integers."), F)
    | Some _ =>
      (Raise (TypeError "object of type 'generator' has no len()"), F)
    end.
Proof. unfold add_clause. by destruct (mapM typed_literal items). Qed.

(** What [add_clause] does to a tuple of typed pairs. *)
Lemma add_clause_typed (c : list (bool * Z)) (F : CNF) :
  add_clause (py_clause c) F =
    if existsb (fun '(_, lit) => (n F <? lit) || (lit =? 0)) c then
      (Raise (ValueError "Invalid clause. The clause may only contain positive/negative integers up to n/-n."), F)
    else if negb (size (list_to_set (C := gset Z) (c.*2)) =? length c)%nat then
      (Raise (ValueError "This class does not accept tautological clauses or clauses with reappearing literals."), F)
    else (Ret tt, {| clauses := clauses F ++ [map signed_literal c];
                     n := n F; header := header F |}).
Proof.
  unfold py_clause. rewrite add_clause_Sequence, typed_py_clause. reflexivity.
Qed.

Lemma add_clause_Ret clause F r F' :
  add_clause clause F = (Ret r, F') ->
  exists items cl, clause = Sequence items /\
    mapM typed_literal items = Some cl /\
    clauses F' = clauses F ++ [map signed_literal cl] /\ n F' = n F.
Proof.
  destruct clause as [items|items|]; [| |done].
  - rewrite add_clause_Sequence.
    destruct (mapM typed_literal items) as [cl|] eqn:Hcl; [|done].
    repeat case_match; try done.
    intros [= _ <-]. by exists items, cl.
  - rewrite add_clause_Generator. by destruct (mapM typed_literal items).
Qed.

Lemma add_clause_Raise clause F e F' :
  add_clause clause F = (Raise e, F') -> F' = F.
Proof.
  destruct clause as [items|items|]; [| |by intros [= _ <-]].
  - rewrite add_clause_Sequence. repeat case_match; congruence.
  - rewrite add_clause_Generator. repeat case_match; congruence.
Qed.

Lemma size_list_to_set_NoDup (l : list Z) :
  NoDup l -> size (list_to_set (C := gset Z) l) = length l.
Proof. apply size_list_to_set. Qed.

Lemma size_list_to_set_le (l : list Z) :
  (size (list_to_set (C := gset Z) l) <= length l)%nat.
Proof.
  induction l as [|x l IH]; [by rewrite list_to_set_nil, size_empty|].
  rewrite list_to_set_cons, size_union_alt, size_singleton. simpl.
  assert (size (list_to_set (C := gset Z) l ∖ {[x]})
          <= size (list_to_set (C := gset Z) l))%nat
    by (apply subseteq_size; intros y [Hy _]%elem_of_difference; exact Hy).
  lia.
Qed.

Lemma size_list_to_set_length (l : list Z) :
  size (list_to_set (C := gset Z) l) = length l <-> NoDup l.
Proof.
  split; [|apply size_list_to_set].
  induction l as [|x l IH]; [constructor|].
  rewrite list_to_set_cons. simpl. intros Hsize.
  pose proof (size_list_to_set_le l) as Hle.
  destruct (decide (x ∈ l)) as [Hin|Hnot].
  - exfalso.
    assert ({[x]} ∪ list_to_set l = list_to_set (C := gset Z) l) as Heq
      by (apply subseteq_union_1_L; set_solver).
    rewrite Heq in Hsize. lia.
  - constructor; [done|]. apply IH.
    rewrite size_union, size_singleton in Hsize by set_solver. lia.
Qed.

End cnfformula_facts.

Section add_clause_claims.
Import cnfformula.

Lemma range_test_true (c : list (bool * Z)) (bound : Z) :
  existsb (fun '(_, lit) => (bound <? lit) || (lit =? 0)) c = true <->
  exists truth v, (truth, v) ∈ c /\ (bound < v \/ v = 0).
Proof.
  rewrite existsb_exists. split.
  - intros ([truth v] & Hin%list_elem_of_In & Ht).
    exists truth, v. split; [done|].
    apply orb_true_iff in Ht as [Ht|Ht]; lia.
  - intros (truth & v & Hin%list_elem_of_In & Hv).
    exists (truth, v). split; [done|].
    apply orb_true_iff. destruct Hv; [left | right]; lia.
Qed.

Lemma range_test_false (c : list (bool * Z)) (bound : Z) :
  (forall v, v ∈ c.*2 -> 1 <= v <= bound) ->
  existsb (fun '(_, lit) => (bound <? lit) || (lit =? 0)) c = false.
Proof.
  intros Hr. apply not_true_iff_false.
  intros (truth & v & Hin & Hv)%range_test_true.
  assert (v ∈ c.*2) as Hv'%Hr; [|lia].
  apply list_elem_of_fmap. by exists (truth, v).
Qed.

(** A clause of the sampler's shape passes the tests, whatever its width. *)
Lemma add_clause_well_shaped k (clause : list (bool * Z)) (F : CNF) :
  well_shaped k (n F) clause ->
  add_clause (py_clause clause) F =
    (Ret tt, {| clauses := clauses F ++ [map signed_literal clause];
                n := n F; header := header F |}).
Proof.
  intros (_ & Hnd & Hrange).
  rewrite add_clause_typed, (range_test_false _ _ Hrange).
  by rewrite size_list_to_set_NoDup, length_fmap, Nat.eqb_refl.
Qed.

(** With positive variables the two tests are: no variable above [n], no
    variable twice. *)
Lemma add_clause_positive (clause : list (bool * Z)) (F : CNF) :
  (forall v, v ∈ clause.*2 -> 0 < v) ->
  (exists F', add_clause (py_clause clause) F = (Ret tt, F')) <->
  (forall v, v ∈ clause.*2 -> v <= n F) /\ NoDup (clause.*2).
Proof.
  intros Hpos. rewrite add_clause_typed.
  destruct (existsb _ clause) eqn:Hrange.
  - apply range_test_true in Hrange as (truth & v & Hin & Hv).
    split; [by intros [F' ?]|]. intros [Hall _]. exfalso.
    assert (v ∈ clause.*2) as Hv'
      by (apply list_elem_of_fmap; by exists (truth, v)).
    specialize (Hall v Hv'). specialize (Hpos v Hv'). lia.
  - assert (forall v, v ∈ clause.*2 -> v <= n F) as Hall.
    { intros v ([truth v'] & -> & Hin)%list_elem_of_fmap. simpl.
      destruct (decide (v' <= n F)) as [|Hbad]; [done|].
      apply not_true_iff_false in Hrange. exfalso. apply Hrange.
      apply range_test_true. exists truth, v'. split; [done | lia]. }
    destruct (size (list_to_set (clause.*2)) =? length clause)%nat eqn:Hsize;
      simpl.
    + split; [|eauto]. intros _. split; [done|].
      apply size_list_to_set_length. apply Nat.eqb_eq in Hsize.
      by rewrite length_fmap.
    + split; [by intros [F' ?]|]. intros [_ Hnd].
      apply size_list_to_set_length in Hnd. rewrite length_fmap in Hnd.
      apply Nat.eqb_neq in Hsize. done.
Qed.

(** C8, as stated, fails: a pair whose variable is negative lies outside
    [1, n], and [add_clause] appends the clause. *)
Lemma add_clause_negative_variable_accepted :
  ~ (1 <= -2 <= 3) /\
  add_clause (Sequence [(PyBool true, PyInt (-2))]) (init 3) =
    (Ret tt, {| clauses := [[-2]]; n := 3; header := "Default header" |}).
Proof. split; [lia | reflexivity]. Qed.

(** C8, amended: a clause of typed pairs that has a variable equal to 0 or
    greater than [n] is refused with a [ValueError]; every failing call
    leaves the formula as it was; every successful call makes the formula
    longer by exactly one clause. *)
Theorem add_clause_out_of_range :
  (forall (clause : list (bool * Z)) (F : CNF) (truth : bool) (v : Z),
      (truth, v) ∈ clause -> n F < v \/ v = 0 ->
      exists msg, add_clause (py_clause clause) F = (Raise (ValueError msg), F)) /\
  (forall (clause : clause_argument) (F F' : CNF) (e : exn),
      add_clause clause F = (Raise e, F') -> F' = F) /\
  (forall (clause : clause_argument) (F F' : CNF) (r : unit),
      add_clause clause F = (Ret r, F') -> len F' = S (len F)).
Proof.
  split; [|split].
  - intros clause F truth v Hin Hv. rewrite add_clause_typed.
    assert (existsb (fun '(_, lit) => (n F <? lit) || (lit =? 0)) clause = true)
      as -> by (apply range_test_true; eauto).
    eauto.
  - intros clause F F' e. apply add_clause_Raise.
  - intros clause F F' r (items & cl & _ & _ & Hc & _)%add_clause_Ret.
    unfold len. rewrite Hc, length_app. simpl. lia.
Qed.

Lemma add_clause_out_of_range_witness :
  (exists msg, add_clause (py_clause [(true, 1); (false, 7)]) (init 3)
               = (Raise (ValueError msg), init 3)) /\
  len (add_clause (py_clause [(true, 1); (false, 2)]) (init 3)).2 = 1%nat.
Proof.
  destruct add_clause_out_of_range as (Hrange & _ & Hlen). split.
  - apply (Hrange [(true, 1); (false, 7)] (init 3) false 7).
    + apply list_elem_of_In. simpl. tauto.
    + simpl. lia.
  - apply (Hlen (py_clause [(true, 1); (false, 2)]) (init 3) _ tt).
    reflexivity.
Defined.



End add_clause_claims.

(** ** The sampler

    One pass through the loop body either leaves the accumulators alone or
    appends one candidate; every property of the returned list is an
    invariant of that step. *)

Section sampler_facts.
Context `{PyRandom}.
Import sample_clauses.
Variables (k n m : Z) (hidden : gmap Z bool) (p : list Q)
          (table : gmap (bool * Z) Z).

Lemma draw_polarities_vars (vars : list Z) (g : rng) :
  (draw_polarities vars g).1.*2 = vars.
Proof.
  revert g. induction vars as [|i vars IH]; intros g; [done|].
  simpl. destruct (rng_choice g) as [b g1].
  specialize (IH g1). destruct (draw_polarities vars g1) as [clause g2].
  cbn [fst] in *. rewrite fmap_cons. cbn [snd]. by f_equal.
Qed.

Lemma candidate_well_shaped (g g1 : rng) (vars : list Z) :
  rng_sample g 1 (n + 1) k = Some (vars, g1) ->
  well_shaped k n (draw_polarities vars g1).1.
Proof.
  intros Hs. unfold well_shaped. rewrite draw_polarities_vars.
  split; [|split].
  - rewrite <- (rng_sample_length _ _ _ _ _ _ Hs).
    by rewrite <- (length_fmap snd), draw_polarities_vars.
  - exact (rng_sample_NoDup _ _ _ _ _ _ Hs).
  - intros v Hv. pose proof (rng_sample_range _ _ _ _ _ _ Hs v Hv). lia.
Qed.

Lemma sample_iteration_result (st st' : loop_state) :
  sample_iteration k n hidden p table st = Ret st' ->
  iteration_result k n hidden p table st st'.
Proof.
  unfold sample_iteration.
  destruct (rng_sample (stream st) 1 (n + 1) k) as [[vars g1]|] eqn:Hs; [|done].
  pose proof (candidate_well_shaped _ _ _ Hs) as Hshape.
  destruct (draw_polarities vars g1) as [clause g2]. simpl in Hshape.
  destruct (0 <? number_of_satisfied_literals clause hidden)%nat eqn:Hi;
    [| intros [= <-]; by apply rejected].
  apply Nat.ltb_lt in Hi.
  intros (p_i & Hp%list_getitem_Ret & Hrest)%bind_Ret.
  unfold unfair_coin_flip in Hrest.
  pose proof (rng_random_unit g2) as [Hr0 Hr1].
  destruct (rng_random g2) as [r g3]. simpl in Hr0, Hr1.
  destruct (Qltb r p_i) eqn:Hflip; [| injection Hrest as <-; by apply rejected].
  apply Qltb_lt in Hflip.
  apply bind_Ret in Hrest as (hash_value & Hh & Hrest).
  destruct (decide (hash_value ∈ clause_hash_set st)) as [Hin|Hin];
    [injection Hrest as <-; by apply rejected|].
  apply bind_Ret in Hrest as (maxtupel & _ & [= <-]).
  by eapply (accepted k n hidden p table _ _ clause).
Qed.

Lemma sample_loop_invariant (P : loop_state -> Prop) :
  (forall st st', P st -> iteration_result k n hidden p table st st' -> P st') ->
  forall fuel st st',
    P st -> sample_loop k n m hidden p table fuel st = Ret st' ->
    P st' /\ m <= Z.of_nat (length (clauses st')).
Proof.
  intros Hstep fuel. induction fuel as [|fuel IH]; intros st st' HP; simpl.
  - destruct (Z.of_nat (length (clauses st)) <? m) eqn:E; [done|].
    intros [= <-]. split; [done | lia].
  - destruct (Z.of_nat (length (clauses st)) <? m) eqn:E.
    + intros (st1 & H1%sample_iteration_result & H2)%bind_Ret.
      apply (IH st1); [|done]. by apply (Hstep st).
    + intros [= <-]. split; [done | lia].
Qed.

Lemma sample_clauses_invariant (P : loop_state -> Prop) :
  (forall g, P {| clauses := []; highestvariablecreated := 0;
                  variableset := ∅; clause_hash_set := ∅; stream := g |}) ->
  (forall st st', P st -> iteration_result k n hidden p table st st' -> P st') ->
  forall fuel s g variables clauselist g',
    sample_clauses k n m hidden p table fuel s g
      = Ret (variables, clauselist, g') ->
    exists st, P st /\ variableset st = variables /\ clauses st = clauselist /\
               m <= Z.of_nat (length clauselist).
Proof.
  intros H0 Hstep fuel s g variables clauselist g'. unfold sample_clauses.
  intros (st & Hloop & [= <- <- <-])%bind_Ret.
  exists st. apply (sample_loop_invariant P Hstep) in Hloop as [HP Hm]; [done|].
  apply H0.
Qed.

End sampler_facts.

(** ** The orchestrator

    A run of [main] that returns went through the parameter checks, fixed a
    hidden solution, filled the table, and committed the clauses of one
    attempt, the one with seed [s + t], whose variable set has [n] elements. *)

Section orchestrator_facts.
Context `{PyRandom}.
Import generator.

Lemma add_clauses_Ret (clauselist : list (list (bool * Z))) (F F' : cnfformula.CNF) :
  add_clauses clauselist F = Ret F' ->
  cnfformula.clauses F' =
    cnfformula.clauses F ++ map (map cnfformula.signed_literal) clauselist /\
  cnfformula.n F' = cnfformula.n F.
Proof.
  revert F. induction clauselist as [|clause rest IH]; intros F; simpl.
  - intros [= <-]. by rewrite app_nil_r.
  - destruct (cnfformula.add_clause (py_clause clause) F) as [[r| |] F1] eqn:E;
      try done.
    intros HF. apply add_clause_Ret in E as (items & cl & [= <-] & Hcl & Hc & Hn).
    rewrite typed_py_clause in Hcl. injection Hcl as <-.
    apply IH in HF as [-> ->]. by rewrite Hc, <- app_assoc.
Qed.

Lemma retry_loop_Ret n m k p s hidden table fuel attempts t g cnf g' :
  retry_loop n m k p s hidden table fuel attempts t g = Ret (cnf, g') ->
  exists t' g0 variables clauselist,
    t < t' /\
    sample_clauses.sample_clauses k n m hidden p table fuel (s + t') g0
      = Ret (variables, clauselist, g') /\
    Z.of_nat (size variables) = n /\
    add_clauses clauselist (cnfformula.init n) = Ret cnf.
Proof.
  revert t g. induction attempts as [|attempts IH]; intros t g; simpl; [done|].
  intros ([[variables clauselist] g1] & Hs & Hrest)%bind_Ret.
  destruct (Z.of_nat (size variables) =? n) eqn:E; simpl in Hrest.
  - apply bind_Ret in Hrest as (F & HF & [= <- <-]).
    exists (t + 1), g, variables, clauselist. repeat split; [lia | done | lia | done].
  - apply IH in Hrest as (t' & g0 & vs & cl & Ht & Hrest).
    exists t', g0, vs, cl. split; [lia | done].
Qed.

(** The sampler seeds the stream itself: the state it is called in does not
    matter. *)
Lemma sample_clauses_reseeds k n m hidden p table fuel s (g1 g2 : rng) :
  sample_clauses.sample_clauses k n m hidden p table fuel s g1
  = sample_clauses.sample_clauses k n m hidden p table fuel s g2.
Proof. reflexivity. Qed.

(** A loop that returns has dropped the attempts before the one it commits. *)
Lemma retry_loop_first n m k p s hidden table fuel attempts t g cnf g' :
  retry_loop n m k p s hidden table fuel attempts t g = Ret (cnf, g') ->
  exists t' variables clauselist,
    t < t' <= t + Z.of_nat attempts /\
    (forall g0, sample_clauses.sample_clauses k n m hidden p table fuel (s + t') g0
                = Ret (variables, clauselist, g')) /\
    Z.of_nat (size variables) = n /\
    add_clauses clauselist (cnfformula.init n) = Ret cnf /\
    forall t'', t < t'' < t' ->
      exists vs cl g1,
        (forall g0, sample_clauses.sample_clauses k n m hidden p table fuel
                      (s + t'') g0 = Ret (vs, cl, g1)) /\
        Z.of_nat (size vs) <> n.
Proof.
  revert t g. induction attempts as [|attempts IH]; intros t g;
    cbn [retry_loop]; [done|].
  intros ([[variables clauselist] g1] & Hs & Hrest)%bind_Ret.
  destruct (Z.of_nat (size variables) =? n) eqn:E; cbn [negb] in Hrest.
  - apply bind_Ret in Hrest as (F & HF & [= <- <-]).
    exists (t + 1), variables, clauselist.
    split; [lia|]. split; [intros g0; exact Hs|]. split; [lia|].
    split; [done|]. intros t'' Ht. lia.
  - apply IH in Hrest as (t' & vs & cl & Ht & Hs' & Hsize & Hadd & Hbefore).
    exists t', vs, cl. split; [lia|]. do 3 (split; [done|]).
    intros t'' Ht''. destruct (decide (t'' = t + 1)) as [->|Hne].
    + exists variables, clauselist, g1. split; [intros g0; exact Hs | lia].
    + apply Hbefore. lia.
Qed.

(** The loop at counter [t] commits the attempt [d] passes later, the one
    with seed [s + (t + 1 + d)], when that is the first whose variable set
    has [n] elements. *)
Lemma retry_loop_commits n m k p s hidden table fuel (d attempts : nat)
    t g g0 vs cl g' cnf :
  (forall j : nat, (j < d)%nat ->
     exists vs' cl' g1,
       sample_clauses.sample_clauses k n m hidden p table fuel
         (s + (t + 1 + Z.of_nat j)) g0 = Ret (vs', cl', g1) /\
       Z.of_nat (size vs') <> n) ->
  sample_clauses.sample_clauses k n m hidden p table fuel
    (s + (t + 1 + Z.of_nat d)) g0 = Ret (vs, cl, g') ->
  Z.of_nat (size vs) = n ->
  add_clauses cl (cnfformula.init n) = Ret cnf ->
  (d < attempts)%nat ->
  retry_loop n m k p s hidden table fuel attempts t g = Ret (cnf, g').
Proof.
  revert attempts t g.
  induction d as [|d IH]; intros attempts t g Hdrop Hs Hsize Hadd Hlt;
    (destruct attempts as [|attempts]; [lia|]); cbn [retry_loop].
  - rewrite (sample_clauses_reseeds _ _ _ _ _ _ _ _ g g0).
    replace (s + (t + 1 + Z.of_nat 0)) with (s + (t + 1)) in Hs by lia.
    rewrite Hs, bind_Ret_l.
    assert ((Z.of_nat (size vs) =? n) = true) as -> by lia.
    cbn [negb]. by rewrite Hadd.
  - destruct (Hdrop 0%nat) as (vs' & cl' & g1 & Hs' & Hsize'); [lia|].
    rewrite (sample_clauses_reseeds _ _ _ _ _ _ _ _ g g0).
    replace (s + (t + 1 + Z.of_nat 0)) with (s + (t + 1)) in Hs' by lia.
    rewrite Hs', bind_Ret_l.
    assert ((Z.of_nat (size vs') =? n) = false) as -> by lia.
    cbn [negb]. apply IH; [| |done|done|lia].
    + intros j Hj. destruct (Hdrop (S j)) as (vs'' & cl'' & g2 & Hs'' & Hne);
        [lia|].
      exists vs'', cl'', g2. split; [|done].
      by replace (s + (t + 1 + 1 + Z.of_nat j))
        with (s + (t + 1 + Z.of_nat (S j))) by lia.
    + by replace (s + (t + 1 + 1 + Z.of_nat d))
        with (s + (t + 1 + Z.of_nat (S d))) by lia.
Qed.

Lemma except_ValueError_Ret {A : Type} (x : outcome A) (a : A) :
  except_ValueError x = Ret a -> x = Ret a.
Proof. destruct x as [b|[]|]; done. Qed.

Lemma generate_Ret fuel n m k p s hidden w cnf w' :
  generate fuel n m k p s hidden w = Ret (cnf, w') ->
  exists table g1 t g2 variables clauselist g3,
    hash_clauses.init_variable_mapping n 42 (random_state w) (variable_mapping w)
      = Ret (table, g1) /\
    0 < t /\
    sample_clauses.sample_clauses k n m hidden p table fuel (s + t) g2
      = Ret (variables, clauselist, g3) /\
    Z.of_nat (size variables) = n /\
    cnfformula.clauses cnf = map (map cnfformula.signed_literal) clauselist /\
    cnfformula.n cnf = n.
Proof.
  unfold generate. intros Hg%except_ValueError_Ret.
  apply bind_Ret in Hg as ([table g1] & Hinit & Hg).
  apply bind_Ret in Hg as ([F g'] & Hloop & [= <- <-]).
  apply retry_loop_Ret in Hloop as (t & g2 & vs & cl & Ht & Hs & Hsize & Hadd).
  apply add_clauses_Ret in Hadd as [Hc Hn].
  exists table, g1, t, g2, vs, cl, g'. repeat split; done.
Qed.

Lemma main_Ret fuel n m k p s F w cnf w' :
  main fuel (Some n) (Some m) k p s F w = Ret (cnf, w') ->
  exists hiddensol_listint g0 table t g2 variables clauselist g3,
    hidden_solution_list n F (rng_seed (default 42 s))
      = Ret (hiddensol_listint, g0) /\
    0 < t /\
    sample_clauses.sample_clauses (default 3 k) n m
        (hidden_dict hiddensol_listint)
        (default (replicate (Z.to_nat (default 3 k)) 1%Q) p) table fuel
        (default 42 s + t) g2
      = Ret (variables, clauselist, g3) /\
    Z.of_nat (size variables) = n /\
    cnfformula.clauses cnf = map (map cnfformula.signed_literal) clauselist /\
    cnfformula.n cnf = n.
Proof.
  unfold main.
  intros ([] & _ & Hm)%bind_Ret.
  apply bind_Ret in Hm as ([hl g0] & Hh & Hm).
  apply generate_Ret in Hm as (table & g1 & t & g2 & vs & cl & g3 & _ & Hm).
  exists hl, g0, table, t, g2, vs, cl, g3. by split.
Qed.

End orchestrator_facts.

(** ** Signed literals *)

Lemma literal_holds_signed (hidden : gmap Z bool) (truth : bool) (v : Z) :
  0 < v ->
  literal_holds hidden (cnfformula.signed_literal (truth, v))
  = sample_clauses.satisfied_literal hidden (truth, v).
Proof.
  intros Hv. unfold literal_holds, sample_clauses.satisfied_literal; simpl.
  destruct truth.
  - rewrite Z.abs_eq by lia. assert ((0 <? v) = true) as -> by lia. done.
  - rewrite Z.abs_opp, Z.abs_eq by lia. assert ((0 <? (- v)) = false) as -> by lia.
    done.
Qed.

Lemma satisfied_count_signed (hidden : gmap Z bool) (clause : list (bool * Z)) :
  (forall v, v ∈ clause.*2 -> 0 < v) ->
  satisfied_count hidden (map cnfformula.signed_literal clause)
  = sample_clauses.number_of_satisfied_literals clause hidden.
Proof.
  unfold satisfied_count, sample_clauses.number_of_satisfied_literals.
  induction clause as [|[truth v] clause IH]; intros Hpos; [done|].
  cbn [map sum_bools]. rewrite literal_holds_signed, IH; [done | |].
  - intros u Hu. apply Hpos. rewrite fmap_cons. apply elem_of_cons. by right.
  - apply Hpos. rewrite fmap_cons. apply elem_of_cons. by left.
Qed.

Lemma satisfied_count_pos (hidden : gmap Z bool) (c : list Z) :
  (0 < satisfied_count hidden c)%nat -> clause_satisfied hidden c = true.
Proof.
  unfold satisfied_count, clause_satisfied.
  induction c as [|l c IH]; simpl; [lia|].
  destruct (literal_holds hidden l); simpl; [done|]. exact IH.
Qed.

Lemma abs_signed_literal (x : bool * Z) :
  Z.abs (cnfformula.signed_literal x) = Z.abs x.2.
Proof. destruct x as [[] v]; simpl; [done | apply Z.abs_opp]. Qed.

Lemma abs_signed_clause (clause : list (bool * Z)) :
  (forall v, v ∈ clause.*2 -> 0 < v) ->
  map Z.abs (map cnfformula.signed_literal clause) = clause.*2.
Proof.
  induction clause as [|x clause IH]; intros Hpos; [done|].
  simpl. rewrite abs_signed_literal, IH.
  - rewrite Z.abs_eq; [done|].
    assert (0 < x.2); [|lia]. apply Hpos. rewrite fmap_cons. apply elem_of_cons. by left.
  - intros u Hu. apply Hpos. rewrite fmap_cons. apply elem_of_cons. by right.
Qed.

(** ** What every returned clause went through *)

Section accepted_clauses.
Context `{PyRandom}.
Import sample_clauses.
Variables (k n m : Z) (hidden : gmap Z bool) (p : list Q)
          (table : gmap (bool * Z) Z).

Lemma sample_clauses_admissible fuel s g variables clauselist g' :
  sample_clauses k n m hidden p table fuel s g
    = Ret (variables, clauselist, g') ->
  Forall (admissible k n hidden p) clauselist.
Proof.
  intros Hs.
  apply (sample_clauses_invariant k n m hidden p table
           (fun st => Forall (admissible k n hidden p) (clauses st))) in Hs
    as (st & HP & _ & <- & _); [done | by constructor |].
  intros st st' HP [Hc _ _ | clause i p_i r h Hshape Hi Hpos Hp Hr0 Hr1 _ _ Hc _ _].
  - by rewrite Hc.
  - rewrite Hc. apply Forall_app. split; [done|].
    constructor; [|constructor]. subst i.
    split; [done|]. split; [done|].
    exists p_i. split; [done|]. by apply (Qle_lt_trans _ r).
Qed.

End accepted_clauses.

Section formula_facts.
Context `{PyRandom}.
Import generator.

(** The clauses of a returned formula are the signed forms of admissible
    clauses, for the hidden solution and the parameters of the run. *)
Lemma main_clauses fuel n m k p s F w cnf w' :
  main fuel (Some n) (Some m) k p s F w = Ret (cnf, w') ->
  exists hiddensol_listint g0 clauselist,
    hidden_solution_list n F (rng_seed (default 42 s))
      = Ret (hiddensol_listint, g0) /\
    Forall (admissible (default 3 k) n (hidden_dict hiddensol_listint)
              (default (replicate (Z.to_nat (default 3 k)) 1%Q) p)) clauselist /\
    cnfformula.clauses cnf = map (map cnfformula.signed_literal) clauselist.
Proof.
  intros (hl & g0 & table & t & g2 & vs & cl & g3 & Hh & _ & Hs & _ & Hc & _)%main_Ret.
  exists hl, g0, cl. split; [done|]. split; [|done].
  by eapply sample_clauses_admissible.
Qed.

Lemma well_shaped_pos k n clause :
  well_shaped k n clause -> forall v, v ∈ clause.*2 -> 0 < v.
Proof. intros (_ & _ & Hr) v Hv%Hr. lia. Qed.

End formula_facts.

(** ** Runs that return *)

Lemma run_returns `{PyRandom} (x : outcome (cnfformula.CNF * generator.world))
    (cnf : cnfformula.CNF) (d : generator.world) :
  fst <$> x = Ret cnf -> x = Ret (cnf, final_world x d).
Proof. destruct x as [[F w]| |]; simpl; [|done|done]. by intros [= ->]. Qed.

Lemma demo_run_returns : fst <$> demo_run = Ret demo_formula.
Proof. vm_compute. reflexivity. Qed.

Lemma demo_run_F_returns : fst <$> demo_run_F = Ret demo_formula_F.
Proof. vm_compute. reflexivity. Qed.

(** ** Properties of the generated formula *)

Section generated_formula.
Context `{PyRandom}.
Import generator.

(** C1 (plantedness): in the formula of every run that returns, each clause
    has a literal that holds under the hidden solution of the run. *)
Theorem planted_solution_satisfies fuel n m k p s F w cnf w' :
  main fuel (Some n) (Some m) k p s F w = Ret (cnf, w') ->
  exists hiddensol_listint g0,
    hidden_solution_list n F (rng_seed (default 42 s))
      = Ret (hiddensol_listint, g0) /\
    forall c, c ∈ cnfformula.clauses cnf ->
      clause_satisfied (hidden_dict hiddensol_listint) c = true.
Proof.
  intros (hl & g0 & cl & Hh & Hadm & Hc)%main_clauses.
  exists hl, g0. split; [done|]. intros c. rewrite Hc.
  intros (clause & -> & Hin)%list_elem_of_fmap.
  rewrite Forall_forall in Hadm. destruct (Hadm clause Hin) as (Hshape & Hpos & _).
  apply satisfied_count_pos. rewrite satisfied_count_signed; [done|].
  by eapply well_shaped_pos.
Qed.

(** C5, as stated, fails in its second half: the tests of [add_clause] do
    not give the shape.  The loop of [main] that inserts the clauses, run on
    the tuples [((True, 1),)] and [((True, 2), (True, -2))] with [n = 3],
    builds the formula [[1], [2, -2]]: two clauses of different widths, the
    second with the variable 2 twice and written from a pair whose variable
    lies outside [1, n]. *)
Lemma add_clause_accepts_other_shapes :
  add_clauses [[(true, 1)]; [(true, 2); (true, -2)]] (cnfformula.init 3) =
    Ret {| cnfformula.clauses := [[1]; [2; -2]]; cnfformula.n := 3;
           cnfformula.header := "Default header" |} /\
  length [1] <> length [2; -2] /\
  ~ NoDup (map Z.abs [2; -2]) /\
  ~ (1 <= -2 <= 3).
Proof.
  split; [reflexivity|]. split; [simpl; lia|]. split; [|lia].
  intros Hnd. apply NoDup_cons in Hnd as [Hnot _]. apply Hnot.
  apply elem_of_cons. by left.
Qed.

(** C5, amended: in the formula of every run that returns, each clause has
    exactly [k] literals, on pairwise distinct variables that lie in [1, n].
    The clauses are those of the sampler, which draws the variables of a
    candidate without replacement from 1..n, and each of them passes the
    tests of [add_clause] when it is inserted.  Those tests are, for a clause
    with positive variables, that no variable is above [n] and none occurs
    twice; the width is not among them. *)
Theorem generated_clause_shape fuel n m k p s F w cnf w' :
  main fuel (Some n) (Some m) k p s F w = Ret (cnf, w') ->
  (forall c, c ∈ cnfformula.clauses cnf ->
     Z.of_nat (length c) = default 3 k /\
     NoDup (map Z.abs c) /\
     forall l, l ∈ c -> 1 <= Z.abs l <= n) /\
  (exists clauselist,
     Forall (well_shaped (default 3 k) n) clauselist /\
     cnfformula.clauses cnf = map (map cnfformula.signed_literal) clauselist /\
     forall clause F0, clause ∈ clauselist -> cnfformula.n F0 = n ->
       cnfformula.add_clause (py_clause clause) F0 =
         (Ret tt,
          {| cnfformula.clauses :=
               cnfformula.clauses F0 ++ [map cnfformula.signed_literal clause];
             cnfformula.n := n; cnfformula.header := cnfformula.header F0 |})) /\
  (forall (clause : list (bool * Z)) (F0 : cnfformula.CNF),
     (forall v, v ∈ clause.*2 -> 0 < v) ->
     (exists F', cnfformula.add_clause (py_clause clause) F0 = (Ret tt, F')) <->
     (forall v, v ∈ clause.*2 -> v <= cnfformula.n F0) /\ NoDup (clause.*2)).
Proof.
  intros (hl & g0 & cl & Hh & Hadm & Hc)%main_clauses.
  rewrite Forall_forall in Hadm.
  split; [|split].
  - intros c. rewrite Hc.
    intros (clause & -> & Hin)%list_elem_of_fmap.
    destruct (Hadm clause Hin) as (Hshape & _).
    pose proof (well_shaped_pos _ _ _ Hshape) as Hpos.
    destruct Hshape as (Hlen & Hnd & Hr).
    rewrite length_map, abs_signed_clause by done.
    split; [done|]. split; [done|].
    intros l (x & -> & Hx)%list_elem_of_fmap.
    rewrite abs_signed_literal.
    assert (x.2 ∈ clause.*2) as Hv by by apply list_elem_of_fmap_2.
    specialize (Hr _ Hv). lia.
  - exists cl. split; [|split; [done|]].
    + apply Forall_forall. intros clause Hin. by destruct (Hadm clause Hin).
    + intros clause F0 Hin <-.
      apply (add_clause_well_shaped (default 3 k)).
      by destruct (Hadm clause Hin).
  - apply add_clause_positive.
Qed.

End generated_formula.

Lemma planted_solution_satisfies_witness :
  exists hiddensol_listint g0,
    generator.hidden_solution_list 3 None (rng_seed 5)
      = Ret (hiddensol_listint, g0) /\
    forall c, c ∈ cnfformula.clauses demo_formula ->
      clause_satisfied (generator.hidden_dict hiddensol_listint) c = true.
Proof.
  apply (planted_solution_satisfies 20 3 3 (Some 2) None (Some 5) None
           demo_world demo_formula (final_world demo_run demo_world)).
  apply (run_returns demo_run). vm_compute. reflexivity.
Defined.

Lemma generated_clause_shape_witness :
  fst <$> demo_run_F = Ret demo_formula_F /\
  (forall c, c ∈ cnfformula.clauses demo_formula_F ->
     Z.of_nat (length c) = 3 /\
     NoDup (map Z.abs c) /\
     forall l, l ∈ c -> 1 <= Z.abs l <= 4) /\
  (exists clauselist,
     Forall (well_shaped 3 4) clauselist /\
     cnfformula.clauses demo_formula_F
     = map (map cnfformula.signed_literal) clauselist /\
     forall clause F0, clause ∈ clauselist -> cnfformula.n F0 = 4 ->
       cnfformula.add_clause (py_clause clause) F0 =
         (Ret tt,
          {| cnfformula.clauses :=
               cnfformula.clauses F0 ++ [map cnfformula.signed_literal clause];
             cnfformula.n := 4; cnfformula.header := cnfformula.header F0 |})) /\
  (forall (clause : list (bool * Z)) (F0 : cnfformula.CNF),
     (forall v, v ∈ clause.*2 -> 0 < v) ->
     (exists F', cnfformula.add_clause (py_clause clause) F0 = (Ret tt, F')) <->
     (forall v, v ∈ clause.*2 -> v <= cnfformula.n F0) /\ NoDup (clause.*2)).
Proof.
  split; [vm_compute; reflexivity|].
  apply (generated_clause_shape 50 4 6 (Some 3) (Some [0%Q; 1%Q; (1 # 2)%Q])
           (Some 7) (Some (generator.Contents [1; -2; 3; -4]))
           demo_world demo_formula_F (final_world demo_run_F demo_world)).
  apply (run_returns demo_run_F). vm_compute. reflexivity.
Defined.

Section acceptance_classes.
Context `{PyRandom}.
Import generator sample_clauses.

(** C6 (classes): a class [i] whose probability [p[i-1]] is 0 has no clause in
    the formula of a run that returns; and in every pass of the sampler a
    candidate of a class whose probability is 1, with a fingerprint that is
    not yet recorded, is appended. *)
Theorem class_probability_zero_one :
  (forall fuel n m k p s F w cnf w',
      main fuel (Some n) (Some m) k p s F w = Ret (cnf, w') ->
      exists hiddensol_listint g0,
        hidden_solution_list n F (rng_seed (default 42 s))
          = Ret (hiddensol_listint, g0) /\
        forall c i p_i,
          c ∈ cnfformula.clauses cnf ->
          (1 <= i)%nat ->
          default (replicate (Z.to_nat (default 3 k)) 1%Q) p !! (i - 1)%nat
            = Some p_i ->
          (p_i == 0)%Q ->
          satisfied_count (hidden_dict hiddensol_listint) c <> i) /\
  (forall k n hidden p table st vars g1 clause g2 p_i hash_value,
      rng_sample (stream st) 1 (n + 1) k = Some (vars, g1) ->
      draw_polarities vars g1 = (clause, g2) ->
      (1 <= number_of_satisfied_literals clause hidden)%nat ->
      p !! (number_of_satisfied_literals clause hidden - 1)%nat = Some p_i ->
      (p_i == 1)%Q ->
      hash_clauses.hash_clause table clause = Ret hash_value ->
      hash_value ∉ clause_hash_set st ->
      exists st',
        sample_iteration k n hidden p table st = Ret st' /\
        clauses st' = clauses st ++ [clause]).
Proof.
  split.
  - intros fuel n m k p s F w cnf w' (hl & g0 & cl & Hh & Hadm & Hc)%main_clauses.
    exists hl, g0. split; [done|]. intros c i p_i. rewrite Hc.
    intros (clause & -> & Hin)%list_elem_of_fmap Hi Hp Hzero.
    rewrite Forall_forall in Hadm.
    destruct (Hadm clause Hin) as (Hshape & Hpos & q & Hq & Hq0).
    rewrite satisfied_count_signed by by eapply well_shaped_pos.
    intros Heq. rewrite Heq, Hp in Hq. injection Hq as <-.
    rewrite Hzero in Hq0. by apply Qlt_irrefl in Hq0.
  - intros k n hidden p table st vars g1 clause g2 p_i hash_value
      Hs Hd Hi Hp Hone Hh Hfresh.
    unfold sample_iteration. rewrite Hs, Hd.
    assert ((0 <? number_of_satisfied_literals clause hidden)%nat = true) as ->
      by by apply Nat.ltb_lt.
    unfold list_getitem. rewrite Hp, bind_Ret_l.
    unfold unfair_coin_flip.
    pose proof (rng_random_unit g2) as [_ Hr1].
    destruct (rng_random g2) as [r g3]. simpl in Hr1.
    assert (Qltb r p_i = true) as -> by (apply Qltb_lt; by rewrite Hone).
    rewrite Hh, bind_Ret_l.
    destruct (decide (hash_value ∈ clause_hash_set st)) as [|_]; [done|].
    destruct (py_max snd clause) as [maxtupel| |] eqn:Hmax.
    + rewrite bind_Ret_l. eauto.
    + destruct clause; [unfold number_of_satisfied_literals in Hi; simpl in Hi; lia | done].
    + destruct clause; done.
Qed.

End acceptance_classes.

Lemma class_probability_zero_one_witness :
  (exists hiddensol_listint g0,
      generator.hidden_solution_list 4 (Some (generator.Contents [1; -2; 3; -4]))
        (rng_seed 7) = Ret (hiddensol_listint, g0) /\
      forall c i p_i,
        c ∈ cnfformula.clauses demo_formula_F ->
        (1 <= i)%nat ->
        [0%Q; 1%Q; (1 # 2)%Q] !! (i - 1)%nat = Some p_i ->
        (p_i == 0)%Q ->
        satisfied_count (generator.hidden_dict hiddensol_listint) c <> i) /\
  (exists st',
      sample_clauses.sample_iteration 2 3 {[1 := true; 2 := false; 3 := true]}
        [0%Q; 1%Q] {[(true, 3) := 10; (true, 1) := 20]}
        (sample_clauses.mkState [] 0 ∅ ∅ (rng_seed 3)) = Ret st' /\
      sample_clauses.clauses st' = [] ++ [[(true, 3); (true, 1)]]).
Proof.
  destruct class_probability_zero_one as [Hzero Hone]. split.
  - apply (Hzero 50%nat 4 6 (Some 3) (Some [0%Q; 1%Q; (1 # 2)%Q])
             (Some 7) (Some (generator.Contents [1; -2; 3; -4]))
             demo_world demo_formula_F (final_world demo_run_F demo_world)).
    apply (run_returns demo_run_F). vm_compute. reflexivity.
  - apply (Hone 2 3 {[1 := true; 2 := false; 3 := true]} [0%Q; 1%Q]
             {[(true, 3) := 10; (true, 1) := 20]}
             (sample_clauses.mkState [] 0 ∅ ∅ (rng_seed 3))
             [3; 1] 1163074432 [(true, 3); (true, 1)] 679304702 1%Q 30).
    + vm_compute. reflexivity.
    + vm_compute. reflexivity.
    + vm_compute. lia.
    + vm_compute. reflexivity.
    + reflexivity.
    + vm_compute. reflexivity.
    + apply not_elem_of_empty.
Defined.

(** ** Coverage and fingerprints *)

Section coverage_and_fingerprints.
Context `{PyRandom}.
Import sample_clauses.
Variables (k n m : Z) (hidden : gmap Z bool) (p : list Q)
          (table : gmap (bool * Z) Z).

(** The returned set holds the variables of the returned clauses. *)
Lemma sample_clauses_variables fuel s g variables clauselist g' :
  sample_clauses k n m hidden p table fuel s g
    = Ret (variables, clauselist, g') ->
  forall v, v ∈ variables <-> exists c, c ∈ clauselist /\ v ∈ c.*2.
Proof.
  intros Hs.
  apply (sample_clauses_invariant k n m hidden p table
           (fun st => forall v, v ∈ variableset st <->
                                exists c, c ∈ clauses st /\ v ∈ c.*2)) in Hs
    as (st & HP & <- & <- & _); [done | |].
  - intros g0 v; simpl. split; [set_solver|].
    intros (c & Hc & _). by apply elem_of_nil in Hc.
  - intros st st' HP [Hc Hv _ | clause i p_i r h _ _ _ _ _ _ _ _ Hc Hv _] v.
    + rewrite Hc, Hv. apply HP.
    + rewrite Hc, Hv, elem_of_union, elem_of_list_to_set, HP. split.
      * intros [(c & Hin & Hvc) | Hvc].
        -- exists c. split; [|done]. apply elem_of_app. by left.
        -- exists clause. split; [|done]. apply elem_of_app. right.
           by apply list_elem_of_singleton.
      * intros (c & [Hin | ->%list_elem_of_singleton]%elem_of_app & Hvc);
          [left; eauto | by right].
Qed.

Lemma sum_map_Permutation {A : Type} (f : A -> outcome Z) (l1 l2 : list A) :
  l1 ≡ₚ l2 ->
  forall acc h, hash_clauses.sum_map f l1 acc = Ret h ->
                hash_clauses.sum_map f l2 acc = Ret h.
Proof.
  induction 1 as [|x l1 l2 _ IH|x y l|l1 l2 l3 _ IH1 _ IH2]; intros acc h; simpl.
  - done.
  - destruct (f x) as [a| |]; simpl; [apply IH | done | done].
  - destruct (f y) as [b| |], (f x) as [a| |]; simpl; try done.
    by replace (acc + a + b) with (acc + b + a) by lia.
  - intros H1. by apply IH2, IH1.
Qed.

(** Equal literal sets, equal fingerprints. *)
Lemma hash_clause_same_literals (c1 c2 : list (bool * Z)) (h1 h2 : Z) :
  NoDup c1 -> NoDup c2 -> (forall x, x ∈ c1 <-> x ∈ c2) ->
  hash_clauses.hash_clause table c1 = Ret h1 ->
  hash_clauses.hash_clause table c2 = Ret h2 ->
  h1 = h2.
Proof.
  intros Hn1 Hn2 Heq H1 H2.
  assert (c1 ≡ₚ c2) as Hperm by by apply NoDup_Permutation.
  apply (sum_map_Permutation _ _ _ Hperm) in H1.
  unfold hash_clauses.hash_clause in H2. congruence.
Qed.

(** The fingerprints of the returned clauses are pairwise different. *)
Lemma sample_clauses_fingerprints fuel s g variables clauselist g' :
  sample_clauses k n m hidden p table fuel s g
    = Ret (variables, clauselist, g') ->
  exists hashes,
    Forall2 (fun c h => hash_clauses.hash_clause table c = Ret h)
      clauselist hashes /\
    NoDup hashes.
Proof.
  intros Hs.
  apply (sample_clauses_invariant k n m hidden p table
           (fun st => exists hashes,
              Forall2 (fun c h => hash_clauses.hash_clause table c = Ret h)
                (clauses st) hashes /\
              NoDup hashes /\
              forall h, h ∈ hashes -> h ∈ clause_hash_set st)) in Hs
    as (st & (hashes & HF & Hnd & _) & _ & <- & _); [by exists hashes | |].
  - intros g0. exists []. simpl. split; [constructor|].
    split; [constructor|]. intros h Hh. by apply elem_of_nil in Hh.
  - intros st st' (hashes & HF & Hnd & Hsub)
      [Hc _ Hh | clause i p_i r h _ _ _ _ _ _ Hhash Hfresh Hc _ Hh].
    + exists hashes. rewrite Hc, Hh. done.
    + exists (hashes ++ [h]). rewrite Hc, Hh. split; [|split].
      * apply Forall2_app; [done|]. by repeat constructor.
      * apply NoDup_app. split; [done|]. split; [|apply NoDup_singleton].
        intros x Hx ->%list_elem_of_singleton. by apply Hfresh, Hsub.
      * intros x [Hx | ->%list_elem_of_singleton]%elem_of_app;
          apply elem_of_union; [left; by apply Hsub | right; set_solver].
Qed.

End coverage_and_fingerprints.

Lemma signed_literal_inj (x y : bool * Z) :
  0 < x.2 -> 0 < y.2 ->
  cnfformula.signed_literal x = cnfformula.signed_literal y -> x = y.
Proof.
  destruct x as [[] u], y as [[] v]; simpl; intros Hu Hv Heq;
    f_equal; try lia; exfalso; lia.
Qed.

Lemma signed_clause_same_literals k n (c1 c2 : list (bool * Z)) :
  well_shaped k n c1 -> well_shaped k n c2 ->
  (forall l, l ∈ map cnfformula.signed_literal c1 <->
             l ∈ map cnfformula.signed_literal c2) ->
  forall x, x ∈ c1 <-> x ∈ c2.
Proof.
  assert (forall c d : list (bool * Z),
             well_shaped k n c -> well_shaped k n d ->
             (forall l, l ∈ map cnfformula.signed_literal c ->
                        l ∈ map cnfformula.signed_literal d) ->
             forall x, x ∈ c -> x ∈ d) as Hhalf.
  { intros c d Hc Hd Hsub x Hx.
    assert (cnfformula.signed_literal x ∈ map cnfformula.signed_literal c)
      as Hl by by apply list_elem_of_fmap_2.
    apply Hsub, list_elem_of_fmap in Hl as (y & Heq & Hy).
    apply signed_literal_inj in Heq as ->; [done | |].
    - apply (well_shaped_pos _ _ _ Hc). by apply list_elem_of_fmap_2.
    - apply (well_shaped_pos _ _ _ Hd). by apply list_elem_of_fmap_2. }
  intros H1 H2 Heq x. split; apply Hhalf; try done; intros l; apply Heq.
Qed.

(** ** The attempts of a run *)

Section attempts.
Context `{PyRandom}.
Import generator.

Lemma add_clauses_well_shaped k n (clauselist : list (list (bool * Z)))
    (F : cnfformula.CNF) :
  Forall (well_shaped k n) clauselist -> cnfformula.n F = n ->
  exists F', add_clauses clauselist F = Ret F'.
Proof.
  intros Hall. revert F.
  induction Hall as [|clause rest Hshape _ IH]; intros F Hn; cbn [add_clauses];
    [eauto|].
  rewrite (add_clause_well_shaped k) by (by rewrite Hn).
  apply IH. done.
Qed.

(** The variables an attempt returns are variables of 1..n. *)
Lemma sample_clauses_within k n m hidden p table fuel s g vs cl g' :
  sample_clauses.sample_clauses k n m hidden p table fuel s g
    = Ret (vs, cl, g') ->
  vs ⊆ list_to_set (seqZ 1 n).
Proof.
  intros Hs.
  pose proof (sample_clauses_admissible _ _ _ _ _ _ _ _ _ _ _ _ Hs) as Hadm.
  pose proof (sample_clauses_variables _ _ _ _ _ _ _ _ _ _ _ _ Hs) as Hvars.
  rewrite Forall_forall in Hadm.
  intros v (c & Hin & Hv)%Hvars.
  destruct (Hadm c Hin) as ((_ & _ & Hr) & _). specialize (Hr v Hv).
  apply elem_of_list_to_set, elem_of_seqZ. lia.
Qed.

Lemma sample_clauses_size_le k n m hidden p table fuel s g vs cl g' :
  0 <= n ->
  sample_clauses.sample_clauses k n m hidden p table fuel s g
    = Ret (vs, cl, g') ->
  Z.of_nat (size vs) <= n.
Proof.
  intros Hn Hsub%sample_clauses_within. apply subseteq_size in Hsub.
  rewrite size_list_to_set in Hsub by apply NoDup_seqZ.
  rewrite length_seqZ in Hsub. lia.
Qed.

Lemma sample_clauses_all_variables k n m hidden p table fuel s g vs cl g' :
  sample_clauses.sample_clauses k n m hidden p table fuel s g
    = Ret (vs, cl, g') ->
  Z.of_nat (size vs) = n ->
  vs = list_to_set (seqZ 1 n).
Proof.
  intros Hsub%sample_clauses_within Hsize.
  apply set_subseteq_size_eq; [done|].
  rewrite size_list_to_set by apply NoDup_seqZ. rewrite length_seqZ. lia.
Qed.

(** What a run that returns went through: the attempts with the seeds
    [s + 1], ..., [s + t - 1], each dropped, and the attempt with seed
    [s + t], whose clauses it returns. *)
Lemma main_attempts fuel n m k p s F w cnf w' :
  main fuel (Some n) (Some m) k p s F w = Ret (cnf, w') ->
  exists t hiddensol_listint g0 table variables clauselist g',
    0 < t /\
    hidden_solution_list n F (rng_seed (default 42 s))
      = Ret (hiddensol_listint, g0) /\
    (forall g,
       sample_clauses.sample_clauses (default 3 k) n m
         (hidden_dict hiddensol_listint)
         (default (replicate (Z.to_nat (default 3 k)) 1%Q) p) table fuel
         (default 42 s + t) g = Ret (variables, clauselist, g')) /\
    Z.of_nat (size variables) = n /\
    cnfformula.clauses cnf = map (map cnfformula.signed_literal) clauselist /\
    forall t', 0 < t' < t ->
      exists vs cl g1,
        (forall g,
           sample_clauses.sample_clauses (default 3 k) n m
             (hidden_dict hiddensol_listint)
             (default (replicate (Z.to_nat (default 3 k)) 1%Q) p) table fuel
             (default 42 s + t') g = Ret (vs, cl, g1)) /\
        Z.of_nat (size vs) <> n.
Proof.
  unfold main. intros ([] & _ & Hm)%bind_Ret.
  apply bind_Ret in Hm as ([hl g0] & Hh & Hm).
  unfold generate in Hm. apply except_ValueError_Ret in Hm.
  apply bind_Ret in Hm as ([table g1] & _ & Hm).
  apply bind_Ret in Hm as ([F' g'] & Hloop & [= <- <-]).
  apply retry_loop_first in Hloop
    as (t & vs & cl & [Ht _] & Hs & Hsize & Hadd & Hbefore).
  apply add_clauses_Ret in Hadd as [Hc _].
  exists t, hl, g0, table, vs, cl, g'. repeat (split; [done|]). exact Hbefore.
Qed.

(** The other way round: when the attempts with the seeds [s + 1], ...,
    [s + t - 1] return variable sets of another size than [n] and the one with
    seed [s + t] returns one of size [n], a run that is given [t] passes
    returns the clauses of that attempt. *)
Lemma main_commits fuel n m k p s F w hiddensol_listint g0 table g1 t g
    variables clauselist g' :
  check_parameters n m (default 3 k)
    (default (replicate (Z.to_nat (default 3 k)) 1%Q) p) = Ret tt ->
  hidden_solution_list n F (rng_seed (default 42 s))
    = Ret (hiddensol_listint, g0) ->
  hash_clauses.init_variable_mapping n 42 g0 (variable_mapping w)
    = Ret (table, g1) ->
  0 < t -> (Z.to_nat t <= fuel)%nat ->
  (forall t', 0 < t' < t ->
     exists vs cl g2,
       sample_clauses.sample_clauses (default 3 k) n m
         (hidden_dict hiddensol_listint)
         (default (replicate (Z.to_nat (default 3 k)) 1%Q) p) table fuel
         (default 42 s + t') g = Ret (vs, cl, g2) /\
       Z.of_nat (size vs) <> n) ->
  sample_clauses.sample_clauses (default 3 k) n m
    (hidden_dict hiddensol_listint)
    (default (replicate (Z.to_nat (default 3 k)) 1%Q) p) table fuel
    (default 42 s + t) g = Ret (variables, clauselist, g') ->
  Z.of_nat (size variables) = n ->
  exists cnf,
    main fuel (Some n) (Some m) k p s F w
    = Ret (cnf, {| random_state := g'; variable_mapping := table |}) /\
    cnfformula.clauses cnf = map (map cnfformula.signed_literal) clauselist /\
    cnfformula.n cnf = n.
Proof.
  intros Hcheck Hh Hinit Ht Hfuel Hdrop Hs Hsize.
  destruct (add_clauses_well_shaped (default 3 k) n clauselist
              (cnfformula.init n)) as [cnf Hadd]; [|done|].
  { apply sample_clauses_admissible in Hs.
    eapply Forall_impl; [exact Hs|]. by intros c [Hc _]. }
  exists cnf. pose proof (add_clauses_Ret _ _ _ Hadd) as [Hc Hn].
  split; [|done].
  unfold main. rewrite Hcheck, bind_Ret_l, Hh, bind_Ret_l.
  unfold generate. cbn [random_state variable_mapping].
  rewrite Hinit, bind_Ret_l.
  rewrite (retry_loop_commits n m (default 3 k)
             (default (replicate (Z.to_nat (default 3 k)) 1%Q) p)
             (default 42 s) (hidden_dict hiddensol_listint) table fuel
             (Z.to_nat (t - 1)) fuel 0 g1 g variables clauselist g' cnf);
    [done | | | done | done | lia].
  - intros j Hj.
    destruct (Hdrop (0 + 1 + Z.of_nat j)) as (vs & cl & g2 & Hs' & Hne); [lia|].
    by exists vs, cl, g2.
  - by replace (0 + 1 + Z.of_nat (Z.to_nat (t - 1))) with t by lia.
Qed.

End attempts.

Section coverage_and_uniqueness.
Context `{PyRandom}.
Import generator.

(** C3 (coverage): in the formula of every run that returns, each variable
    of 1..n is the variable of a literal of some clause.  Such a run went
    through the attempts with the seeds [s + 1], ..., [s + t]: each attempt
    before the last returned fewer than [n] variables and none of its clauses
    is kept; the last returned all of 1..n, and its clauses are the formula.
    In the loop, an attempt made at counter [t] whose variable set has not
    [n] elements is dropped as a whole, and the loop goes on from counter
    [t + 1], with the stream as the attempt left it: the next attempt is made
    with the next seed, [s + (t + 2)], and when its variable set has [n]
    elements the formula is built from its clauses alone. *)
Theorem every_variable_covered :
  (forall fuel n m k p s F w cnf w',
      main fuel (Some n) (Some m) k p s F w = Ret (cnf, w') ->
      forall v, 1 <= v <= n ->
        exists c l, c ∈ cnfformula.clauses cnf /\ l ∈ c /\ Z.abs l = v) /\
  (forall fuel n m k p s F w cnf w',
      main fuel (Some n) (Some m) k p s F w = Ret (cnf, w') ->
      exists t hiddensol_listint g0 table clauselist g',
        0 < t /\
        hidden_solution_list n F (rng_seed (default 42 s))
          = Ret (hiddensol_listint, g0) /\
        (forall g,
           sample_clauses.sample_clauses (default 3 k) n m
             (hidden_dict hiddensol_listint)
             (default (replicate (Z.to_nat (default 3 k)) 1%Q) p) table fuel
             (default 42 s + t) g
           = Ret (list_to_set (seqZ 1 n), clauselist, g')) /\
        cnfformula.clauses cnf
        = map (map cnfformula.signed_literal) clauselist /\
        forall t', 0 < t' < t ->
          exists vs cl g1,
            (forall g,
               sample_clauses.sample_clauses (default 3 k) n m
                 (hidden_dict hiddensol_listint)
                 (default (replicate (Z.to_nat (default 3 k)) 1%Q) p) table
                 fuel (default 42 s + t') g = Ret (vs, cl, g1)) /\
            Z.of_nat (size vs) < n) /\
  (forall n m k p s hidden table fuel attempts t g vs cl g',
      sample_clauses.sample_clauses k n m hidden p table fuel (s + (t + 1)) g
        = Ret (vs, cl, g') ->
      Z.of_nat (size vs) <> n ->
      retry_loop n m k p s hidden table fuel (S attempts) t g
      = retry_loop n m k p s hidden table fuel attempts (t + 1) g' /\
      forall vs2 cl2 g'',
        sample_clauses.sample_clauses k n m hidden p table fuel
          (s + (t + 2)) g' = Ret (vs2, cl2, g'') ->
        Z.of_nat (size vs2) = n ->
        retry_loop n m k p s hidden table fuel (S (S attempts)) t g
        = (F ← add_clauses cl2 (cnfformula.init n); Ret (F, g''))).
Proof.
  split; [|split].
  - intros fuel n m k p s F w cnf w'
      (hl & g0 & table & t & g2 & vs & cl & g3 & _ & _ & Hs & Hsize & Hc & _)%main_Ret.
    pose proof (sample_clauses_variables _ _ _ _ _ _ _ _ _ _ _ _ Hs) as Hvars.
    pose proof (sample_clauses_all_variables _ _ _ _ _ _ _ _ _ _ _ _ Hs Hsize)
      as Hfull.
    intros v Hv.
    assert (v ∈ vs) as (c & Hin & Hvc)%Hvars.
    { rewrite Hfull. apply elem_of_list_to_set, elem_of_seqZ. lia. }
    apply list_elem_of_fmap in Hvc as (x & -> & Hx).
    exists (map cnfformula.signed_literal c), (cnfformula.signed_literal x).
    split; [rewrite Hc; by apply list_elem_of_fmap_2|].
    split; [by apply list_elem_of_fmap_2|].
    rewrite abs_signed_literal.
    pose proof (sample_clauses_admissible _ _ _ _ _ _ _ _ _ _ _ _ Hs) as Hadm.
    rewrite Forall_forall in Hadm.
    destruct (Hadm c Hin) as (Hshape & _).
    assert (0 < x.2); [|lia].
    apply (well_shaped_pos _ _ _ Hshape). by apply list_elem_of_fmap_2.
  - intros fuel n m k p s F w cnf w'
      (t & hl & g0 & table & vs & cl & g' & Ht & Hh & Hs & Hsize & Hc & Hdrop)%main_attempts.
    exists t, hl, g0, table, cl, g'. split; [done|]. split; [done|].
    split; [|split; [done|]].
    + intros g. rewrite (Hs g). do 3 f_equal.
      exact (sample_clauses_all_variables _ _ _ _ _ _ _ _ g _ _ _ (Hs g) Hsize).
    + intros t' Ht'. destruct (Hdrop t' Ht') as (vs' & cl' & g1 & Hs' & Hne).
      exists vs', cl', g1. split; [done|].
      assert (0 <= n) as Hn by lia.
      pose proof (sample_clauses_size_le _ _ _ _ _ _ _ _ _ _ _ _ Hn (Hs' g')).
      lia.
  - intros n m k p s hidden table fuel attempts t g vs cl g' Hs Hne.
    assert ((Z.of_nat (size vs) =? n) = false) as Hsize by lia.
    split.
    + cbn [retry_loop]. by rewrite Hs, bind_Ret_l, Hsize.
    + intros vs2 cl2 g'' Hs2 Hsize2.
      replace (s + (t + 2)) with (s + (t + 1 + 1)) in Hs2 by lia.
      cbn [retry_loop]. rewrite Hs, bind_Ret_l, Hsize. cbn [negb].
      rewrite Hs2, bind_Ret_l.
      by assert ((Z.of_nat (size vs2) =? n) = true) as -> by lia.
Qed.

(** C4 (uniqueness): in the formula of every run that returns, two clauses
    at different positions never have the same set of literals; clauses with
    the same literals have the same fingerprint, and the fingerprints of the
    accepted clauses are pairwise different. *)
Theorem no_two_clauses_alike fuel n m k p s F w cnf w' :
  main fuel (Some n) (Some m) k p s F w = Ret (cnf, w') ->
  forall (i j : nat) (ci cj : list Z),
    cnfformula.clauses cnf !! i = Some ci ->
    cnfformula.clauses cnf !! j = Some cj ->
    i <> j ->
    ~ (forall l, l ∈ ci <-> l ∈ cj).
Proof.
  intros (hl & g0 & table & t & g2 & vs & cl & g3 & _ & _ & Hs & _ & Hc & _)%main_Ret.
  pose proof (sample_clauses_admissible _ _ _ _ _ _ _ _ _ _ _ _ Hs) as Hadm.
  destruct (sample_clauses_fingerprints _ _ _ _ _ _ _ _ _ _ _ _ Hs)
    as (hashes & HF & Hnd).
  rewrite Forall_forall in Hadm.
  intros i j ci cj Hi Hj Hne Hsame. rewrite Hc in Hi, Hj.
  change (map (map cnfformula.signed_literal) cl)
    with (map cnfformula.signed_literal <$> cl) in Hi, Hj.
  rewrite list_lookup_fmap in Hi, Hj.
  destruct (cl !! i) as [ci'|] eqn:Ei; [|done].
  destruct (cl !! j) as [cj'|] eqn:Ej; [|done].
  injection Hi as <-. injection Hj as <-.
  destruct (Forall2_lookup_l _ _ _ _ _ HF Ei) as (hi & Ehi & Hhi).
  destruct (Forall2_lookup_l _ _ _ _ _ HF Ej) as (hj & Ehj & Hhj).
  destruct (Hadm ci') as (Hsi & _); [by eapply list_elem_of_lookup_2|].
  destruct (Hadm cj') as (Hsj & _); [by eapply list_elem_of_lookup_2|].
  assert (hi = hj) as ->.
  { apply (hash_clause_same_literals table ci' cj'); try done.
    - apply (NoDup_fmap_1 snd). apply Hsi.
    - apply (NoDup_fmap_1 snd). apply Hsj.
    - by eapply signed_clause_same_literals. }
  apply Hne. by eapply NoDup_lookup.
Qed.

End coverage_and_uniqueness.

Lemma every_variable_covered_witness :
  fst <$> retry_run = Ret retry_formula /\
  (forall v, 1 <= v <= 3 ->
     exists c l, c ∈ cnfformula.clauses retry_formula /\ l ∈ c /\ Z.abs l = v) /\
  (exists t hiddensol_listint g0 table clauselist g',
     0 < t /\
     generator.hidden_solution_list 3 None (rng_seed 2)
       = Ret (hiddensol_listint, g0) /\
     (forall g,
        sample_clauses.sample_clauses 2 3 2
          (generator.hidden_dict hiddensol_listint) [1%Q; 1%Q] table 20
          (2 + t) g
        = Ret (list_to_set (seqZ 1 3), clauselist, g')) /\
     cnfformula.clauses retry_formula
     = map (map cnfformula.signed_literal) clauselist /\
     forall t', 0 < t' < t ->
       exists vs cl g1,
         (forall g,
            sample_clauses.sample_clauses 2 3 2
              (generator.hidden_dict hiddensol_listint) [1%Q; 1%Q] table 20
              (2 + t') g = Ret (vs, cl, g1)) /\
         Z.of_nat (size vs) < 3) /\
  Z.of_nat (size (retry_attempt 1).1.1) = 2 /\
  generator.retry_loop 3 2 2 [1%Q; 1%Q] 2 retry_hidden retry_table 20 20 0 0
  = generator.retry_loop 3 2 2 [1%Q; 1%Q] 2 retry_hidden retry_table 20 19 1
      (retry_attempt 1).2.
Proof.
  destruct every_variable_covered as (Hcover & Hattempts & Hdrop).
  assert (fst <$> retry_run = Ret retry_formula) as Hrun
    by (vm_compute; reflexivity).
  assert (Z.of_nat (size (retry_attempt 1).1.1) = 2) as Hsize
    by (vm_compute; reflexivity).
  split; [exact Hrun|]. split; [|split; [|split; [exact Hsize|]]].
  - apply (Hcover 20%nat 3 2 (Some 2) None (Some 2) None demo_world
             retry_formula (final_world retry_run demo_world)
             (run_returns retry_run _ _ Hrun)).
  - apply (Hattempts 20%nat 3 2 (Some 2) None (Some 2) None demo_world
             retry_formula (final_world retry_run demo_world)
             (run_returns retry_run _ _ Hrun)).
  - apply (proj1 (Hdrop 3 2 2 [1%Q; 1%Q] 2 retry_hidden retry_table 20%nat
                    19%nat 0 0
                    (retry_attempt 1).1.1 (retry_attempt 1).1.2
                    (retry_attempt 1).2
                    ltac:(rewrite <- !surjective_pairing;
                          apply (returns_Ret (retry_sample 1));
                          vm_compute; reflexivity)
                    ltac:(rewrite Hsize; lia))).
Defined.

Lemma no_two_clauses_alike_witness :
  fst <$> demo_run_F = Ret demo_formula_F /\
  ~ (forall l, l ∈ [2; 3; -4] <-> l ∈ [-4; -1; -2]).
Proof.
  split; [vm_compute; reflexivity|].
  apply (no_two_clauses_alike 50 4 6 (Some 3) (Some [0%Q; 1%Q; (1 # 2)%Q])
           (Some 7) (Some (generator.Contents [1; -2; 3; -4]))
           demo_world demo_formula_F (final_world demo_run_F demo_world)
           (run_returns demo_run_F _ _ demo_run_F_returns) 1%nat 4%nat);
    [reflexivity | reflexivity | lia].
Defined.

(** ** The fingerprint table *)

Section fingerprint_table.
Context `{PyRandom}.
Import hash_clauses.

(** With enough sample values the loop fills the table, and the table then
    has a value for both literals of every variable it went through. *)
Lemma fill_mapping_Ret (sample ls : list Z) (i : nat) (vm : gmap (bool * Z) Z) :
  (i + 2 * length ls <= length sample)%nat ->
  exists table,
    fill_mapping sample ls i vm = Ret table /\
    (forall b v, v ∈ ls -> is_Some (table !! (b, v))) /\
    (forall key, is_Some (vm !! key) -> is_Some (table !! key)).
Proof.
  revert i vm. induction ls as [|l ls IH]; intros i vm Hlen; simpl in *.
  - exists vm. split; [done|]. split; [|done].
    intros b v Hv. by apply elem_of_nil in Hv.
  - destruct (lookup_lt_is_Some_2 sample i) as [a Ha]; [lia|].
    destruct (lookup_lt_is_Some_2 sample (i + 1)) as [b Hb]; [lia|].
    unfold list_getitem. rewrite Ha, Hb. simpl.
    destruct (IH (i + 2)%nat (<[(false, l):=b]> (<[(true, l):=a]> vm)))
      as (table & Hfill & Hnew & Hold); [lia|].
    exists table. split; [done|]. split.
    + intros c v [->|Hv]%elem_of_cons; [|by apply Hnew].
      apply Hold. destruct c.
      * rewrite lookup_insert_ne by done. rewrite lookup_insert_eq. eauto.
      * rewrite lookup_insert_eq. eauto.
    + intros key [x Hx]. apply Hold.
      destruct (decide (key = (false, l))) as [->|]; [rewrite lookup_insert_eq; eauto|].
      rewrite lookup_insert_ne by done.
      destruct (decide (key = (true, l))) as [->|]; [rewrite lookup_insert_eq; eauto|].
      rewrite lookup_insert_ne by done. eauto.
Qed.

(** For [0 <= 2n <= 2^32 - 1] the initialisation returns, and the table
    covers both polarities of the variables 1..n. *)
Lemma init_variable_mapping_Ret (n seed : Z) (g : rng) (vm : gmap (bool * Z) Z) :
  0 <= 2 * n <= 2 ^ 32 - 1 ->
  exists table g',
    init_variable_mapping n seed g vm = Ret (table, g') /\
    forall b v, 1 <= v <= n -> is_Some (table !! (b, v)).
Proof.
  intros Hn. unfold init_variable_mapping.
  destruct (rng_sample g 0 (2 ^ 32 - 1) (2 * n)) as [[sample g']|] eqn:Hs.
  - pose proof (rng_sample_length _ _ _ _ _ _ Hs) as Hlen.
    destruct (fill_mapping_Ret sample (seqZ 1 n) 0 vm)
      as (table & Hfill & Hnew & _); [rewrite length_seqZ; lia|].
    exists table, g'. rewrite Hfill. split; [done|].
    intros b v Hv. apply Hnew, elem_of_seqZ. lia.
  - apply rng_sample_error in Hs. lia.
Qed.

End fingerprint_table.

(** C7: the table is drawn from the stream of the [random] module, the one
    the sampling seed sets, and the [seed] argument has no effect on it: the
    call gives the same result for any two [seed] values, and on the reference
    stream [main(1, 1, k=1, s=1)] and [main(1, 1, k=1, s=2)], which both
    initialise the table with the hasher seed 42, leave different values for
    the literal [(True, 1)]. *)
Theorem init_variable_mapping_ignores_seed :
  (forall (R : PyRandom) (n seed seed' : Z) (g : rng) (vm : gmap (bool * Z) Z),
      hash_clauses.init_variable_mapping n seed g vm
      = hash_clauses.init_variable_mapping n seed' g vm) /\
  table_after (H := lcg_random)
    (generator.main 10 (Some 1) (Some 1) (Some 1) None (Some 1) None demo_world)
    (true, 1) = Some 5758 /\
  table_after (H := lcg_random)
    (generator.main 10 (Some 1) (Some 1) (Some 1) None (Some 2) None demo_world)
    (true, 1) = Some 22817.
Proof.
  split; [reflexivity|]. split; vm_compute; reflexivity.
Qed.

(** ** Progress of the sampler *)

Section sampler_progress.
Context `{PyRandom}.
Import sample_clauses.
Variables (k n : Z) (hidden : gmap Z bool) (p : list Q)
          (table : gmap (bool * Z) Z).

Lemma sum_bools_le (l : list bool) : (sum_bools l <= length l)%nat.
Proof. induction l as [|[] l IH]; simpl; lia. Qed.

Lemma number_of_satisfied_literals_le (clause : list (bool * Z)) :
  (number_of_satisfied_literals clause hidden <= length clause)%nat.
Proof.
  unfold number_of_satisfied_literals; simpl.
  etrans; [apply sum_bools_le|]. by rewrite length_map.
Qed.

Lemma sum_map_getitem_Ret (clause : list (bool * Z)) (acc : Z) :
  (forall x, x ∈ clause -> is_Some (table !! x)) ->
  exists h, hash_clauses.sum_map (getitem table) clause acc = Ret h.
Proof.
  revert acc. induction clause as [|x clause IH]; intros acc Hcov; simpl; [eauto|].
  destruct (Hcov x) as [v Hv]; [apply elem_of_cons; by left|].
  rewrite (proj2 (getitem_Ret table x v) Hv), bind_Ret_l. apply IH.
  intros y Hy. apply Hcov, elem_of_cons. by right.
Qed.

(** With [0 <= k <= n], a probability for every class and a table for the
    literals of 1..n, a pass through the loop body returns. *)
Lemma sample_iteration_returns (st : loop_state) :
  0 <= k <= n ->
  k <= Z.of_nat (length p) ->
  (forall b v, 1 <= v <= n -> is_Some (table !! (b, v))) ->
  exists st', sample_iteration k n hidden p table st = Ret st'.
Proof.
  intros Hk Hp Hcov. unfold sample_iteration.
  destruct (rng_sample (stream st) 1 (n + 1) k) as [[vars g1]|] eqn:Hs;
    [| apply rng_sample_error in Hs; lia].
  pose proof (candidate_well_shaped _ _ _ _ _ Hs) as (Hlen & _ & Hr).
  destruct (draw_polarities vars g1) as [clause g2]. simpl in Hlen, Hr.
  pose proof (number_of_satisfied_literals_le clause) as Hle.
  destruct (0 <? number_of_satisfied_literals clause hidden)%nat eqn:Hi; [|eauto].
  apply Nat.ltb_lt in Hi.
  destruct (lookup_lt_is_Some_2 p (number_of_satisfied_literals clause hidden - 1))
    as [p_i Hpi]; [lia|].
  unfold list_getitem. rewrite Hpi, bind_Ret_l.
  destruct (unfair_coin_flip p_i g2) as [[] g3]; [|eauto].
  destruct (sum_map_getitem_Ret clause 0) as [h Hh].
  { intros [b v] Hx. apply Hcov, Hr. by apply (list_elem_of_fmap_2 snd) in Hx. }
  unfold hash_clauses.hash_clause. rewrite Hh, bind_Ret_l.
  destruct (decide (h ∈ clause_hash_set st)); [eauto|].
  destruct clause as [|x clause]; [simpl in Hle; lia|].
  simpl. eauto.
Qed.

End sampler_progress.

(** ** More clauses requested than exist *)

Section exhaustion.
Context `{PyRandom}.
Import generator sample_clauses.
Variables (hidden : gmap Z bool) (p : list Q) (table : gmap (bool * Z) Z).

(** With one variable and width one, a single clause can be accepted. *)
Lemma unique_candidate (c c' : list (bool * Z)) :
  well_shaped 1 1 c -> (0 < number_of_satisfied_literals c hidden)%nat ->
  well_shaped 1 1 c' -> (0 < number_of_satisfied_literals c' hidden)%nat ->
  c = c'.
Proof.
  intros (Hl & _ & Hr) Hs (Hl' & _ & Hr') Hs'.
  destruct c as [|[b v] [|]]; simpl in Hl; try lia.
  destruct c' as [|[b' v'] [|]]; simpl in Hl'; try lia.
  assert (v = 1) as ->.
  { assert (1 <= v <= 1); [|lia]. apply Hr. rewrite fmap_cons. apply elem_of_cons. by left. }
  assert (v' = 1) as ->.
  { assert (1 <= v' <= 1); [|lia]. apply Hr'. rewrite fmap_cons. apply elem_of_cons. by left. }
  unfold number_of_satisfied_literals in Hs, Hs'. simpl in Hs, Hs'.
  destruct (hidden !! 1) as [h|]; simpl in *; [|lia].
  repeat case_bool_decide; simpl in *; try lia. congruence.
Qed.

Lemma one_clause_at_most_step (st st' : loop_state) :
  one_clause_at_most hidden table st ->
  iteration_result 1 1 hidden p table st st' ->
  one_clause_at_most hidden table st'.
Proof.
  intros [Hlen Hseen]
    [Hc _ Hh | clause i p_i r h Hshape -> Hpos _ _ _ Hhash Hfresh Hc _ Hh].
  - unfold one_clause_at_most. by rewrite Hc, Hh.
  - destruct (clauses st) as [|c0 cs] eqn:Hcs.
    + split; [rewrite Hc; simpl; lia|].
      intros _ c h' Hshape' Hpos' Hhash'.
      rewrite (unique_candidate _ _ Hshape' Hpos' Hshape Hpos), Hhash in Hhash'.
      injection Hhash' as Heq. subst h'. rewrite Hh.
      apply elem_of_union. right. by apply elem_of_singleton.
    + exfalso. apply Hfresh. by apply (Hseen ltac:(done) clause).
Qed.

Lemma sample_loop_never_returns (m : Z) (fuel : nat) (st : loop_state) :
  2 <= m -> (1 <= length p)%nat ->
  (forall b v, 1 <= v <= 1 -> is_Some (table !! (b, v))) ->
  one_clause_at_most hidden table st ->
  sample_loop 1 1 m hidden p table fuel st = OutOfFuel.
Proof.
  intros Hm Hp Hcov. revert st.
  induction fuel as [|fuel IH]; intros st Hinv; simpl;
    assert ((Z.of_nat (length (clauses st)) <? m) = true) as ->
      by (destruct Hinv; lia); [done|].
  destruct (sample_iteration_returns 1 1 hidden p table st) as [st' Hst'];
    [lia | lia | done |].
  rewrite Hst', bind_Ret_l. apply IH.
  apply (one_clause_at_most_step st); [done|].
  by apply sample_iteration_result.
Qed.

End exhaustion.

Section exhaustion_main.
Context `{PyRandom}.
Import generator.

(** C9: for one variable and width one there is a single clause that the
    hidden solution satisfies.  A run that asks for two clauses or more never
    returns and never raises: whatever the fuel, the loop is still running. *)
Theorem more_clauses_than_exist_never_returns
    (fuel : nat) (m : Z) (s : option Z) (w : world) :
  2 <= m ->
  main fuel (Some 1) (Some m) (Some 1) None s None w = OutOfFuel.
Proof.
  intros Hm. unfold main. simpl default.
  assert (check_parameters 1 m 1 [1%Q] = Ret tt) as ->.
  { unfold check_parameters.
    assert ((m <? 0) = false) as -> by lia. reflexivity. }
  rewrite bind_Ret_l. unfold hidden_solution_list. rewrite bind_Ret_l.
  destruct (random_hidden_solution (seqZ 1 1) (rng_seed (default 42 s)))
    as [hl g].
  unfold generate. cbn [random_state variable_mapping].
  destruct (init_variable_mapping_Ret 1 42 g (variable_mapping w))
    as (table & g' & -> & Hcov); [lia|].
  rewrite bind_Ret_l.
  assert (retry_loop 1 m 1 [1%Q] (default 42 s)
            (hidden_dict hl) table fuel fuel 0 g' = OutOfFuel) as ->; [|done].
  generalize 0 g'. generalize fuel at 2.
  intros attempts. induction attempts as [|attempts IH]; intros t g0; simpl; [done|].
  unfold sample_clauses.sample_clauses.
  rewrite sample_loop_never_returns; [done | done | simpl; lia | done |].
  split; simpl; [lia | done].
Qed.

End exhaustion_main.

Lemma more_clauses_than_exist_never_returns_witness :
  2 <= 2 /\
  generator.main 30 (Some 1) (Some 2) (Some 1) None (Some 42) None demo_world
  = OutOfFuel.
Proof.
  split; [lia|].
  apply (more_clauses_than_exist_never_returns 30 2 (Some 42) demo_world). lia.
Defined.

(** ** Reproducibility

    Two things could make two runs differ: what the process holds when
    [main] starts (the state of the [random] module, entries left in
    [variable_mapping] by an earlier call), and how long the run is observed.
    Neither does. *)

Section table_agreement.
Context `{PyRandom}.
Import sample_clauses.

Lemma fill_mapping_agree (sample ls : list Z) (i : nat)
    (vm1 vm2 : gmap (bool * Z) Z) :
  same_up_to
    (fun t1 t2 => forall b v,
         v ∈ ls \/ vm1 !! (b, v) = vm2 !! (b, v) -> t1 !! (b, v) = t2 !! (b, v))
    (hash_clauses.fill_mapping sample ls i vm1)
    (hash_clauses.fill_mapping sample ls i vm2).
Proof.
  revert i vm1 vm2. induction ls as [|l ls IH]; intros i vm1 vm2; simpl.
  - intros b v [Hv|Hv]; [by apply elem_of_nil in Hv | done].
  - destruct (list_getitem sample i) as [a| |]; simpl; try done.
    destruct (list_getitem sample (i + 1)) as [c| |]; simpl; try done.
    specialize (IH (i + 2)%nat (<[(false, l):=c]> (<[(true, l):=a]> vm1))
                  (<[(false, l):=c]> (<[(true, l):=a]> vm2))).
    destruct (hash_clauses.fill_mapping sample ls (i + 2) _) as [t1| |],
             (hash_clauses.fill_mapping sample ls (i + 2) _) as [t2| |];
      simpl in *; try done.
    intros b v Hv. apply IH.
    destruct (decide (v ∈ ls)) as [|Hnot]; [by left | right].
    rewrite !lookup_insert. repeat case_decide; try done.
    destruct Hv as [[->|Hv]%elem_of_cons | Hv]; [|done|done].
    destruct b; congruence.
Qed.

Lemma sum_map_agree (t1 t2 : gmap (bool * Z) Z) (clause : list (bool * Z)) (acc : Z) :
  (forall x, x ∈ clause -> t1 !! x = t2 !! x) ->
  hash_clauses.sum_map (getitem t1) clause acc
  = hash_clauses.sum_map (getitem t2) clause acc.
Proof.
  revert acc. induction clause as [|x clause IH]; intros acc Hag; simpl; [done|].
  assert (getitem t1 x = getitem t2 x) as ->.
  { unfold getitem. rewrite (Hag x); [done|]. apply elem_of_cons. by left. }
  destruct (getitem t2 x); simpl; [|done|done].
  apply IH. intros y Hy. apply Hag, elem_of_cons. by right.
Qed.

Variables (k n m : Z) (hidden : gmap Z bool) (p : list Q)
          (t1 t2 : gmap (bool * Z) Z).
Hypothesis Hagree : agree n t1 t2.

Lemma sample_iteration_agree (st : loop_state) :
  sample_iteration k n hidden p t1 st = sample_iteration k n hidden p t2 st.
Proof.
  unfold sample_iteration.
  destruct (rng_sample (stream st) 1 (n + 1) k) as [[vars g1]|] eqn:Hs; [|done].
  pose proof (candidate_well_shaped _ _ _ _ _ Hs) as (_ & _ & Hr).
  destruct (draw_polarities vars g1) as [clause g2]. simpl in Hr.
  destruct (0 <? number_of_satisfied_literals clause hidden)%nat; [|done].
  destruct (list_getitem p _) as [p_i| |]; simpl; try done.
  destruct (unfair_coin_flip p_i g2) as [[] g3]; [|done].
  unfold hash_clauses.hash_clause. rewrite (sum_map_agree t1 t2); [done|].
  intros [b v] Hx. apply Hagree, Hr. by apply (list_elem_of_fmap_2 snd) in Hx.
Qed.

Lemma sample_loop_agree (fuel : nat) (st : loop_state) :
  sample_loop k n m hidden p t1 fuel st = sample_loop k n m hidden p t2 fuel st.
Proof.
  revert st. induction fuel as [|fuel IH]; intros st; simpl; [done|].
  destruct (Z.of_nat (length (clauses st)) <? m); [|done].
  rewrite sample_iteration_agree.
  destruct (sample_iteration k n hidden p t2 st); simpl; [apply IH | done | done].
Qed.

Lemma sample_clauses_agree (fuel : nat) (s : Z) (g : rng) :
  sample_clauses k n m hidden p t1 fuel s g
  = sample_clauses k n m hidden p t2 fuel s g.
Proof. unfold sample_clauses. by rewrite sample_loop_agree. Qed.

Lemma retry_loop_agree (s : Z) (fuel attempts : nat) (t : Z) (g : rng) :
  generator.retry_loop n m k p s hidden t1 fuel attempts t g
  = generator.retry_loop n m k p s hidden t2 fuel attempts t g.
Proof.
  revert t g. induction attempts as [|attempts IH]; intros t g; simpl; [done|].
  rewrite sample_clauses_agree.
  destruct (sample_clauses k n m hidden p t2 fuel (s + (t + 1)) g)
    as [[[vs cl] g']| |]; simpl; [|done|done].
  destruct (negb _); [apply IH | done].
Qed.

End table_agreement.

Section fuel.
Context `{PyRandom}.
Import sample_clauses.
Variables (k n m : Z) (hidden : gmap Z bool) (p : list Q)
          (table : gmap (bool * Z) Z).

Lemma sum_map_settled {A : Type} (f : A -> outcome Z) (l : list A) (acc : Z) :
  (forall x, f x <> OutOfFuel) -> hash_clauses.sum_map f l acc <> OutOfFuel.
Proof.
  intros Hf. revert acc. induction l as [|x l IH]; intros acc; simpl; [done|].
  specialize (Hf x). destruct (f x); simpl; [apply IH | done | done].
Qed.

Lemma sample_iteration_settled (st : loop_state) :
  sample_iteration k n hidden p table st <> OutOfFuel.
Proof.
  unfold sample_iteration.
  destruct (rng_sample _ _ _ _) as [[vars g1]|]; [|done].
  destruct (draw_polarities vars g1) as [clause g2].
  destruct (0 <? _)%nat; [|done].
  unfold list_getitem. destruct (p !! _); simpl; [|done].
  destruct (unfair_coin_flip _ _) as [[] g3]; [|done].
  pose proof (sum_map_settled (getitem table) clause 0) as Hh.
  unfold hash_clauses.hash_clause.
  destruct (hash_clauses.sum_map (getitem table) clause 0) as [h| |]; simpl;
    [| done | exfalso; apply Hh; [|done]; intros x; unfold getitem;
              by destruct (table !! x)].
  destruct (decide _); [done|]. destruct clause; done.
Qed.

(** A loop that has left, by return or by exception, leaves the same way
    with any larger fuel. *)
Lemma sample_loop_mono (fuel fuel' : nat) (st : loop_state) r :
  sample_loop k n m hidden p table fuel st = r -> r <> OutOfFuel ->
  (fuel <= fuel')%nat ->
  sample_loop k n m hidden p table fuel' st = r.
Proof.
  revert fuel' st. induction fuel as [|fuel IH]; intros fuel' st; simpl.
  - destruct (Z.of_nat (length (clauses st)) <? m) eqn:E; [by intros <-|].
    intros <- _ _. destruct fuel'; simpl; by rewrite E.
  - destruct fuel' as [|fuel']; [lia|]. simpl.
    destruct (Z.of_nat (length (clauses st)) <? m); [|done].
    destruct (sample_iteration k n hidden p table st) as [st1| |]; simpl;
      [|done|done].
    intros Hr Hne Hle. apply IH; [done | done | lia].
Qed.

Lemma sample_clauses_mono (fuel fuel' : nat) (s : Z) (g : rng) r :
  sample_clauses k n m hidden p table fuel s g = r -> r <> OutOfFuel ->
  (fuel <= fuel')%nat ->
  sample_clauses k n m hidden p table fuel' s g = r.
Proof.
  unfold sample_clauses. intros Hr Hne Hle.
  destruct (sample_loop k n m hidden p table fuel _) as [st| |] eqn:Hl;
    simpl in Hr; [| |by subst r];
    by rewrite (sample_loop_mono fuel fuel' _ _ Hl).
Qed.

Lemma retry_loop_mono (s : Z) (fuel fuel' attempts attempts' : nat)
    (t : Z) (g : rng) r :
  generator.retry_loop n m k p s hidden table fuel attempts t g = r ->
  r <> OutOfFuel -> (fuel <= fuel')%nat -> (attempts <= attempts')%nat ->
  generator.retry_loop n m k p s hidden table fuel' attempts' t g = r.
Proof.
  intros Hr Hne Hf. revert attempts' t g Hr.
  induction attempts as [|attempts IH]; intros attempts' t g; simpl;
    [by intros <-|].
  destruct attempts' as [|attempts']; [lia|]. simpl. intros Hr Hle.
  destruct (sample_clauses k n m hidden p table fuel (s + (t + 1)) g)
    as [[[vs cl] g1]| |] eqn:Hs; simpl in Hr; [| |by subst r];
    rewrite (sample_clauses_mono fuel fuel' _ _ _ Hs) by done; simpl; [|done].
  destruct (negb _); [|done]. apply IH; [done | lia].
Qed.

End fuel.

Section reproducibility.
Context `{PyRandom}.
Import generator.

Lemma generate_same_formula fuel n m k p s hidden (w1 w2 : world) :
  random_state w1 = random_state w2 ->
  fst <$> generate fuel n m k p s hidden w1
  = fst <$> generate fuel n m k p s hidden w2.
Proof.
  intros Hg. unfold generate, hash_clauses.init_variable_mapping. rewrite Hg.
  destruct (rng_sample (random_state w2) 0 (2 ^ 32 - 1) (2 * n))
    as [[sample g']|]; [|done].
  pose proof (fill_mapping_agree sample (seqZ 1 n) 0
                (variable_mapping w1) (variable_mapping w2)) as Hfill.
  destruct (hash_clauses.fill_mapping sample (seqZ 1 n) 0 (variable_mapping w1))
    as [t1| |],
    (hash_clauses.fill_mapping sample (seqZ 1 n) 0 (variable_mapping w2))
    as [t2| |]; simpl in Hfill; try done; [|by subst].
  rewrite !bind_Ret_l.
  rewrite (retry_loop_agree k n m hidden p t1 t2).
  - by destruct (retry_loop n m k p s hidden t2 fuel fuel 0 g') as [[F g1]|[]|].
  - intros b v Hv. apply Hfill. left. apply elem_of_seqZ. lia.
Qed.

Lemma main_same_formula fuel n m k p s F (w1 w2 : world) :
  fst <$> main fuel n m k p s F w1 = fst <$> main fuel n m k p s F w2.
Proof.
  unfold main. destruct n as [n|]; [|done]. destruct m as [m|]; [|done].
  destruct (check_parameters _ _ _ _) as [[]| |]; [|done|done].
  rewrite !bind_Ret_l.
  destruct (hidden_solution_list _ _ _) as [[hl g]| |]; [|done|done].
  rewrite !bind_Ret_l. by apply generate_same_formula.
Qed.

Lemma generate_mono fuel fuel' n m k p s hidden w r :
  generate fuel n m k p s hidden w = Ret r -> (fuel <= fuel')%nat ->
  generate fuel' n m k p s hidden w = Ret r.
Proof.
  unfold generate. intros Hg%except_ValueError_Ret Hle.
  apply bind_Ret in Hg as ([table g] & -> & Hg). rewrite bind_Ret_l.
  apply bind_Ret in Hg as ([F g'] & Hloop & <-).
  by rewrite (retry_loop_mono _ _ _ _ _ _ _ fuel fuel' fuel fuel' _ _ _ Hloop).
Qed.

Lemma main_mono fuel fuel' n m k p s F w r :
  main fuel n m k p s F w = Ret r -> (fuel <= fuel')%nat ->
  main fuel' n m k p s F w = Ret r.
Proof.
  unfold main. destruct n as [n|]; [|done]. destruct m as [m|]; [|done].
  destruct (check_parameters _ _ _ _) as [[]| |]; [|done|done].
  rewrite !bind_Ret_l.
  destruct (hidden_solution_list _ _ _) as [[hl g]| |]; [|done|done].
  rewrite !bind_Ret_l. apply generate_mono.
Qed.

(** C2 (determinism): the formula of a run is a function of the arguments
    of [main].  With the same fuel the outcomes of two runs agree whatever
    the process held at the start; two runs that return, however long they
    took, return the same formula, and the same text is written for it under
    any header.  The seed of attempt [t] is [s + t]: a run that returns has
    made the attempts 1, ..., [t], each of them the sampler's run for the seed
    [s + t'] whatever the state of the stream when it is called, and returns
    the clauses of the last; and the other way round, when the sampler's runs
    for the seeds [s + 1], ..., [s + t - 1] return variable sets of another
    size than [n] and its run for [s + t] returns one of size [n], a run that
    is given [t] passes returns the clauses of that run. *)
Theorem main_reproducible :
  (forall fuel n m k p s F (w1 w2 : world),
      fst <$> main fuel n m k p s F w1 = fst <$> main fuel n m k p s F w2) /\
  (forall fuel1 fuel2 n m k p s F (w1 w2 w1' w2' : world) cnf1 cnf2,
      main fuel1 n m k p s F w1 = Ret (cnf1, w1') ->
      main fuel2 n m k p s F w2 = Ret (cnf2, w2') ->
      cnf1 = cnf2 /\
      forall h,
        cnfformula.dimacs
          {| cnfformula.clauses := cnfformula.clauses cnf1;
             cnfformula.n := cnfformula.n cnf1; cnfformula.header := h |}
        = cnfformula.dimacs
            {| cnfformula.clauses := cnfformula.clauses cnf2;
               cnfformula.n := cnfformula.n cnf2; cnfformula.header := h |}) /\
  (forall fuel n m k p s F (w w' : world) cnf,
      main fuel (Some n) (Some m) k p s F w = Ret (cnf, w') ->
      exists t hiddensol_listint g0 table,
        0 < t /\
        hidden_solution_list n F (rng_seed (default 42 s))
          = Ret (hiddensol_listint, g0) /\
        forall t', 0 < t' <= t ->
          exists variables clauselist g',
            (forall g,
               sample_clauses.sample_clauses (default 3 k) n m
                 (hidden_dict hiddensol_listint)
                 (default (replicate (Z.to_nat (default 3 k)) 1%Q) p) table
                 fuel (default 42 s + t') g
               = Ret (variables, clauselist, g')) /\
            (t' = t ->
             cnfformula.clauses cnf
             = map (map cnfformula.signed_literal) clauselist)) /\
  (forall fuel n m k p s F (w : world) hiddensol_listint g0 table g1 t g
          variables clauselist g',
      check_parameters n m (default 3 k)
        (default (replicate (Z.to_nat (default 3 k)) 1%Q) p) = Ret tt ->
      hidden_solution_list n F (rng_seed (default 42 s))
        = Ret (hiddensol_listint, g0) ->
      hash_clauses.init_variable_mapping n 42 g0 (variable_mapping w)
        = Ret (table, g1) ->
      0 < t -> (Z.to_nat t <= fuel)%nat ->
      (forall t', 0 < t' < t ->
         exists vs cl g2,
           sample_clauses.sample_clauses (default 3 k) n m
             (hidden_dict hiddensol_listint)
             (default (replicate (Z.to_nat (default 3 k)) 1%Q) p) table fuel
             (default 42 s + t') g = Ret (vs, cl, g2) /\
           Z.of_nat (size vs) <> n) ->
      sample_clauses.sample_clauses (default 3 k) n m
        (hidden_dict hiddensol_listint)
        (default (replicate (Z.to_nat (default 3 k)) 1%Q) p) table fuel
        (default 42 s + t) g = Ret (variables, clauselist, g') ->
      Z.of_nat (size variables) = n ->
      exists cnf,
        main fuel (Some n) (Some m) k p s F w
        = Ret (cnf, {| random_state := g'; variable_mapping := table |}) /\
        cnfformula.clauses cnf
        = map (map cnfformula.signed_literal) clauselist /\
        cnfformula.n cnf = n).
Proof.
  split; [|split; [|split]].
  - apply main_same_formula.
  - intros fuel1 fuel2 n m k p s F w1 w2 w1' w2' cnf1 cnf2 H1 H2.
    apply (main_mono _ (Nat.max fuel1 fuel2)) in H1; [|lia].
    apply (main_mono _ (Nat.max fuel1 fuel2)) in H2; [|lia].
    pose proof (main_same_formula (Nat.max fuel1 fuel2) n m k p s F w1 w2) as Heq.
    rewrite H1, H2 in Heq. injection Heq as ->. done.
  - intros fuel n m k p s F w w' cnf
      (t & hl & g0 & table & vs & cl & g' & Ht & Hh & Hs & _ & Hc & Hdrop)%main_attempts.
    exists t, hl, g0, table. split; [done|]. split; [done|].
    intros t' Ht'. destruct (decide (t' = t)) as [->|Hne].
    + by exists vs, cl, g'.
    + destruct (Hdrop t') as (vs' & cl' & g1 & Hs' & _); [lia|].
      exists vs', cl', g1. split; [done|]. intros Heq. by destruct Hne.
  - intros fuel n m k p s F w hl g0 table g1 t g vs cl g'.
    apply main_commits.
Qed.

End reproducibility.

Lemma run_returns_formula `{PyRandom}
    (x : outcome (cnfformula.CNF * generator.world))
    (cnf : cnfformula.CNF) (d : generator.world) :
  fst <$> x = Ret cnf -> x = Ret (formula_of x, final_world x d).
Proof. by destruct x as [[F w]| |]. Qed.

Lemma main_reproducible_witness :
  fst <$> retry_run = Ret retry_formula /\
  fst <$> generator.main 20 (Some 3) (Some 2) (Some 2) None (Some 2) None used_world
    = Ret retry_formula /\
  retry_formula = formula_of retry_run_again /\
  (exists t hiddensol_listint g0 table,
     0 < t /\
     generator.hidden_solution_list 3 None (rng_seed 2)
       = Ret (hiddensol_listint, g0) /\
     forall t', 0 < t' <= t ->
       exists variables clauselist g',
         (forall g,
            sample_clauses.sample_clauses 2 3 2
              (generator.hidden_dict hiddensol_listint) [1%Q; 1%Q] table 20
              (2 + t') g
            = Ret (variables, clauselist, g')) /\
         (t' = t ->
          cnfformula.clauses retry_formula
          = map (map cnfformula.signed_literal) clauselist)) /\
  Z.of_nat (size (retry_attempt 1).1.1) <> 3 /\
  Z.of_nat (size (retry_attempt 2).1.1) <> 3 /\
  Z.of_nat (size (retry_attempt 3).1.1) = 3 /\
  exists cnf,
    generator.main 20 (Some 3) (Some 2) (Some 2) None (Some 2) None demo_world
    = Ret (cnf, {| generator.random_state := (retry_attempt 3).2;
                   generator.variable_mapping := retry_table |}) /\
    cnfformula.clauses cnf
    = map (map cnfformula.signed_literal) (retry_attempt 3).1.2 /\
    cnfformula.n cnf = 3.
Proof.
  destruct main_reproducible as (Hsame & Hruns & Hseed & Hcommit).
  assert (fst <$> retry_run = Ret retry_formula) as Hrun
    by (vm_compute; reflexivity).
  assert (fst <$> retry_run_again = Ret retry_formula) as Hagain
    by (vm_compute; reflexivity).
  assert (Z.of_nat (size (retry_attempt 1).1.1) <> 3) as H1
    by (vm_compute; discriminate).
  assert (Z.of_nat (size (retry_attempt 2).1.1) <> 3) as H2
    by (vm_compute; discriminate).
  assert (Z.of_nat (size (retry_attempt 3).1.1) = 3) as H3
    by (vm_compute; reflexivity).
  assert (forall t, returns (retry_sample t) = true ->
            retry_sample t
            = Ret ((retry_attempt t).1.1, (retry_attempt t).1.2, (retry_attempt t).2))
    as Hret.
  { intros t Hr. rewrite <- !surjective_pairing. by apply returns_Ret. }
  split; [exact Hrun|]. split; [|split; [|split]].
  - rewrite (Hsame 20%nat (Some 3) (Some 2) (Some 2) None (Some 2) None
               used_world demo_world).
    exact Hrun.
  - apply (Hruns 20%nat 40%nat (Some 3) (Some 2) (Some 2) None (Some 2) None
             demo_world used_world
             (final_world retry_run demo_world)
             (final_world retry_run_again demo_world)
             retry_formula (formula_of retry_run_again)
             (run_returns retry_run _ _ Hrun)
             (run_returns_formula retry_run_again _ _ Hagain)).
  - apply (Hseed 20%nat 3 2 (Some 2) None (Some 2) None demo_world
             (final_world retry_run demo_world) retry_formula
             (run_returns retry_run _ _ Hrun)).
  - do 3 (split; [done|]).
    apply (Hcommit 20%nat 3 2 (Some 2) None (Some 2) None demo_world
             [1; -2; -3] 671064393 retry_table (returned_or (∅, 0) retry_init).2
             3 0 (retry_attempt 3).1.1 (retry_attempt 3).1.2 (retry_attempt 3).2).
    + vm_compute. reflexivity.
    + vm_compute. reflexivity.
    + apply (returns_pair retry_init). vm_compute. reflexivity.
    + lia.
    + vm_compute. lia.
    + intros t' Ht'. assert (t' = 1 \/ t' = 2) as [-> | ->] by lia.
      * exists (retry_attempt 1).1.1, (retry_attempt 1).1.2, (retry_attempt 1).2.
        split; [apply (Hret 1); vm_compute; reflexivity | exact H1].
      * exists (retry_attempt 2).1.1, (retry_attempt 2).1.2, (retry_attempt 2).2.
        split; [apply (Hret 2); vm_compute; reflexivity | exact H2].
    + apply (Hret 3). vm_compute. reflexivity.
    + exact H3.
Defined.

(** * Further properties of the code *)

(** ** The formula builder, continued *)

Section builder_more.
Import cnfformula.

(** X1: a tuple of typed pairs is appended exactly when every variable is at
    most [n] and not 0, and no variable is written twice. *)
Theorem add_clause_accepts_iff (clause : list (bool * Z)) (F : CNF) :
  (exists F', add_clause (py_clause clause) F = (Ret tt, F')) <->
  (forall v, v ∈ clause.*2 -> v <= n F /\ v <> 0) /\ NoDup (clause.*2).
Proof.
  rewrite add_clause_typed.
  destruct (existsb _ clause) eqn:Hrange.
  - apply range_test_true in Hrange as (truth & v & Hin & Hv).
    split; [by intros [F' ?]|]. intros [Hall _]. exfalso.
    destruct (Hall v); [|lia]. apply list_elem_of_fmap. by exists (truth, v).
  - assert (forall v, v ∈ clause.*2 -> v <= n F /\ v <> 0) as Hall.
    { intros v ([truth v'] & -> & Hin)%list_elem_of_fmap. simpl.
      destruct (decide (v' <= n F /\ v' <> 0)) as [|Hbad]; [done|].
      apply not_true_iff_false in Hrange. exfalso. apply Hrange.
      apply range_test_true. exists truth, v'. split; [done | lia]. }
    destruct (size (list_to_set (clause.*2)) =? length clause)%nat eqn:Hsize;
      simpl.
    + split; [|eauto]. intros _. split; [done|].
      apply size_list_to_set_length. apply Nat.eqb_eq in Hsize.
      by rewrite length_fmap.
    + split; [by intros [F' ?]|]. intros [_ Hnd].
      apply size_list_to_set_length in Hnd. rewrite length_fmap in Hnd.
      apply Nat.eqb_neq in Hsize. done.
Qed.

(** X2: the type test comes first: a pair whose first component is not a
    [bool] or whose second is not an [int] (a [bool] is not one) gives a
    [TypeError], whatever else is wrong with the clause, and the formula stays
    as it was; with every pair typed there is no [TypeError]. *)
Theorem add_clause_type_error_iff (clause : list (pyval * pyval)) (F : CNF) :
  add_clause (Sequence clause) F
  = (Raise (TypeError "All literals have to be integers."), F)
  <-> exists x, x ∈ clause /\ typed_literal x = None.
Proof.
  rewrite add_clause_Sequence, <- Exists_exists, <- mapM_None.
  destruct (mapM typed_literal clause) as [cl|]; [|done].
  split; [|done]. repeat case_match; congruence.
Qed.

(** X3: the test for repeated variables compares the integers as written: for
    a variable [v] of 1..n the pairs [(True, v), (True, -v)] are appended as
    the clause [[v, -v]], which has a literal and its negation, and the pairs
    [(True, v), (False, -v)] as [[v, v]], which has a literal twice. *)
Theorem add_clause_accepts_complementary (F : CNF) (v : Z) :
  1 <= v <= n F ->
  add_clause (py_clause [(true, v); (true, - v)]) F =
    (Ret tt, {| clauses := clauses F ++ [[v; - v]];
                n := n F; header := header F |}) /\
  add_clause (py_clause [(true, v); (false, - v)]) F =
    (Ret tt, {| clauses := clauses F ++ [[v; v]];
                n := n F; header := header F |}).
Proof.
  intros Hv.
  assert (forall b, existsb (fun '(_, lit) => (n F <? lit) || (lit =? 0))
                      [(true, v); (b, - v)] = false) as Hrange.
  { intros b. simpl. repeat (apply orb_false_iff; split); lia. }
  assert (forall b, (size (list_to_set (C := gset Z) ([(true, v); (b, - v)].*2))
                     =? length [(true, v); (b, - v)])%nat = true) as Hsize.
  { intros b. apply Nat.eqb_eq. rewrite <- (length_fmap snd).
    apply size_list_to_set_length. simpl.
    repeat constructor; rewrite ?elem_of_cons, ?elem_of_nil; lia. }
  rewrite !add_clause_typed, !Hrange, !Hsize. simpl.
  by rewrite Z.opp_involutive.
Qed.

Lemma add_clause_accepts_complementary_witness :
  1 <= 2 <= 3 /\
  add_clause (py_clause [(true, 2); (true, -2)]) (init 3) =
    (Ret tt, {| clauses := [[2; -2]]; n := 3; header := "Default header" |}) /\
  add_clause (py_clause [(true, 2); (false, -2)]) (init 3) =
    (Ret tt, {| clauses := [[2; 2]]; n := 3; header := "Default header" |}).
Proof.
  split; [lia|]. apply (add_clause_accepts_complementary (init 3) 2). simpl. lia.
Defined.

(** X4: a pair with a positive variable can be read back from the literal
    that is stored, [(l > 0, abs(l))]; a pair with a negative variable is
    stored as the literal of the opposite polarity on the positive one. *)
Theorem signed_literal_read_back (truth : bool) (v : Z) :
  (0 < v ->
   (0 <? signed_literal (truth, v), Z.abs (signed_literal (truth, v)))
   = (truth, v)) /\
  signed_literal (truth, - v) = signed_literal (negb truth, v).
Proof.
  split.
  - intros Hv. destruct truth; simpl; f_equal; lia.
  - destruct truth; simpl; lia.
Qed.

End builder_more.

(** ** The fingerprint table, continued *)

Section table_more.
Context `{PyRandom}.
Import hash_clauses.

(** Where the loop puts the sample: the variable at position [j] gets the
    values at [i + 2j] and [i + 2j + 1]; other variables keep their entries. *)
Lemma fill_mapping_lookup (sample ls : list Z) (i : nat)
    (vm table : gmap (bool * Z) Z) :
  NoDup ls ->
  fill_mapping sample ls i vm = Ret table ->
  (forall (j : nat) (l : Z), ls !! j = Some l ->
     table !! (true, l) = sample !! (i + 2 * j)%nat /\
     is_Some (sample !! (i + 2 * j)%nat) /\
     table !! (false, l) = sample !! (i + 2 * j + 1)%nat /\
     is_Some (sample !! (i + 2 * j + 1)%nat)) /\
  (forall key, key.2 ∉ ls -> table !! key = vm !! key).
Proof.
  revert i vm. induction ls as [|l ls IH]; intros i vm Hnd; cbn [fill_mapping].
  - intros [= <-]. split; [|done]. intros j l Hj. by destruct j.
  - apply NoDup_cons in Hnd as [Hl Hnd].
    intros (a & Ha%list_getitem_Ret & Hrest)%bind_Ret.
    apply bind_Ret in Hrest as (b & Hb%list_getitem_Ret & Hfill).
    destruct (IH _ _ Hnd Hfill) as [Hnew Hold]. split.
    + intros [|j] l' Hj; simpl in Hj.
      * injection Hj as <-.
        rewrite (Hold (true, l)), (Hold (false, l)) by done.
        replace (i + 2 * 0)%nat with i by lia. rewrite Ha, Hb.
        rewrite lookup_insert_eq, lookup_insert_ne, lookup_insert_eq by done.
        eauto.
      * replace (i + 2 * S j)%nat with (i + 2 + 2 * j)%nat by lia.
        by apply Hnew.
    + intros [c v] Hkey. simpl in Hkey. apply not_elem_of_cons in Hkey as [Hv Hkey].
      rewrite (Hold (c, v)) by done.
      rewrite !lookup_insert_ne by congruence. done.
Qed.

(** X5: the call raises the [ValueError] of [random.sample] exactly when
    [n] is negative or [2n] exceeds the [2^32 - 1] values of the range, and
    returns exactly when [0 <= 2n <= 2^32 - 1]. *)
Theorem init_variable_mapping_outcome (n seed : Z) (g : rng)
    (vm : gmap (bool * Z) Z) :
  (init_variable_mapping n seed g vm
   = Raise (ValueError "Sample larger than population or is negative")
   <-> n < 0 \/ 2 ^ 32 - 1 < 2 * n) /\
  ((exists table g', init_variable_mapping n seed g vm = Ret (table, g'))
   <-> 0 <= 2 * n <= 2 ^ 32 - 1).
Proof.
  destruct (decide (0 <= 2 * n <= 2 ^ 32 - 1)) as [Hn|Hn].
  - destruct (init_variable_mapping_Ret n seed g vm Hn) as (table & g' & Hinit & _).
    rewrite Hinit. split; split; try done; [lia | eauto].
  - assert (rng_sample g 0 (2 ^ 32 - 1) (2 * n) = None) as Hs
      by (apply rng_sample_error; lia).
    unfold init_variable_mapping. rewrite Hs.
    split; split; try done; [lia | by intros (? & ? & ?)].
Qed.

(** X6: after a successful call the literals of the variables 1..n have
    pairwise different values, all in [0, 2^32 - 2]. *)
Theorem init_variable_mapping_injective (n seed : Z) (g g' : rng)
    (vm table : gmap (bool * Z) Z) :
  init_variable_mapping n seed g vm = Ret (table, g') ->
  (forall b v, 1 <= v <= n ->
     exists h, table !! (b, v) = Some h /\ 0 <= h < 2 ^ 32 - 1) /\
  (forall b1 v1 b2 v2, 1 <= v1 <= n -> 1 <= v2 <= n ->
     table !! (b1, v1) = table !! (b2, v2) -> (b1, v1) = (b2, v2)).
Proof.
  unfold init_variable_mapping.
  destruct (rng_sample g 0 (2 ^ 32 - 1) (2 * n)) as [[sample g1]|] eqn:Hs; [|done].
  intros (t & Hfill & [= <- <-])%bind_Ret.
  destruct (fill_mapping_lookup _ _ _ _ _ (NoDup_seqZ 1 n) Hfill) as [Hnew _].
  assert (forall b v, 1 <= v <= n ->
            let j := (0 + 2 * Z.to_nat (v - 1) + Nat.b2n (negb b))%nat in
            t !! (b, v) = sample !! j /\ is_Some (sample !! j)) as Hat.
  { intros b v Hv.
    destruct (Hnew (Z.to_nat (v - 1)) v) as (H1 & H2 & H3 & H4).
    { apply lookup_seqZ. lia. }
    destruct b; simpl; [by rewrite Nat.add_0_r|done]. }
  split.
  - intros b v Hv. destruct (Hat b v Hv) as [Heq [h Hh]].
    exists h. split; [congruence|].
    pose proof (rng_sample_range _ _ _ _ _ _ Hs h) as Hr.
    apply Hr. by eapply list_elem_of_lookup_2.
  - intros b1 v1 b2 v2 Hv1 Hv2 Heq.
    destruct (Hat b1 v1 Hv1) as [E1 [h Hh]], (Hat b2 v2 Hv2) as [E2 _].
    simpl in *. rewrite E1, E2, Hh in Heq. symmetry in Heq.
    pose proof (NoDup_lookup _ _ _ _ (rng_sample_NoDup _ _ _ _ _ _ Hs) Hh Heq)
      as Hidx.
    destruct b1, b2; simpl in Hidx; f_equal; try lia; exfalso; lia.
Qed.

(** X7: the dictionary is not cleared: the entries of every variable outside
    1..n are after the call what they were before it. *)
Theorem init_variable_mapping_keeps_others (n seed : Z) (g g' : rng)
    (vm table : gmap (bool * Z) Z) :
  init_variable_mapping n seed g vm = Ret (table, g') ->
  forall b v, ~ (1 <= v <= n) -> table !! (b, v) = vm !! (b, v).
Proof.
  unfold init_variable_mapping.
  destruct (rng_sample g 0 (2 ^ 32 - 1) (2 * n)) as [[sample g1]|] eqn:Hs; [|done].
  intros (t & Hfill & [= <- <-])%bind_Ret b v Hv.
  destruct (fill_mapping_lookup _ _ _ _ _ (NoDup_seqZ 1 n) Hfill) as [_ Hold].
  apply (Hold (b, v)). simpl. rewrite elem_of_seqZ. lia.
Qed.

End table_more.

(** What a run returned, for the examples. *)
(** [init_variable_mapping(2)] after [random.seed(1)], and the same call in a
    process whose dictionary has an entry for variable 9. *)
Definition demo_init : outcome (gmap (bool * Z) Z * Z) :=
  hash_clauses.init_variable_mapping (H := lcg_random) 2 42 (lcg.seed 1) ∅.

Definition demo_init_again : outcome (gmap (bool * Z) Z * Z) :=
  hash_clauses.init_variable_mapping (H := lcg_random) 2 42 (lcg.seed 1)
    {[(true, 1) := 7; (false, 9) := 3]}.

Lemma init_variable_mapping_injective_witness :
  returns demo_init = true /\
  (forall b v, 1 <= v <= 2 ->
     exists h, (returned_or (∅, 0) demo_init).1 !! (b, v) = Some h /\
               0 <= h < 2 ^ 32 - 1) /\
  (forall b1 v1 b2 v2, 1 <= v1 <= 2 -> 1 <= v2 <= 2 ->
     (returned_or (∅, 0) demo_init).1 !! (b1, v1)
     = (returned_or (∅, 0) demo_init).1 !! (b2, v2) -> (b1, v1) = (b2, v2)).
Proof.
  assert (returns demo_init = true) as Hr by (vm_compute; reflexivity).
  split; [exact Hr|].
  exact (init_variable_mapping_injective (H := lcg_random) 2 42 (lcg.seed 1) _ ∅ _
           (returns_pair demo_init (∅, 0) Hr)).
Defined.

Lemma init_variable_mapping_keeps_others_witness :
  returns demo_init_again = true /\
  forall b v, ~ (1 <= v <= 2) ->
    (returned_or (∅, 0) demo_init_again).1 !! (b, v)
    = ({[(true, 1) := 7; (false, 9) := 3]} : gmap (bool * Z) Z) !! (b, v).
Proof.
  assert (returns demo_init_again = true) as Hr by (vm_compute; reflexivity).
  split; [exact Hr|].
  exact (init_variable_mapping_keeps_others (H := lcg_random) 2 42 (lcg.seed 1) _ _ _
           (returns_pair demo_init_again (∅, 0) Hr)).
Defined.

Section fingerprint_more.
Context `{PyRandom}.
Import hash_clauses.
Variable (table : gmap (bool * Z) Z).

Lemma sum_map_shift {A : Type} (f : A -> outcome Z) (l : list A) (a b : Z) :
  sum_map f l (a + b) = (fun h => a + h) <$> sum_map f l b.
Proof.
  revert b. induction l as [|x l IH]; intros b; simpl; [done|].
  destruct (f x) as [v| |]; simpl; [|done|done].
  rewrite <- Z.add_assoc. apply IH.
Qed.

Lemma sum_map_app {A : Type} (f : A -> outcome Z) (l1 l2 : list A) (acc : Z) :
  sum_map f (l1 ++ l2) acc = (h1 ← sum_map f l1 acc; sum_map f l2 h1).
Proof.
  revert acc. induction l1 as [|x l1 IH]; intros acc; simpl; [done|].
  destruct (f x) as [v| |]; simpl; [apply IH | done | done].
Qed.

Lemma sum_map_getitem_cases (clause : list (bool * Z)) (acc : Z) :
  (exists h, sum_map (getitem table) clause acc = Ret h /\
             forall x, x ∈ clause -> is_Some (table !! x)) \/
  (sum_map (getitem table) clause acc = Raise KeyError /\
   exists x, x ∈ clause /\ table !! x = None).
Proof.
  revert acc. induction clause as [|x clause IH]; intros acc; simpl.
  - left. exists acc. split; [done|]. intros x Hx. by apply elem_of_nil in Hx.
  - destruct (table !! x) as [v|] eqn:Hx;
      [rewrite (proj2 (getitem_Ret table x v) Hx), bind_Ret_l
      |assert (getitem table x = Raise KeyError) as ->
         by (unfold getitem; by rewrite Hx)].
    + destruct (IH (acc + v)) as [(h & Hh & Hall) | (Hh & y & Hy & Hnone)].
      * left. exists h. split; [done|].
        intros y [->|Hy]%elem_of_cons; [eauto | by apply Hall].
      * right. split; [done|]. exists y. split; [|done].
        apply elem_of_cons. by right.
    + right. split; [done|]. exists x. split; [|done]. apply elem_of_cons. by left.
Qed.

(** X8: a literal without an entry in the table makes [hash_clause] raise
    [KeyError]; it returns exactly when every literal of the clause has an
    entry, and has no other outcome. *)
Theorem hash_clause_KeyError_iff (clause : list (bool * Z)) :
  (hash_clause table clause = Raise KeyError
   <-> exists x, x ∈ clause /\ table !! x = None) /\
  ((exists h, hash_clause table clause = Ret h)
   <-> forall x, x ∈ clause -> is_Some (table !! x)).
Proof.
  unfold hash_clause.
  destruct (sum_map_getitem_cases clause 0)
    as [(h & Hh & Hall) | (Hh & y & Hy & Hnone)]; rewrite Hh.
  - split; split; try done; [|eauto].
    intros (x & Hx%Hall & Hnone). rewrite Hnone in Hx. by destruct Hx.
  - split; split; try done; [eauto | by intros [h ?] |].
    intros Hall. destruct (Hall y Hy) as [v Hv]. congruence.
Qed.

(** X9: the fingerprint of two clauses put together is the sum of their
    fingerprints, with the exception of the first when it raises, else of the
    second; the fingerprint of the empty clause is 0. *)
Theorem hash_clause_app (c1 c2 : list (bool * Z)) :
  hash_clause table (c1 ++ c2) =
    (h1 ← hash_clause table c1; h2 ← hash_clause table c2; Ret (h1 + h2)) /\
  hash_clause table [] = Ret 0.
Proof.
  split; [|done]. unfold hash_clause. rewrite sum_map_app.
  destruct (sum_map (getitem table) c1 0) as [h1| |]; simpl; [|done|done].
  replace h1 with (h1 + 0) at 1 by lia. rewrite sum_map_shift.
  by destruct (sum_map (getitem table) c2 0).
Qed.

End fingerprint_more.

(** ** The sampler, continued *)

(** The clause with every polarity reversed. *)
Definition negate_clause (clause : list (bool * Z)) : list (bool * Z) :=
  map (fun x => (negb x.1, x.2)) clause.

Lemma size_union_le (X Y : gset Z) : (size (X ∪ Y) <= size X + size Y)%nat.
Proof.
  rewrite size_union_alt.
  assert (size (Y ∖ X) <= size Y)%nat; [|lia].
  apply subseteq_size. intros y [Hy _]%elem_of_difference. exact Hy.
Qed.

Section satisfied_literals.
Import sample_clauses.
Variable (assignment : gmap Z bool).

Lemma no_assigned_variable (clause : list (bool * Z)) :
  (forall x, x ∈ clause -> assignment !! x.2 = None) ->
  number_of_satisfied_literals clause assignment = 0%nat.
Proof.
  unfold number_of_satisfied_literals; simpl.
  induction clause as [|[b v] clause IH]; intros Hnone; simpl; [done|].
  assert (assignment !! v = None) as ->
    by (apply (Hnone (b, v)), elem_of_cons; by left).
  simpl. apply IH. intros x Hx. apply Hnone, elem_of_cons. by right.
Qed.

(** X10: the count is at most the number of literals; a literal on a variable
    that the assignment does not have counts as not satisfied (there is no
    [KeyError]); and when every variable of the clause is assigned, the
    clause and the clause with all polarities reversed share the literals
    between them. *)
Theorem number_of_satisfied_literals_facts (clause : list (bool * Z)) :
  (number_of_satisfied_literals clause assignment <= length clause)%nat /\
  ((forall x, x ∈ clause -> assignment !! x.2 = None) ->
   number_of_satisfied_literals clause assignment = 0%nat) /\
  ((forall x, x ∈ clause -> is_Some (assignment !! x.2)) ->
   (number_of_satisfied_literals clause assignment
    + number_of_satisfied_literals (negate_clause clause) assignment
    = length clause)%nat).
Proof.
  split; [apply number_of_satisfied_literals_le|].
  split; [apply no_assigned_variable|].
  unfold number_of_satisfied_literals, negate_clause; simpl.
  induction clause as [|[b v] clause IH]; intros Hall; simpl; [done|].
  destruct (Hall (b, v)) as [c Hc]; [apply elem_of_cons; by left|].
  simpl in Hc. rewrite Hc.
  assert (forall x, x ∈ clause -> is_Some (assignment !! x.2)) as Hrest
    by (intros x Hx; apply Hall, elem_of_cons; by right).
  specialize (IH Hrest).
  destruct b, c; simpl in *; lia.
Qed.

End satisfied_literals.

Lemma number_of_satisfied_literals_facts_witness :
  (forall x, x ∈ [(true, 1); (false, 2)] -> (∅ : gmap Z bool) !! x.2 = None) /\
  sample_clauses.number_of_satisfied_literals [(true, 1); (false, 2)] ∅ = 0%nat /\
  (forall x, x ∈ [(true, 1); (false, 2)] ->
     is_Some (({[1 := true; 2 := true]} : gmap Z bool) !! x.2)) /\
  Nat.add
    (sample_clauses.number_of_satisfied_literals [(true, 1); (false, 2)]
       {[1 := true; 2 := true]})
    (sample_clauses.number_of_satisfied_literals
       (negate_clause [(true, 1); (false, 2)]) {[1 := true; 2 := true]})
  = 2%nat.
Proof.
  assert (forall x, x ∈ [(true, 1); (false, 2)] ->
            (∅ : gmap Z bool) !! x.2 = None) as H0 by done.
  assert (forall x, x ∈ [(true, 1); (false, 2)] ->
            is_Some (({[1 := true; 2 := true]} : gmap Z bool) !! x.2)) as H1.
  { intros x [->|[->|[]%elem_of_nil]%elem_of_cons]%elem_of_cons;
      vm_compute; eauto. }
  split; [exact H0|].
  split;
    [exact (proj1 (proj2 (number_of_satisfied_literals_facts ∅ _)) H0)|].
  split; [exact H1|].
  exact (proj2 (proj2 (number_of_satisfied_literals_facts _ _)) H1).
Defined.

Section sampler_more.
Context `{PyRandom}.
Import sample_clauses.
Variables (k n m : Z) (hidden : gmap Z bool) (p : list Q)
          (table : gmap (bool * Z) Z).

(** The invariant rule with the loop test at hand. *)
Lemma sample_loop_invariant_guarded (P : loop_state -> Prop) :
  (forall st st', P st -> Z.of_nat (length (clauses st)) < m ->
                  iteration_result k n hidden p table st st' -> P st') ->
  forall fuel st st',
    P st -> sample_loop k n m hidden p table fuel st = Ret st' -> P st'.
Proof.
  intros Hstep fuel. induction fuel as [|fuel IH]; intros st st' HP; simpl.
  - destruct (Z.of_nat (length (clauses st)) <? m) eqn:E; [done|].
    by intros [= <-].
  - destruct (Z.of_nat (length (clauses st)) <? m) eqn:E; [|by intros [= <-]].
    intros (st1 & H1%sample_iteration_result & H2)%bind_Ret.
    apply (IH st1); [|done]. apply (Hstep st); [done | lia | done].
Qed.

Lemma sample_loop_exit (fuel : nat) (st : loop_state) :
  m <= Z.of_nat (length (clauses st)) ->
  sample_loop k n m hidden p table fuel st = Ret st.
Proof.
  intros Hm.
  destruct fuel; simpl;
    destruct (Z.of_nat (length (clauses st)) <? m) eqn:E; try done; lia.
Qed.

Lemma sample_loop_enter (fuel : nat) (st : loop_state) :
  Z.of_nat (length (clauses st)) < m ->
  sample_loop k n m hidden p table (S fuel) st
  = (st' ← sample_iteration k n hidden p table st;
     sample_loop k n m hidden p table fuel st').
Proof.
  intros Hm. simpl.
  destruct (Z.of_nat (length (clauses st)) <? m) eqn:E; [done | lia].
Qed.

(** X11: a candidate whose fingerprint is already recorded is dropped, and
    the accumulators stay as they are, whether or not its literals are those
    of a clause accepted before. *)
Theorem recorded_fingerprint_discards (st : loop_state) vars g1 clause g2 h :
  rng_sample (stream st) 1 (n + 1) k = Some (vars, g1) ->
  draw_polarities vars g1 = (clause, g2) ->
  (number_of_satisfied_literals clause hidden <= length p)%nat ->
  hash_clauses.hash_clause table clause = Ret h ->
  h ∈ clause_hash_set st ->
  exists st',
    sample_iteration k n hidden p table st = Ret st' /\
    clauses st' = clauses st /\
    variableset st' = variableset st /\
    clause_hash_set st' = clause_hash_set st.
Proof.
  intros Hs Hd Hp Hh Hin. unfold sample_iteration. rewrite Hs, Hd.
  destruct (0 <? number_of_satisfied_literals clause hidden)%nat eqn:Hi;
    [|by eexists].
  apply Nat.ltb_lt in Hi.
  destruct (lookup_lt_is_Some_2 p (number_of_satisfied_literals clause hidden - 1))
    as [p_i Hpi]; [lia|].
  unfold list_getitem. rewrite Hpi, bind_Ret_l.
  destruct (unfair_coin_flip p_i g2) as [[] g3]; [|by eexists].
  rewrite Hh, bind_Ret_l.
  destruct (decide (h ∈ clause_hash_set st)); [by eexists | done].
Qed.

(** X12: with [m <= 0] the call returns at once, with no variable and no
    clause, whatever the other arguments are: nothing is drawn after the
    seeding, and a width [k] that [random.sample] would refuse goes
    unnoticed. *)
Theorem sample_clauses_nothing_requested (fuel : nat) (s : Z) (g : rng) :
  m <= 0 ->
  sample_clauses k n m hidden p table fuel s g = Ret (∅, [], rng_seed s).
Proof.
  intros Hm. unfold sample_clauses.
  by rewrite sample_loop_exit by (simpl; lia).
Qed.

Lemma sample_loop_length_size (fuel : nat) (g : rng) (st : loop_state) :
  sample_loop k n m hidden p table fuel
    {| clauses := []; highestvariablecreated := 0;
       variableset := ∅; clause_hash_set := ∅; stream := g |} = Ret st ->
  Z.of_nat (length (clauses st)) = Z.max 0 m /\
  Z.of_nat (size (variableset st)) <= k * Z.of_nat (length (clauses st)).
Proof.
  intros Hloop.
  pose proof (sample_loop_invariant k n m hidden p table (fun _ => True)
                (fun _ _ _ _ => I) _ _ _ I Hloop) as [_ Hm].
  apply (sample_loop_invariant_guarded
           (fun st => Z.of_nat (length (clauses st)) <= Z.max 0 m /\
                      Z.of_nat (size (variableset st))
                      <= k * Z.of_nat (length (clauses st)))) in Hloop
    as [Hlen Hsize];
    [split; [lia | done] | | cbn [clauses variableset length]; split; [lia|]].
  - intros st0 st1 [Hlen Hsize] Hlt
      [Hc Hv _ | clause i p_i r h (Hk & _ & _) _ _ _ _ _ _ _ Hc Hv _].
    + by rewrite Hc, Hv.
    + rewrite Hc, Hv, length_app. simpl. split; [lia|].
      pose proof (size_union_le (variableset st0) (list_to_set (clause.*2))).
      pose proof (size_list_to_set_le (clause.*2)) as Hle.
      rewrite length_fmap in Hle. lia.
  - rewrite size_empty. lia.
Qed.

(** X13: a call that returns gives exactly [m] clauses (none for a negative
    [m]), and the variable set has at most [k] elements per clause. *)
Theorem sample_clauses_count fuel s g variables clauselist g' :
  sample_clauses k n m hidden p table fuel s g
    = Ret (variables, clauselist, g') ->
  Z.of_nat (length clauselist) = Z.max 0 m /\
  Z.of_nat (size variables) <= k * Z.of_nat (length clauselist).
Proof.
  unfold sample_clauses.
  intros (st & Hloop & [= <- <- <-])%bind_Ret.
  by apply (sample_loop_length_size fuel (rng_seed s)).
Qed.

(** X14: with [m >= 1], a width [k] that is negative or larger than the
    number of variables makes the first pass raise the [ValueError] of
    [random.sample]. *)
Theorem sample_clauses_width_error (fuel : nat) (s : Z) (g : rng) :
  0 < m -> k < 0 \/ Z.max 0 n < k ->
  sample_clauses k n m hidden p table (S fuel) s g
  = Raise (ValueError "Sample larger than population or is negative").
Proof.
  intros Hm Hk. unfold sample_clauses.
  rewrite sample_loop_enter by (simpl; lia).
  unfold sample_iteration. cbn [stream].
  assert (rng_sample (rng_seed s) 1 (n + 1) k = None) as ->; [|done].
  apply rng_sample_error. lia.
Qed.

Lemma sample_loop_no_satisfied_literal (fuel : nat) (st : loop_state) :
  0 < m -> 0 <= k <= n ->
  (forall v, 1 <= v <= n -> hidden !! v = None) ->
  clauses st = [] ->
  sample_loop k n m hidden p table fuel st = OutOfFuel.
Proof.
  intros Hm Hk Hnone. revert st.
  induction fuel as [|fuel IH]; intros st Hc.
  { cbn [sample_loop].
    destruct (Z.of_nat (length (clauses st)) <? m) eqn:E; [done|].
    apply Z.ltb_ge in E. rewrite Hc in E. simpl in E. lia. }
  rewrite sample_loop_enter by (rewrite Hc; simpl; lia).
  unfold sample_iteration.
  destruct (rng_sample (stream st) 1 (n + 1) k) as [[vars g1]|] eqn:Hs;
    [| apply rng_sample_error in Hs; lia].
  pose proof (candidate_well_shaped _ _ _ _ _ Hs) as (_ & _ & Hr).
  destruct (draw_polarities vars g1) as [clause g2]. simpl in Hr.
  rewrite no_assigned_variable.
  - simpl. apply IH. by rewrite <- Hc.
  - intros x Hx. apply Hnone, Hr. by apply list_elem_of_fmap_2.
Qed.

(** X15: when the assignment has none of the variables 1..n (the empty
    dictionary, say) no candidate is ever accepted: for [m >= 1] and
    [0 <= k <= n] the call neither returns nor raises. *)
Theorem sample_clauses_no_satisfied_literal (fuel : nat) (s : Z) (g : rng) :
  0 < m -> 0 <= k <= n ->
  (forall v, 1 <= v <= n -> hidden !! v = None) ->
  sample_clauses k n m hidden p table fuel s g = OutOfFuel.
Proof.
  intros Hm Hk Hnone. unfold sample_clauses.
  by rewrite sample_loop_no_satisfied_literal.
Qed.

End sampler_more.

(** A table for three variables in which the clauses [x3, x1] and
    [x2, not x1] have the same fingerprint, and a state of the loop that has
    accepted the second. *)
Definition colliding_table : gmap (bool * Z) Z :=
  {[(true, 1) := 20; (false, 1) := 25; (true, 2) := 5; (false, 2) := 7;
    (true, 3) := 10; (false, 3) := 11]}.

Definition after_one_clause : sample_clauses.loop_state (H := lcg_random) :=
  sample_clauses.mkState [[(true, 2); (false, 1)]] 2 {[1; 2]} {[30]}
    (lcg.seed 3).

Definition all_true : gmap Z bool := {[1 := true; 2 := true; 3 := true]}.

Lemma recorded_fingerprint_discards_witness :
  hash_clauses.hash_clause colliding_table [(true, 2); (false, 1)] = Ret 30 /\
  hash_clauses.hash_clause colliding_table [(true, 3); (true, 1)] = Ret 30 /\
  exists st',
    sample_clauses.sample_iteration 2 3 all_true [1%Q; 1%Q] colliding_table
      after_one_clause = Ret st' /\
    sample_clauses.clauses st' = [[(true, 2); (false, 1)]] /\
    sample_clauses.variableset st' = {[1; 2]} /\
    sample_clauses.clause_hash_set st' = {[30]}.
Proof.
  split; [vm_compute; reflexivity|]. split; [vm_compute; reflexivity|].
  apply (recorded_fingerprint_discards 2 3 all_true [1%Q; 1%Q] colliding_table
           after_one_clause [3; 1] 1163074432 [(true, 3); (true, 1)]
           679304702 30).
  - vm_compute. reflexivity.
  - vm_compute. reflexivity.
  - vm_compute. lia.
  - vm_compute. reflexivity.
  - apply elem_of_singleton. reflexivity.
Defined.

Lemma sample_clauses_nothing_requested_witness :
  0 <= 0 /\
  sample_clauses.sample_clauses (H := lcg_random) 5 2 0 ∅ [] ∅ 0 7 99
  = Ret (∅, [], lcg.seed 7).
Proof.
  split; [lia|].
  apply (sample_clauses_nothing_requested (H := lcg_random) 5 2 0 ∅ [] ∅ 0%nat 7 99).
  lia.
Defined.

(** [sample_clauses(2, 3, 3, {1: True, 2: True, 3: True}, 6, [1, 1])]. *)
Definition demo_sample
  : outcome (gset Z * list (list (bool * Z)) * Z) :=
  sample_clauses.sample_clauses (H := lcg_random) 2 3 3 all_true [1%Q; 1%Q]
    colliding_table 20 6 0.

Lemma sample_clauses_count_witness :
  returns demo_sample = true /\
  Z.of_nat (length (returned_or (∅, [], 0) demo_sample).1.2) = Z.max 0 3 /\
  Z.of_nat (size (returned_or (∅, [], 0) demo_sample).1.1)
  <= 2 * Z.of_nat (length (returned_or (∅, [], 0) demo_sample).1.2).
Proof.
  assert (returns demo_sample = true) as Hr by (vm_compute; reflexivity).
  split; [exact Hr|].
  apply (sample_clauses_count (H := lcg_random) 2 3 3 all_true [1%Q; 1%Q]
           colliding_table 20 6 0 _ _ (returned_or (∅, [], 0) demo_sample).2).
  rewrite <- !surjective_pairing. by apply returns_Ret.
Defined.

Lemma sample_clauses_width_error_witness :
  0 < 1 /\ (5 < 0 \/ Z.max 0 2 < 5) /\
  sample_clauses.sample_clauses (H := lcg_random) 5 2 1 all_true [1%Q]
    colliding_table 1 7 0
  = Raise (ValueError "Sample larger than population or is negative").
Proof.
  split; [lia|]. split; [right; simpl; lia|].
  apply (sample_clauses_width_error (H := lcg_random) 5 2 1 all_true [1%Q]
           colliding_table 0%nat 7 0); [lia | right; simpl; lia].
Defined.

Lemma sample_clauses_no_satisfied_literal_witness :
  (forall v, 1 <= v <= 2 -> (∅ : gmap Z bool) !! v = None) /\
  sample_clauses.sample_clauses (H := lcg_random) 1 2 1 ∅ [1%Q]
    colliding_table 10 7 0
  = OutOfFuel.
Proof.
  split; [done|].
  apply (sample_clauses_no_satisfied_literal (H := lcg_random) 1 2 1 ∅ [1%Q]
           colliding_table 10%nat 7 0); [lia | lia | done].
Defined.

(** ** The checks of [main] *)

Lemma existsb_elem_of {A : Type} (f : A -> bool) (l : list A) :
  existsb f l = true <-> exists x, x ∈ l /\ f x = true.
Proof.
  rewrite existsb_exists. split; intros (x & Hx & Hf); exists x;
    (split; [by apply list_elem_of_In | done]).
Qed.

Lemma existsb_false_elem_of {A : Type} (f : A -> bool) (l : list A) :
  existsb f l = false <-> forall x, x ∈ l -> f x = false.
Proof.
  rewrite <- not_true_iff_false, existsb_elem_of. split.
  - intros Hno x Hx. apply not_true_iff_false. intros Hf. apply Hno. eauto.
  - intros Hall (x & Hx & Hf). rewrite (Hall x Hx) in Hf. done.
Qed.

Lemma Qltb_ge (r p : Q) : Qltb r p = false <-> (p <= r)%Q.
Proof.
  rewrite <- not_true_iff_false, Qltb_lt.
  split; [apply Qnot_lt_le | apply Qle_not_lt].
Qed.

Lemma max_from_spec {A : Type} (key : A -> Z) (l : list A) (best : A) :
  max_from key best l ∈ best :: l /\
  forall x, x ∈ best :: l -> key x <= key (max_from key best l).
Proof.
  revert best. induction l as [|y l IH]; intros best; simpl.
  - split; [apply elem_of_cons; by left|].
    intros x [->|[]%elem_of_nil]%elem_of_cons. lia.
  - destruct (IH (if key best <? key y then y else best)) as [Hin Hmax].
    split.
    + apply elem_of_cons in Hin as [Hin|Hin].
      * rewrite Hin. destruct (key best <? key y);
          rewrite !elem_of_cons; auto.
      * rewrite !elem_of_cons; auto.
    + intros x Hx.
      assert (key (if key best <? key y then y else best)
              <= key (max_from key (if key best <? key y then y else best) l))
        as Hb by (apply Hmax, elem_of_cons; by left).
      apply elem_of_cons in Hx as [->|[->|Hx]%elem_of_cons].
      * destruct (key best <? key y) eqn:E; lia.
      * destruct (key best <? key y) eqn:E; lia.
      * apply Hmax, elem_of_cons. by right.
Qed.

Section checks.
Context `{PyRandom}.
Import generator.

Lemma check_parameters_Ret n m k p :
  check_parameters n m k p = Ret tt <->
  0 <= n /\ 0 <= m /\ 1 <= k <= n /\ Z.of_nat (length p) = k /\
  (forall val, val ∈ p -> (0 <= val)%Q /\ (val <= 1)%Q) /\
  (exists val, val ∈ p /\ (0 < val)%Q).
Proof.
  unfold check_parameters.
  destruct ((n <? 0) || (m <? 0)) eqn:E1.
  { split; [done|]. intros (? & ? & _). apply orb_true_iff in E1. lia. }
  apply orb_false_iff in E1 as [En Em].
  destruct (k <=? 0) eqn:E2; [split; [done | lia]|].
  destruct (n <? k) eqn:E3; [split; [done | lia]|].
  destruct (Z.of_nat (length p) =? k) eqn:E4; simpl; [|split; [done | lia]].
  destruct (existsb (fun val => Qltb 1 val) p) eqn:E5.
  { split; [done|]. intros (_ & _ & _ & _ & Hall & _).
    apply existsb_elem_of in E5 as (val & Hval & Hlt%Qltb_lt).
    destruct (Hall val Hval) as [_ Hle]. by apply Qle_not_lt in Hle. }
  destruct (existsb (fun val => Qltb val 0) p) eqn:E6.
  { split; [done|]. intros (_ & _ & _ & _ & Hall & _).
    apply existsb_elem_of in E6 as (val & Hval & Hlt%Qltb_lt).
    destruct (Hall val Hval) as [Hle _]. by apply Qle_not_lt in Hle. }
  destruct (existsb (fun val => Qltb 0 val) p) eqn:E7; simpl.
  - split; [|done]. intros _.
    repeat (split; [lia|]). split.
    + intros val Hval. split.
      * by apply Qltb_ge, (proj1 (existsb_false_elem_of _ p) E6).
      * by apply Qltb_ge, (proj1 (existsb_false_elem_of _ p) E5).
    + apply existsb_elem_of in E7 as (val & Hval & Hlt%Qltb_lt). eauto.
  - split; [done|]. intros (_ & _ & _ & _ & _ & val & Hval & Hlt%Qltb_lt).
    by rewrite (proj1 (existsb_false_elem_of _ p) E7 val Hval) in Hlt.
Qed.

Lemma existsb_Number (f : pyfloat -> bool) (g : Q -> bool) (p : list Q) :
  (forall q, f (Number q) = g q) ->
  existsb f (map Number p) = existsb g p.
Proof.
  intros Hfg. induction p as [|q p IH]; [done|].
  cbn [map existsb]. by rewrite Hfg, IH.
Qed.

Lemma check_parameters_Number n m k p :
  check_parameters_float n m k (map Number p) = check_parameters n m k p.
Proof.
  unfold check_parameters_float, check_parameters.
  rewrite length_map.
  by rewrite !(existsb_Number _ _ p (fun q => eq_refl)).
Qed.

Lemma check_parameters_float_Ret n m k p :
  check_parameters_float n m k p = Ret tt <->
  0 <= n /\ 0 <= m /\ 1 <= k <= n /\ Z.of_nat (length p) = k /\
  (forall val, val ∈ p ->
     val = NaN \/ exists q, val = Number q /\ (0 <= q)%Q /\ (q <= 1)%Q) /\
  (exists q, Number q ∈ p /\ (0 < q)%Q).
Proof.
  unfold check_parameters_float.
  destruct ((n <? 0) || (m <? 0)) eqn:E1.
  { split; [done|]. intros (? & ? & _). apply orb_true_iff in E1. lia. }
  apply orb_false_iff in E1 as [En Em].
  destruct (k <=? 0) eqn:E2; [split; [done | lia]|].
  destruct (n <? k) eqn:E3; [split; [done | lia]|].
  destruct (Z.of_nat (length p) =? k) eqn:E4; cbn [negb]; [|split; [done | lia]].
  destruct (existsb (fun val => float_ltb (Number 1) val) p) eqn:E5.
  { split; [done|]. intros (_ & _ & _ & _ & Hall & _).
    apply existsb_elem_of in E5 as (val & Hval & Hlt).
    destruct (Hall val Hval) as [-> | (q & -> & _ & Hle)]; [done|].
    apply Qltb_lt in Hlt. by apply Qle_not_lt in Hle. }
  destruct (existsb (fun val => float_ltb val (Number 0)) p) eqn:E6.
  { split; [done|]. intros (_ & _ & _ & _ & Hall & _).
    apply existsb_elem_of in E6 as (val & Hval & Hlt).
    destruct (Hall val Hval) as [-> | (q & -> & Hle & _)]; [done|].
    apply Qltb_lt in Hlt. by apply Qle_not_lt in Hle. }
  destruct (existsb (fun val => float_ltb (Number 0) val) p) eqn:E7; cbn [negb].
  - split; [|done]. intros _.
    repeat (split; [lia|]). split.
    + intros val Hval.
      pose proof (proj1 (existsb_false_elem_of _ p) E5 val Hval) as H1.
      pose proof (proj1 (existsb_false_elem_of _ p) E6 val Hval) as H0.
      destruct val as [q| | |]; [right | by left | done | done].
      exists q. split; [done|]. split; by apply Qltb_ge.
    + apply existsb_elem_of in E7 as (val & Hval & Hlt).
      pose proof (proj1 (existsb_false_elem_of _ p) E5 val Hval) as H1.
      destruct val as [q| | |]; [|done|done|done].
      exists q. split; [done|]. by apply Qltb_lt.
  - split; [done|]. intros (_ & _ & _ & _ & _ & q & Hval & Hlt).
    pose proof (proj1 (existsb_false_elem_of _ p) E7 _ Hval) as Hle.
    apply (Qltb_ge 0 q) in Hle. by apply Qle_not_lt in Hle.
Qed.

(** X16: on p-values that are numbers, the parameter checks pass exactly
    when [n] and [m] are not negative, [1 <= k <= n], there are [k]
    probabilities, each in [0, 1], and one of them is positive; no run gets
    past them with [n = 0].  On floats in general a [nan] fails none of the
    three comparisons: the checks pass exactly when every entry is [nan] or a
    number in [0, 1] and one entry is a positive number, so a list such as
    [[nan, q]] with [0 < q <= 1] passes, and the infinities are refused.  On
    numbers the two agree. *)
Theorem check_parameters_passes_iff n m k p :
  (check_parameters n m k p = Ret tt <->
   0 <= n /\ 0 <= m /\ 1 <= k <= n /\ Z.of_nat (length p) = k /\
   (forall val, val ∈ p -> (0 <= val)%Q /\ (val <= 1)%Q) /\
   (exists val, val ∈ p /\ (0 < val)%Q)) /\
  (forall m' k' p', check_parameters 0 m' k' p' <> Ret tt) /\
  (forall pf,
     check_parameters_float n m k pf = Ret tt <->
     0 <= n /\ 0 <= m /\ 1 <= k <= n /\ Z.of_nat (length pf) = k /\
     (forall val, val ∈ pf ->
        val = NaN \/ exists q, val = Number q /\ (0 <= q)%Q /\ (q <= 1)%Q) /\
     (exists q, Number q ∈ pf /\ (0 < q)%Q)) /\
  (forall q, (0 < q)%Q -> (q <= 1)%Q -> 2 <= n -> 0 <= m ->
     check_parameters_float n m 2 [NaN; Number q] = Ret tt) /\
  check_parameters_float n m k (map Number p) = check_parameters n m k p.
Proof.
  split; [apply check_parameters_Ret|]. split; [|split; [|split]].
  - intros m' k' p' (_ & _ & Hk & _)%check_parameters_Ret. lia.
  - intros pf. apply check_parameters_float_Ret.
  - intros q Hq0 Hq1 Hn Hm. apply check_parameters_float_Ret.
    repeat (split; [simpl; lia|]). split.
    + intros val [-> | ->%list_elem_of_singleton]%elem_of_cons; [by left|].
      right. exists q. split; [done|]. split; [by apply Qlt_le_weak | done].
    + exists q. split; [|done]. apply elem_of_cons. right.
      by apply list_elem_of_singleton.
  - apply check_parameters_Number.
Qed.

Lemma check_hidden_solution_Ret n l :
  check_hidden_solution n l = Ret tt <->
  l <> [] /\ (exists x, x ∈ l /\ Z.abs x = n) /\
  (forall x, x ∈ l -> Z.abs x <= n) /\ NoDup (map Z.abs l).
Proof.
  unfold check_hidden_solution, py_max.
  destruct l as [|x0 l]; [split; [done | by intros [? _]]|].
  rewrite bind_Ret_l.
  destruct (max_from_spec Z.abs l x0) as [Hin Hmax].
  set (top := max_from Z.abs x0 l) in *.
  destruct (Z.abs top =? n) eqn:E1; cbn [negb].
  - apply Z.eqb_eq in E1.
    pose proof (size_list_to_set_le (x0 :: l)) as Hle1.
    destruct (size (list_to_set (C := gset Z) (x0 :: l))
                <? length (x0 :: l))%nat eqn:E2.
    { split; [done|]. intros (_ & _ & _ & Hnd%NoDup_fmap_1).
      apply size_list_to_set_length in Hnd. apply Nat.ltb_lt in E2. lia. }
    destruct (size (list_to_set (C := gset Z) (map Z.abs (x0 :: l)))
                =? length (x0 :: l))%nat eqn:E3; cbn [negb].
    + apply Nat.eqb_eq in E3. split; [|done]. intros _.
      split; [done|]. split; [by exists top|].
      split; [intros x Hx%Hmax; lia|].
      apply size_list_to_set_length. by rewrite length_map.
    + split; [done|]. intros (_ & _ & _ & Hnd).
      apply size_list_to_set_length in Hnd. rewrite length_map in Hnd.
      apply Nat.eqb_neq in E3. done.
  - split; [done|]. intros (_ & (x & Hx & Hn) & Hall & _).
    apply Z.eqb_neq in E1. specialize (Hmax x Hx). specialize (Hall top Hin).
    lia.
Qed.

(** X17: a hidden solution read from a file passes the checks exactly when
    it is not empty, the largest absolute value is [n], and no two entries
    have the same absolute value.  The entries need not cover 1..n, and 0 may
    be one of them. *)
Theorem check_hidden_solution_passes_iff n l :
  (check_hidden_solution n l = Ret tt <->
   l <> [] /\ (exists x, x ∈ l /\ Z.abs x = n) /\
   (forall x, x ∈ l -> Z.abs x <= n) /\ NoDup (map Z.abs l)) /\
  (1 <= n -> check_hidden_solution n [n] = Ret tt /\
             check_hidden_solution n [0; - n] = Ret tt).
Proof.
  split; [apply check_hidden_solution_Ret|].
  intros Hn. split; apply check_hidden_solution_Ret.
  - split; [done|]. split; [exists n; split; [apply elem_of_cons; by left | lia]|].
    split; [intros x ->%list_elem_of_singleton; lia|].
    apply NoDup_singleton.
  - split; [done|].
    split; [exists (- n); split; [rewrite !elem_of_cons; auto | lia]|].
    split; [intros x [-> | ->%list_elem_of_singleton]%elem_of_cons; lia|].
    simpl. apply NoDup_cons. split; [|apply NoDup_singleton].
    rewrite list_elem_of_singleton. lia.
Qed.

End checks.

Lemma check_hidden_solution_passes_iff_witness :
  1 <= 3 /\
  generator.check_hidden_solution 3 [3] = Ret tt /\
  generator.check_hidden_solution 3 [0; -3] = Ret tt.
Proof.
  split; [lia|].
  apply (proj2 (check_hidden_solution_passes_iff 3 [])). lia.
Defined.

(** ** The hidden solution *)

Section hidden_solution.
Context `{PyRandom}.
Import generator.

Lemma hidden_dict_untouched (l : list Z) (d : gmap Z bool) (v : Z) :
  v ∉ map Z.abs l ->
  foldl (fun d var => <[Z.abs var := (0 <? var)]> d) d l !! v = d !! v.
Proof.
  revert d. induction l as [|y l IH]; intros d Hv; simpl; [done|].
  simpl in Hv. apply not_elem_of_cons in Hv as [Hy Hv].
  rewrite IH by done. by rewrite lookup_insert_ne.
Qed.

Lemma hidden_dict_origin (l : list Z) (d : gmap Z bool) (v : Z) (b : bool) :
  foldl (fun d var => <[Z.abs var := (0 <? var)]> d) d l !! v = Some b ->
  d !! v = Some b \/ exists x, x ∈ l /\ Z.abs x = v /\ b = (0 <? x).
Proof.
  revert d. induction l as [|y l IH]; intros d; simpl; [by left|].
  intros [Hd | (x & Hx & Hv & Hb)]%IH.
  - destruct (decide (Z.abs y = v)) as [Hy|Hy].
    + rewrite <- Hy, lookup_insert_eq in Hd. injection Hd as <-.
      right. exists y. split; [apply elem_of_cons; by left | done].
    + rewrite lookup_insert_ne in Hd by done. by left.
  - right. exists x. split; [apply elem_of_cons; by right | done].
Qed.

Lemma hidden_dict_entry (l : list Z) (d : gmap Z bool) (x : Z) :
  NoDup (map Z.abs l) -> x ∈ l ->
  foldl (fun d var => <[Z.abs var := (0 <? var)]> d) d l !! Z.abs x
  = Some (0 <? x).
Proof.
  revert d. induction l as [|y l IH]; intros d Hnd Hx; simpl.
  { by apply elem_of_nil in Hx. }
  simpl in Hnd. apply NoDup_cons in Hnd as [Hy Hnd].
  apply elem_of_cons in Hx as [->|Hx]; [|by apply IH].
  rewrite hidden_dict_untouched by done. apply lookup_insert_eq.
Qed.

Lemma hidden_dict_Some (l : list Z) (v : Z) (b : bool) :
  hidden_dict l !! v = Some b ->
  exists x, x ∈ l /\ Z.abs x = v /\ b = (0 <? x).
Proof.
  unfold hidden_dict. intros [Hd | Hx]%hidden_dict_origin; [|done].
  by rewrite lookup_empty in Hd.
Qed.

Lemma hidden_dict_of_entry (l : list Z) (x : Z) :
  NoDup (map Z.abs l) -> x ∈ l -> hidden_dict l !! Z.abs x = Some (0 <? x).
Proof. intros Hnd Hx. by apply hidden_dict_entry. Qed.

(** X18: the dictionary built from a list with no two entries of the same
    absolute value assigns to the variable of each entry the sign of the
    entry, and every key of the dictionary comes from an entry of the list. *)
Theorem hidden_dict_lookup (l : list Z) :
  (NoDup (map Z.abs l) ->
   forall x, x ∈ l -> hidden_dict l !! Z.abs x = Some (0 <? x)) /\
  (forall v b, hidden_dict l !! v = Some b ->
     exists x, x ∈ l /\ Z.abs x = v /\ b = (0 <? x)).
Proof.
  split; [intros Hnd x Hx; by apply hidden_dict_of_entry|].
  apply hidden_dict_Some.
Qed.

Lemma random_hidden_solution_abs (vars : list Z) (g : rng) :
  map Z.abs (random_hidden_solution vars g).1 = map Z.abs vars.
Proof.
  revert g. induction vars as [|v vars IH]; intros g; simpl; [done|].
  destruct (rng_randint01 g) as [flip g1].
  specialize (IH g1). destruct (random_hidden_solution vars g1) as [rest g2].
  simpl in *. rewrite IH. f_equal. destruct (flip =? 0); [done|].
  apply Z.abs_opp.
Qed.

(** X19: the hidden solution that [main] draws has, in this order, the
    entries [1] or [-1], [2] or [-2], ..., [n] or [-n]; its dictionary
    assigns a value to the variables 1..n and to nothing else. *)
Theorem random_hidden_solution_total (n : Z) (g : rng) :
  map Z.abs (random_hidden_solution (seqZ 1 n) g).1 = seqZ 1 n /\
  forall v, is_Some (hidden_dict (random_hidden_solution (seqZ 1 n) g).1 !! v)
            <-> 1 <= v <= n.
Proof.
  assert (map Z.abs (random_hidden_solution (seqZ 1 n) g).1 = seqZ 1 n) as Habs.
  { rewrite random_hidden_solution_abs.
    transitivity (map id (seqZ 1 n)); [|apply map_id].
    apply map_ext_in. intros v Hv%list_elem_of_In%elem_of_seqZ. unfold id. lia. }
  split; [done|]. intros v. split.
  - intros [b (x & Hx & Hv & _)%hidden_dict_Some].
    assert (Z.abs x ∈ seqZ 1 n) as Hin%elem_of_seqZ; [|lia].
    rewrite <- Habs. by apply (list_elem_of_fmap_2 Z.abs).
  - intros Hv.
    assert (v ∈ map Z.abs (random_hidden_solution (seqZ 1 n) g).1) as Hin
      by (rewrite Habs; apply elem_of_seqZ; lia).
    apply (list_elem_of_fmap Z.abs) in Hin as (x & -> & Hx).
    exists (0 <? x). apply hidden_dict_of_entry; [|done].
    rewrite Habs. apply NoDup_seqZ.
Qed.

Lemma sum_bools_pos {A : Type} (f : A -> bool) (l : list A) :
  (0 < sum_bools (map f l))%nat -> exists x, x ∈ l /\ f x = true.
Proof.
  induction l as [|x l IH]; simpl; [lia|].
  destruct (f x) eqn:Hf.
  - intros _. exists x. split; [apply elem_of_cons; by left | done].
  - simpl. intros (y & Hy & Hfy)%IH. exists y.
    split; [apply elem_of_cons; by right | done].
Qed.

Lemma main_clause_literal fuel n m k p s F w cnf w' :
  main fuel (Some n) (Some m) k p s F w = Ret (cnf, w') ->
  exists hiddensol_listint g0,
    hidden_solution_list n F (rng_seed (default 42 s))
      = Ret (hiddensol_listint, g0) /\
    forall c, c ∈ cnfformula.clauses cnf ->
      exists l, l ∈ c /\ 1 <= Z.abs l /\
        hidden_dict hiddensol_listint !! Z.abs l = Some (0 <? l).
Proof.
  intros (hl & g0 & cl & Hh & Hadm & Hc)%main_clauses.
  exists hl, g0. split; [done|]. intros c. rewrite Hc.
  intros (clause & -> & Hin)%list_elem_of_fmap.
  rewrite Forall_forall in Hadm.
  destruct (Hadm clause Hin) as ((_ & _ & Hr) & Hpos & _).
  apply sum_bools_pos in Hpos as ([truth v] & Hx & Hsat).
  assert (1 <= v <= n) as Hv by (apply Hr; by apply (list_elem_of_fmap_2 snd) in Hx).
  exists (cnfformula.signed_literal (truth, v)).
  split; [by apply list_elem_of_fmap_2|].
  rewrite abs_signed_literal. simpl. rewrite Z.abs_eq by lia. split; [lia|].
  simpl in Hsat. destruct (hidden_dict hl !! v) as [b|]; [|done].
  apply bool_decide_eq_true in Hsat as <-. f_equal.
  destruct truth; lia.
Qed.

(** X20: in the formula of every run that returns, each clause has a literal
    that is an entry of the hidden solution list, read from the file or
    drawn. *)
Theorem clause_has_hidden_literal fuel n m k p s F w cnf w' :
  main fuel (Some n) (Some m) k p s F w = Ret (cnf, w') ->
  exists hiddensol_listint g0,
    hidden_solution_list n F (rng_seed (default 42 s))
      = Ret (hiddensol_listint, g0) /\
    forall c, c ∈ cnfformula.clauses cnf ->
      exists l, l ∈ c /\ l ∈ hiddensol_listint.
Proof.
  intros (hl & g0 & Hh & Hsat)%main_clause_literal.
  exists hl, g0. split; [done|]. intros c Hc.
  destruct (Hsat c Hc) as (l & Hl & Hne & Hb).
  exists l. split; [done|].
  apply hidden_dict_Some in Hb as (x & Hx & Habs & Hsign).
  assert (x = l) as -> by lia. done.
Qed.

End hidden_solution.

Lemma hidden_dict_lookup_witness :
  NoDup (map Z.abs [1; -2; 3]) /\
  forall x, x ∈ [1; -2; 3] ->
    generator.hidden_dict [1; -2; 3] !! Z.abs x = Some (0 <? x).
Proof.
  assert (NoDup (map Z.abs [1; -2; 3])) as Hnd
    by (apply (bool_decide_unpack (NoDup [1; 2; 3])); vm_compute; exact I).
  split; [exact Hnd|].
  exact (proj1 (hidden_dict_lookup [1; -2; 3]) Hnd).
Defined.

Lemma clause_has_hidden_literal_witness :
  fst <$> demo_run_F = Ret demo_formula_F /\
  exists hiddensol_listint g0,
    generator.hidden_solution_list 4 (Some (generator.Contents [1; -2; 3; -4]))
      (rng_seed 7) = Ret (hiddensol_listint, g0) /\
    forall c, c ∈ cnfformula.clauses demo_formula_F ->
      exists l, l ∈ c /\ l ∈ hiddensol_listint.
Proof.
  split; [vm_compute; reflexivity|].
  apply (clause_has_hidden_literal 50 4 6 (Some 3) (Some [0%Q; 1%Q; (1 # 2)%Q])
           (Some 7) (Some (generator.Contents [1; -2; 3; -4]))
           demo_world demo_formula_F (final_world demo_run_F demo_world)).
  apply (run_returns demo_run_F). vm_compute. reflexivity.
Defined.

(** ** The orchestrator, continued *)

Section orchestrator_more.
Context `{PyRandom}.
Import generator.

Lemma main_Ret_checked fuel n m k p s F w r :
  main fuel (Some n) (Some m) k p s F w = Ret r ->
  check_parameters n m (default 3 k)
    (default (replicate (Z.to_nat (default 3 k)) 1%Q) p) = Ret tt.
Proof.
  unfold main. intros ([] & Hc & _)%bind_Ret. exact Hc.
Qed.

Lemma main_clause_count fuel n m k p s F w cnf w' :
  main fuel (Some n) (Some m) k p s F w = Ret (cnf, w') ->
  Z.of_nat (length (cnfformula.clauses cnf)) = m.
Proof.
  intros Hmain.
  pose proof (main_Ret_checked _ _ _ _ _ _ _ _ _ Hmain)
    as (_ & Hm & _)%check_parameters_Ret.
  apply main_Ret in Hmain
    as (hl & g0 & table & t & g2 & vs & cl & g3 & _ & _ & Hs & _ & Hc & _).
  unfold sample_clauses.sample_clauses in Hs.
  apply bind_Ret in Hs as (st & Hloop & [= <- <- <-]).
  apply sample_loop_length_size in Hloop as [Hlen _].
  rewrite Hc, length_map. lia.
Qed.

Lemma orchestrator_n fuel n m k p s F w cnf w' :
  main fuel (Some n) (Some m) k p s F w = Ret (cnf, w') ->
  cnfformula.n cnf = n.
Proof.
  by intros (? & ? & ? & ? & ? & ? & ? & ? & _ & _ & _ & _ & _ & Hn)%main_Ret.
Qed.

(** X21: the formula of a run that returns has exactly [m] clauses and is
    bound to the [n] that was asked for. *)
Theorem main_formula_size fuel n m k p s F w cnf w' :
  main fuel (Some n) (Some m) k p s F w = Ret (cnf, w') ->
  Z.of_nat (cnfformula.len cnf) = m /\ cnfformula.n cnf = n.
Proof.
  intros Hmain. split.
  - unfold cnfformula.len. by eapply main_clause_count.
  - by eapply orchestrator_n.
Qed.

Lemma sample_loop_not_Raise k n m hidden p table (fuel : nat) st e :
  0 <= k <= n -> k <= Z.of_nat (length p) ->
  (forall b v, 1 <= v <= n -> is_Some (table !! (b, v))) ->
  sample_clauses.sample_loop k n m hidden p table fuel st <> Raise e.
Proof.
  intros Hk Hp Hcov. revert st.
  induction fuel as [|fuel IH]; intros st; simpl;
    destruct (Z.of_nat (length (sample_clauses.clauses st)) <? m); try done.
  destruct (sample_iteration_returns k n hidden p table st Hk Hp Hcov)
    as [st' ->].
  rewrite bind_Ret_l. apply IH.
Qed.

Lemma retry_loop_uncoverable n m k p s hidden table fuel attempts t g :
  0 <= m -> 0 <= k <= n -> k <= Z.of_nat (length p) ->
  (forall b v, 1 <= v <= n -> is_Some (table !! (b, v))) ->
  m * k < n ->
  retry_loop n m k p s hidden table fuel attempts t g = OutOfFuel.
Proof.
  intros Hm Hk Hp Hcov Hfew. revert t g.
  induction attempts as [|attempts IH]; intros t g; simpl; [done|].
  destruct (sample_clauses.sample_clauses k n m hidden p table fuel (s + (t + 1)) g)
    as [[[vs cl] g1]|e|] eqn:Hs; simpl; [| |done].
  - unfold sample_clauses.sample_clauses in Hs.
    apply bind_Ret in Hs as (st & Hloop & [= <- <- <-]).
    apply sample_loop_length_size in Hloop as [Hlen Hsize].
    assert ((Z.of_nat (size (sample_clauses.variableset st)) =? n) = false)
      as -> by nia.
    simpl. apply IH.
  - exfalso. unfold sample_clauses.sample_clauses in Hs.
    destruct (sample_clauses.sample_loop k n m hidden p table fuel _)
      as [st|e'|] eqn:Hl; simpl in Hs; try done.
    by apply sample_loop_not_Raise in Hl.
Qed.

(** X22: [m] clauses of width [k] have at most [m * k] variables.  When that
    is less than [n] (for [m = 0], say) no attempt can cover the variables: a
    run with valid parameters and no hidden-solution file goes from attempt
    to attempt and neither returns nor raises. *)
Theorem main_too_few_literals fuel n m k p s w :
  check_parameters n m (default 3 k)
    (default (replicate (Z.to_nat (default 3 k)) 1%Q) p) = Ret tt ->
  2 * n <= 2 ^ 32 - 1 ->
  m * default 3 k < n ->
  main fuel (Some n) (Some m) k p s None w = OutOfFuel.
Proof.
  intros Hcheck Hn Hfew. unfold main. rewrite Hcheck, bind_Ret_l.
  apply check_parameters_Ret in Hcheck as (Hn0 & Hm & Hk & Hlen & _).
  unfold hidden_solution_list. rewrite bind_Ret_l.
  destruct (random_hidden_solution (seqZ 1 n) (rng_seed (default 42 s)))
    as [hl g].
  unfold generate. cbn [random_state variable_mapping].
  destruct (init_variable_mapping_Ret n 42 g (variable_mapping w))
    as (table & g' & -> & Hcov); [lia|].
  rewrite bind_Ret_l, retry_loop_uncoverable; [done | lia | lia | lia | done | done].
Qed.

(** X23: for [2n > 2^32 - 1] the table cannot be drawn.  The [ValueError]
    of [random.sample] is caught, and a run whose parameters and hidden
    solution are valid ends with the error about too few clauses, whatever
    [m] is. *)
Theorem main_table_too_large fuel n m k p s F w hiddensol_listint g0 :
  check_parameters n m (default 3 k)
    (default (replicate (Z.to_nat (default 3 k)) 1%Q) p) = Ret tt ->
  hidden_solution_list n F (rng_seed (default 42 s))
    = Ret (hiddensol_listint, g0) ->
  2 ^ 32 - 1 < 2 * n ->
  main fuel (Some n) (Some m) k p s F w
  = Raise (ValueError "There are fewer clauses available than the number requested").
Proof.
  intros Hcheck Hh Hn. unfold main.
  rewrite Hcheck, bind_Ret_l, Hh, bind_Ret_l.
  unfold generate, hash_clauses.init_variable_mapping.
  cbn [random_state variable_mapping].
  assert (rng_sample g0 0 (2 ^ 32 - 1) (2 * n) = None) as ->; [|done].
  apply rng_sample_error. lia.
Qed.

(** X24: the loop commits the first attempt whose variable set has [n]
    elements, and no other.  Started at counter [t] with [attempts] passes to
    go, it returns a formula exactly when some attempt [t'] within these
    passes returns [n] variables, every attempt before it returns a set of
    another size, and the formula is built from the clauses of attempt [t'];
    the attempt [t'] is made with the seed [s + t']. *)
Theorem main_first_covering_attempt n m k p s hidden table fuel attempts t g
    cnf g' :
  retry_loop n m k p s hidden table fuel attempts t g = Ret (cnf, g') <->
  exists t' variables clauselist,
    t < t' <= t + Z.of_nat attempts /\
    (forall t'', t < t'' < t' ->
       exists vs cl g1,
         sample_clauses.sample_clauses k n m hidden p table fuel (s + t'') g
           = Ret (vs, cl, g1) /\
         Z.of_nat (size vs) <> n) /\
    sample_clauses.sample_clauses k n m hidden p table fuel (s + t') g
      = Ret (variables, clauselist, g') /\
    Z.of_nat (size variables) = n /\
    add_clauses clauselist (cnfformula.init n) = Ret cnf.
Proof.
  split.
  - intros (t' & vs & cl & Ht & Hs & Hsize & Hadd & Hbefore)%retry_loop_first.
    exists t', vs, cl. split; [done|]. split; [|by split].
    intros t'' Ht''. destruct (Hbefore t'' Ht'') as (vs' & cl' & g1 & Hs' & Hne).
    by exists vs', cl', g1.
  - intros (t' & vs & cl & Ht & Hbefore & Hs & Hsize & Hadd).
    apply (retry_loop_commits n m k p s hidden table fuel
             (Z.to_nat (t' - t - 1)) attempts t g g vs cl g' cnf);
      [| |done|done|lia].
    + intros j Hj. apply Hbefore. lia.
    + by replace (t + 1 + Z.of_nat (Z.to_nat (t' - t - 1))) with t' by lia.
Qed.

End orchestrator_more.

(** ** The text of a formula *)

(** A string without a line feed; a clause line without its line feed; the
    lines of a text put together, each followed by a line feed. *)
Fixpoint no_newline (s : string) : Prop :=
  match s with
  | EmptyString => True
  | String c s' => Ascii.eqb c "010"%char = false /\ no_newline s'
  end.

Definition clause_line (cls : list Z) : string :=
  (String.concat " " (map str_int cls) ++ " 0")%string.

Definition unlines (lines : list string) : string :=
  foldr (fun line rest => (line ++ newline ++ rest)%string) EmptyString lines.

Section text.
Import cnfformula.
Local Infix "+:+" := String.append (at level 60, right associativity).

Lemma append_cons (c : ascii) (s t : string) :
  String c s +:+ t = String c (s +:+ t).
Proof. reflexivity. Qed.

Lemma append_empty_l (t : string) : EmptyString +:+ t = t.
Proof. reflexivity. Qed.

Ltac unfold_append := rewrite ?append_cons, ?append_empty_l.

Lemma append_assoc (s1 s2 s3 : string) :
  (s1 +:+ s2) +:+ s3 = s1 +:+ (s2 +:+ s3).
Proof. induction s1 as [|c s1 IH]; unfold_append; [done | by f_equal]. Qed.

Lemma append_empty_r (s : string) : s +:+ EmptyString = s.
Proof. induction s as [|c s IH]; unfold_append; [done | by f_equal]. Qed.

Lemma no_newline_append (a b : string) :
  no_newline a -> no_newline b -> no_newline (a +:+ b).
Proof.
  induction a as [|c a IH]; unfold_append; [done|].
  simpl. intros [Hc Ha] Hb. auto.
Qed.

Lemma split_newline_line (a r : string) :
  no_newline a ->
  split_newline (a +:+ newline +:+ r) = a :: split_newline r.
Proof.
  induction a as [|c a IH]; [done|].
  rewrite (append_cons c a). simpl. intros [Hc Ha]. by rewrite Hc, IH.
Qed.

Lemma split_newline_no_newline (s : string) :
  Forall no_newline (split_newline s).
Proof.
  induction s as [|c s IH]; simpl; [by repeat constructor|].
  destruct (Ascii.eqb c "010") eqn:Hc; [by constructor|].
  destruct (split_newline s) as [|line lines]; [by repeat constructor|].
  apply Forall_cons in IH as [Hline Hlines]. by repeat constructor.
Qed.

Lemma split_newline_unlines (lines : list string) :
  Forall no_newline lines ->
  split_newline (unlines lines) = lines ++ [EmptyString].
Proof.
  induction 1 as [|line lines Hline _ IH]; [done|].
  cbn [unlines foldr]. fold (unlines lines).
  by rewrite split_newline_line, IH.
Qed.

Lemma str_uint_no_newline (d : Decimal.uint) :
  no_newline (NilEmpty.string_of_uint d).
Proof. induction d; simpl; auto. Qed.

Lemma str_int_no_newline (z : Z) : no_newline (str_int z).
Proof.
  unfold str_int, NilZero.string_of_int, NilZero.string_of_uint.
  destruct (Z.to_int z) as [d|d]; destruct d; simpl; auto using str_uint_no_newline.
Qed.

Lemma concat_no_newline (sep : string) (l : list string) :
  no_newline sep -> Forall no_newline l -> no_newline (String.concat sep l).
Proof.
  intros Hsep. induction 1 as [|x l Hx Hl IH]; [done|].
  cbn [String.concat]. destruct l; [done|]. by repeat apply no_newline_append.
Qed.

Lemma clause_line_no_newline (cls : list Z) : no_newline (clause_line cls).
Proof.
  unfold clause_line. apply no_newline_append; [|by simpl].
  apply concat_no_newline; [by simpl|].
  apply Forall_forall. intros s (z & -> & _)%list_elem_of_fmap.
  apply str_int_no_newline.
Qed.

Lemma foldl_append {A : Type} (f : A -> string) (l : list A) (acc : string) :
  foldl (fun output x => output +:+ f x) acc l
  = acc +:+ foldr (fun x rest => f x +:+ rest) EmptyString l.
Proof.
  revert acc. induction l as [|x l IH]; intros acc; cbn [foldl foldr].
  - by rewrite append_empty_r.
  - by rewrite IH, append_assoc.
Qed.

Lemma unlines_app (l1 l2 : list string) :
  unlines (l1 ++ l2) = unlines l1 +:+ unlines l2.
Proof.
  induction l1 as [|x l1 IH]; [done|].
  rewrite <- app_comm_cons. cbn [unlines foldr].
  fold (unlines (l1 ++ l2)). fold (unlines l1).
  by rewrite IH, !append_assoc.
Qed.

Lemma foldr_lines {A : Type} (f : A -> string) (l : list A) :
  foldr (fun x rest => (f x +:+ newline) +:+ rest) EmptyString l
  = unlines (map f l).
Proof.
  induction l as [|x l IH]; [done|].
  cbn [foldr map unlines]. fold (unlines (map f l)).
  by rewrite IH, append_assoc.
Qed.

(** The lines of [dimacs()]. *)
Definition dimacs_lines (self : CNF) : list string :=
  map (String.append "c ") (split_newline (header self))
  ++ ["p cnf " +:+ str_int (n self) +:+ " "
      +:+ str_int (Z.of_nat (length (clauses self)))]
  ++ map clause_line (clauses self).

Lemma dimacs_unlines (self : CNF) : dimacs self = unlines (dimacs_lines self).
Proof.
  unfold dimacs, dimacs_lines.
  rewrite !unlines_app.
  rewrite (foldl_append clause_string),
    (foldl_append (fun h => "c " +:+ h +:+ newline)).
  rewrite append_empty_l, append_assoc. f_equal; [|f_equal].
  - rewrite <- (foldr_lines (String.append "c ")).
    induction (split_newline (header self)) as [|h hs IH]; [done|].
    cbn [foldr]. by rewrite IH, append_assoc.
  - cbn [unlines foldr]. by rewrite !append_assoc, append_empty_r.
  - rewrite <- (foldr_lines clause_line).
    induction (clauses self) as [|c cs IH]; [done|].
    cbn [foldr]. unfold clause_string at 1, clause_line at 1.
    by rewrite IH, !append_assoc.
Qed.

Lemma dimacs_lines_no_newline (self : CNF) :
  Forall no_newline (dimacs_lines self).
Proof.
  unfold dimacs_lines. repeat apply Forall_app_2.
  - apply Forall_forall. intros s (h & -> & Hh)%list_elem_of_fmap.
    apply no_newline_append; [by simpl|].
    pose proof (split_newline_no_newline (header self)) as Hall.
    rewrite Forall_forall in Hall. by apply Hall.
  - constructor; [|constructor].
    repeat apply no_newline_append; try (by simpl); apply str_int_no_newline.
  - apply Forall_forall. intros s (c & -> & _)%list_elem_of_fmap.
    apply clause_line_no_newline.
Qed.

Lemma dimacs_split_lines (self : CNF) :
  split_newline (dimacs self) =
    map (String.append "c ") (split_newline (header self))
    ++ ["p cnf " +:+ str_int (n self) +:+ " "
        +:+ str_int (Z.of_nat (len self))]
    ++ map clause_line (clauses self)
    ++ [EmptyString].
Proof.
  rewrite dimacs_unlines, split_newline_unlines by apply dimacs_lines_no_newline.
  unfold dimacs_lines, len. by rewrite <- !app_assoc.
Qed.

(** X25: cut at the line feeds, the text of a formula is: each line of the
    header behind ["c "]; the line ["p cnf n m"], [m] being the number of
    clauses; for each clause, in order, its literals in decimal, separated by
    a blank and followed by [" 0"]; and the empty string behind the last line
    feed.  The empty clause gives the line [" 0"]. *)
Theorem dimacs_split (self : CNF) :
  split_newline (dimacs self) =
    map (String.append "c ") (split_newline (header self))
    ++ ["p cnf " +:+ str_int (n self) +:+ " "
        +:+ str_int (Z.of_nat (len self))]
    ++ map clause_line (clauses self)
    ++ [EmptyString] /\
  clause_line [] = " 0"%string.
Proof.
  split; [apply dimacs_split_lines | reflexivity].
Qed.

(** X26: the text written for a run that returns, whatever header [main]
    puts on the formula, has the line ["p cnf n m"] with the [n] and [m] that
    were asked for, followed by exactly [m] clause lines. *)
Theorem generated_text `{PyRandom} fuel n0 m k p s F w cnf w' (h : string) :
  generator.main fuel (Some n0) (Some m) k p s F w = Ret (cnf, w') ->
  split_newline
    (dimacs {| clauses := clauses cnf; n := n cnf; header := h |}) =
    map (String.append "c ") (split_newline h)
    ++ ["p cnf " +:+ str_int n0 +:+ " " +:+ str_int m]
    ++ map clause_line (clauses cnf)
    ++ [EmptyString] /\
  Z.of_nat (length (map clause_line (clauses cnf))) = m.
Proof.
  intros Hmain.
  pose proof (main_clause_count _ _ _ _ _ _ _ _ _ _ Hmain) as Hlen.
  apply orchestrator_n in Hmain as Hn.
  rewrite dimacs_split_lines. unfold len. cbn [clauses n header].
  rewrite Hn, Hlen, length_map. done.
Qed.

End text.

(** ** Examples for the properties above *)

Lemma signed_literal_read_back_witness :
  0 < 4 /\
  (0 <? cnfformula.signed_literal (false, 4),
   Z.abs (cnfformula.signed_literal (false, 4))) = (false, 4).
Proof.
  split; [lia|]. apply (proj1 (signed_literal_read_back false 4)). lia.
Defined.

Lemma main_formula_size_witness :
  fst <$> demo_run = Ret demo_formula /\
  Z.of_nat (cnfformula.len demo_formula) = 3 /\ cnfformula.n demo_formula = 3.
Proof.
  split; [vm_compute; reflexivity|].
  apply (main_formula_size 20 3 3 (Some 2) None (Some 5) None
           demo_world demo_formula (final_world demo_run demo_world)).
  apply (run_returns demo_run). vm_compute. reflexivity.
Defined.

Lemma main_too_few_literals_witness :
  generator.check_parameters 3 1 2 [1%Q; 1%Q] = Ret tt /\
  generator.main 30 (Some 3) (Some 1) (Some 2) None (Some 5) None demo_world
  = OutOfFuel /\
  generator.main 30 (Some 3) (Some 0) (Some 2) None (Some 5) None demo_world
  = OutOfFuel.
Proof.
  split; [vm_compute; reflexivity|]. split.
  - apply (main_too_few_literals 30 3 1 (Some 2) None (Some 5) demo_world);
      [vm_compute; reflexivity | simpl; lia | simpl; lia].
  - apply (main_too_few_literals 30 3 0 (Some 2) None (Some 5) demo_world);
      [vm_compute; reflexivity | simpl; lia | simpl; lia].
Defined.

Lemma main_table_too_large_witness :
  generator.check_parameters 2147483648 1 1 [1%Q] = Ret tt /\
  generator.hidden_solution_list 2147483648
    (Some (generator.Contents [2147483648])) (rng_seed 42)
  = Ret ([2147483648], lcg.seed 42) /\
  generator.main 5 (Some 2147483648) (Some 1) (Some 1) None None
    (Some (generator.Contents [2147483648])) demo_world
  = Raise (ValueError "There are fewer clauses available than the number requested").
Proof.
  assert (generator.check_parameters 2147483648 1 1 [1%Q] = Ret tt) as Hc
    by (vm_compute; reflexivity).
  assert (generator.hidden_solution_list 2147483648
            (Some (generator.Contents [2147483648])) (rng_seed 42)
          = Ret ([2147483648], lcg.seed 42)) as Hh
    by (vm_compute; reflexivity).
  split; [exact Hc|]. split; [exact Hh|].
  apply (main_table_too_large 5 2147483648 1 (Some 1) None None
           (Some (generator.Contents [2147483648])) demo_world
           [2147483648] (lcg.seed 42) Hc Hh).
  simpl. lia.
Defined.

Lemma main_first_covering_attempt_witness :
  Z.of_nat (size (retry_attempt 1).1.1) = 2 /\
  Z.of_nat (size (retry_attempt 2).1.1) = 2 /\
  Z.of_nat (size (retry_attempt 3).1.1) = 3 /\
  generator.retry_loop 3 2 2 [1%Q; 1%Q] 2 retry_hidden retry_table 20 20 0 0
  = Ret (retry_formula, (retry_attempt 3).2).
Proof.
  assert (Z.of_nat (size (retry_attempt 1).1.1) = 2) as H1
    by (vm_compute; reflexivity).
  assert (Z.of_nat (size (retry_attempt 2).1.1) = 2) as H2
    by (vm_compute; reflexivity).
  assert (Z.of_nat (size (retry_attempt 3).1.1) = 3) as H3
    by (vm_compute; reflexivity).
  assert (forall t, returns (retry_sample t) = true ->
            retry_sample t
            = Ret ((retry_attempt t).1.1, (retry_attempt t).1.2, (retry_attempt t).2))
    as Hret.
  { intros t Hr. rewrite <- !surjective_pairing. by apply returns_Ret. }
  do 3 (split; [done|]).
  apply (proj2 (main_first_covering_attempt (H := lcg_random)
                  3 2 2 [1%Q; 1%Q] 2 retry_hidden
                  retry_table 20 20 0 0 retry_formula (retry_attempt 3).2)).
  exists 3, (retry_attempt 3).1.1, (retry_attempt 3).1.2.
  split; [lia|]. split; [|split; [|split; [exact H3|]]].
  - intros t'' Ht''. assert (t'' = 1 \/ t'' = 2) as [-> | ->] by lia.
    + exists (retry_attempt 1).1.1, (retry_attempt 1).1.2, (retry_attempt 1).2.
      split; [apply (Hret 1); vm_compute; reflexivity | rewrite H1; lia].
    + exists (retry_attempt 2).1.1, (retry_attempt 2).1.2, (retry_attempt 2).2.
      split; [apply (Hret 2); vm_compute; reflexivity | rewrite H2; lia].
  - apply (Hret 3). vm_compute. reflexivity.
  - vm_compute. reflexivity.
Defined.

Lemma generated_text_witness :
  fst <$> demo_run = Ret demo_formula /\
  split_newline (cnfformula.dimacs demo_formula) =
    ["c Default header"; "p cnf 3 3"; "3 -1 0"; "2 3 0"; "-2 3 0"; ""]%string /\
  Z.of_nat (length (map clause_line (cnfformula.clauses demo_formula))) = 3.
Proof.
  split; [vm_compute; reflexivity|].
  apply (generated_text 20 3 3 (Some 2) None (Some 5) None
           demo_world demo_formula (final_world demo_run demo_world)
           "Default header").
  apply (run_returns demo_run). vm_compute. reflexivity.
Defined.

(** ** The errors of a pass and of a run *)

Section pass_errors.
Context `{PyRandom}.
Import sample_clauses.

(** X27: what a pass of the loop raises when it is called outside [main]:
    an [IndexError] when the candidate has more satisfied literals than [p]
    has entries, and a [KeyError] when the candidate passes the coin flip and
    the table has no entry for one of its literals (the table was not
    initialised, say). *)
Theorem sample_iteration_errors k n hidden p table (st : loop_state)
    vars g1 clause g2 :
  rng_sample (stream st) 1 (n + 1) k = Some (vars, g1) ->
  draw_polarities vars g1 = (clause, g2) ->
  ((length p < number_of_satisfied_literals clause hidden)%nat ->
   sample_iteration k n hidden p table st = Raise IndexError) /\
  (forall p_i g3 x,
     (0 < number_of_satisfied_literals clause hidden)%nat ->
     p !! (number_of_satisfied_literals clause hidden - 1)%nat = Some p_i ->
     unfair_coin_flip p_i g2 = (true, g3) ->
     x ∈ clause -> table !! x = None ->
     sample_iteration k n hidden p table st = Raise KeyError).
Proof.
  intros Hs Hd. split.
  - intros Hlen. unfold sample_iteration. rewrite Hs, Hd.
    assert ((0 <? number_of_satisfied_literals clause hidden)%nat = true) as ->
      by (apply Nat.ltb_lt; lia).
    unfold list_getitem. rewrite lookup_ge_None_2; [done | lia].
  - intros p_i g3 x Hpos Hp Hflip Hx Hnone.
    unfold sample_iteration. rewrite Hs, Hd.
    assert ((0 <? number_of_satisfied_literals clause hidden)%nat = true) as ->
      by by apply Nat.ltb_lt.
    unfold list_getitem. rewrite Hp, bind_Ret_l, Hflip.
    unfold hash_clauses.hash_clause.
    destruct (sum_map_getitem_cases table clause 0)
      as [(h & _ & Hall) | (-> & _)]; [|done].
    destruct (Hall x Hx) as [v Hv]. congruence.
Qed.

End pass_errors.

Definition before_any_clause : sample_clauses.loop_state (H := lcg_random) :=
  sample_clauses.mkState [] 0 ∅ ∅ (lcg.seed 3).

Lemma sample_iteration_errors_witness :
  sample_clauses.sample_iteration 2 3 all_true [1%Q] colliding_table
    before_any_clause = Raise IndexError /\
  sample_clauses.sample_iteration 2 3 all_true [1%Q; 1%Q] ∅
    before_any_clause = Raise KeyError.
Proof.
  split.
  - apply (proj1 (sample_iteration_errors 2 3 all_true [1%Q] colliding_table
                    before_any_clause
                    [3; 1] 1163074432 [(true, 3); (true, 1)] 679304702
                    ltac:(vm_compute; reflexivity)
                    ltac:(vm_compute; reflexivity))).
    vm_compute. lia.
  - apply (proj2 (sample_iteration_errors 2 3 all_true [1%Q; 1%Q] ∅
                    before_any_clause
                    [3; 1] 1163074432 [(true, 3); (true, 1)] 679304702
                    ltac:(vm_compute; reflexivity)
                    ltac:(vm_compute; reflexivity))
             1%Q (lcg.next 679304702) (true, 3)).
    + vm_compute. lia.
    + vm_compute. reflexivity.
    + vm_compute. reflexivity.
    + apply elem_of_cons. by left.
    + reflexivity.
Defined.

Section run_errors.
Context `{PyRandom}.
Import generator.



End run_errors.

